(** * Mini Battle Arena: the combat core

    A shallow embedding of the collision engine ([PhysicsEngine], js/app.js),
    the per-character state machine ([Character], part_000), the driving loop
    ([GameEngine], js/app.js) and the match orchestration ([BattleSystem],
    js/systems/battle-system.js), followed by the properties of the
    specification that were checked against them.

    JavaScript numbers are modelled as exact rationals: the arithmetic of
    the model has neither the rounding of IEEE doubles nor [Infinity] and
    [NaN].  Where the program can divide by zero, the properties that read
    the quotient assume the divisor is not zero.  Rendering calls (particles,
    camera shake, DOM nodes, console output) carry no simulation state and
    are left out. *)

From Stdlib Require Import QArith Qminmax Qabs Lqa Lia.
From Stdlib Require Import List String Bool ZArith DecimalString.
From Stdlib Require Import Qround DecimalZ DecimalPos.
Import ListNotations.
Open Scope Q_scope.

(** * Numbers *)

(** [a < b] and [a <= b] as the booleans a JavaScript comparison yields. *)
Definition Qltb (a b : Q) : bool := negb (Qle_bool b a).
Definition Qleb (a b : Q) : bool := Qle_bool a b.

Infix "<?" := Qltb (at level 70, no associativity) : Q_scope.
Infix "<=?" := Qleb (at level 70, no associativity) : Q_scope.

(** Truthiness of a number: [if (n)] holds unless [n] is zero. *)
Definition truthy (n : Q) : bool := negb (Qeq_bool n 0).

(** An optional numeric property, as in [ability.knockback && ...]:
    absent (undefined) and zero are both falsy. *)
Definition truthyOpt (o : option Q) : bool :=
  match o with Some n => truthy n | None => false end.

(** [config.field || dflt]: the default replaces a missing or zero value. *)
Definition orDefault (o : option Q) (dflt : Q) : Q :=
  match o with
  | Some n => if truthy n then n else dflt
  | None => dflt
  end.

(** [Math.sqrt(d2) <= r] and [Math.sqrt(d2) < r], decided on the squares:
    for [d2 >= 0] the square root is at most [r] exactly when [r] is
    non-negative and [d2 <= r * r].  The program rounds the sum of the
    squares and the root, which can take a point that lies within rounding
    of the boundary to its other side. *)
Definition sqrt_leb (d2 r : Q) : bool := (0 <=? r) && (d2 <=? r * r).
Definition sqrt_ltb (d2 r : Q) : bool := (0 <? r) && (d2 <? r * r).

(** * Configuration ([window.gameConfig], part_001:25) *)

Module gameConfig.
Definition battleDuration : Q := 30.
Definition maxHealth : Q := 100.
Definition attackDamage_light : Q := 15.
Definition moveSpeed : Q := 200.
Definition dashSpeed : Q := 400.
Definition dashDuration : Q := 0.3.
Definition dashCooldown : Q := 2.
Definition blockReduction : Q := 0.5.
Definition blockCooldown : Q := 1.
Definition arenaWidth : Q := 800.
Definition arenaHeight : Q := 600.
Definition xpPerLoss : Q := 15.
End gameConfig.

(** * Data model *)

Inductive Shape : Type := rectangle | circle.

(** [Character.type] is a string the code only ever switches on; [base]
    stands for every string other than the four archetypes. *)
Inductive CharType : Type := base | ninja | knight | mage | berserker.

Module Animation.
Inductive name : Type := idle | run | attack | block | dash | hurt | death.

Record t : Type := mk {
  current : name;
  frame : nat;
  timer : Q;
  speed : Q
}.
End Animation.

(** An attack ability: [damage], [range] and [cooldown] are always present,
    the other properties only on some abilities. *)
Module Ability.
Record t : Type := mk {
  damage : Q;
  range : Q;
  cooldown : Q;
  knockback : option Q;
  stun : option Q;
  teleport : bool;
  projectile : bool
}.
End Ability.

Module Block.
Record t : Type := mk { reduction : Q; cooldown : Q }.
End Block.

Module Dash.
Record t : Type := mk { speed : Q; duration : Q; cooldown : Q }.
End Dash.

Module Rage.
Record t : Type := mk {
  duration : Q;
  cooldown : Q;
  damageMultiplier : Q;
  speedMultiplier : Q
}.
End Rage.

Module Abilities.
Record t : Type := mk {
  lightAttack : Ability.t;
  heavyAttack : option Ability.t;
  block : Block.t;
  dash : Dash.t;
  shadowStrike : option Ability.t;
  shieldBash : option Ability.t;
  fireball : option Ability.t;
  rage : option Rage.t
}.
End Abilities.

Module Body.

(** A physics body, as built by [createBody] (js/app.js:697). *)
Record t : Type := mk {
  id : string;
  x : Q;
  y : Q;
  width : Q;
  height : Q;
  vx : Q;
  vy : Q;
  mass : Q;
  restitution : Q;
  friction : Q;
  isStatic : bool;
  isTrigger : bool;
  layer : string;
  shape : Shape;
  radius : Q;
  onCollisionEnter : bool;  (* a callback is registered *)
  onCollisionExit : bool;
  onTriggerEnter : bool;
  onTriggerExit : bool;
  grounded : bool;
  collidingWith : list string;  (* a Set of ids, in insertion order *)
  lastPosition : Q * Q
}.

Definition set_x (v : Q) (o : t) : t :=
  mk (id o) v (y o) (width o) (height o) (vx o) (vy o) (mass o) (restitution
    o) (friction o) (isStatic o) (isTrigger o) (layer o) (shape o) (radius o)
    (onCollisionEnter o) (onCollisionExit o) (onTriggerEnter o) (onTriggerExit
    o) (grounded o) (collidingWith o) (lastPosition o).
Definition set_y (v : Q) (o : t) : t :=
  mk (id o) (x o) v (width o) (height o) (vx o) (vy o) (mass o) (restitution
    o) (friction o) (isStatic o) (isTrigger o) (layer o) (shape o) (radius o)
    (onCollisionEnter o) (onCollisionExit o) (onTriggerEnter o) (onTriggerExit
    o) (grounded o) (collidingWith o) (lastPosition o).
Definition set_vx (v : Q) (o : t) : t :=
  mk (id o) (x o) (y o) (width o) (height o) v (vy o) (mass o) (restitution o)
    (friction o) (isStatic o) (isTrigger o) (layer o) (shape o) (radius o)
    (onCollisionEnter o) (onCollisionExit o) (onTriggerEnter o) (onTriggerExit
    o) (grounded o) (collidingWith o) (lastPosition o).
Definition set_vy (v : Q) (o : t) : t :=
  mk (id o) (x o) (y o) (width o) (height o) (vx o) v (mass o) (restitution o)
    (friction o) (isStatic o) (isTrigger o) (layer o) (shape o) (radius o)
    (onCollisionEnter o) (onCollisionExit o) (onTriggerEnter o) (onTriggerExit
    o) (grounded o) (collidingWith o) (lastPosition o).
Definition set_grounded (v : bool) (o : t) : t :=
  mk (id o) (x o) (y o) (width o) (height o) (vx o) (vy o) (mass o)
    (restitution o) (friction o) (isStatic o) (isTrigger o) (layer o) (shape
    o) (radius o) (onCollisionEnter o) (onCollisionExit o) (onTriggerEnter o)
    (onTriggerExit o) v (collidingWith o) (lastPosition o).
Definition set_collidingWith (v : list string) (o : t) : t :=
  mk (id o) (x o) (y o) (width o) (height o) (vx o) (vy o) (mass o)
    (restitution o) (friction o) (isStatic o) (isTrigger o) (layer o) (shape
    o) (radius o) (onCollisionEnter o) (onCollisionExit o) (onTriggerEnter o)
    (onTriggerExit o) (grounded o) v (lastPosition o).
Definition set_lastPosition (v : Q * Q) (o : t) : t :=
  mk (id o) (x o) (y o) (width o) (height o) (vx o) (vy o) (mass o)
    (restitution o) (friction o) (isStatic o) (isTrigger o) (layer o) (shape
    o) (radius o) (onCollisionEnter o) (onCollisionExit o) (onTriggerEnter o)
    (onTriggerExit o) (grounded o) (collidingWith o) v.

End Body.

Module Char.

(** The fields of a [Character] object (constructor, part_000:7). *)
Record t : Type := mk {
  id : string;
  type : CharType;
  x : Q;
  y : Q;
  width : Q;
  height : Q;
  vx : Q;
  vy : Q;
  maxHealth : Q;
  health : Q;
  speed : Q;
  attackDamage : Q;
  attackRange : Q;
  defense : Q;
  facingRight : bool;
  isGrounded : bool;
  isAttacking : bool;
  isBlocking : bool;
  isDashing : bool;
  isStunned : bool;
  isDead : bool;
  attackCooldown : Q;
  blockCooldown : Q;
  dashCooldown : Q;
  stunDuration : Q;
  invulnerabilityTime : Q;
  animation : Animation.t;
  abilities : Abilities.t;
  rageActive : bool;  (* undefined until [rage] first runs; read only for truthiness *)
  rageDuration : Q;  (* undefined until [rage] first runs; read only through [> 0] *)
  rageCooldown : Q  (* likewise *)
}.

Definition set_x (v : Q) (o : t) : t :=
  mk (id o) (type o) v (y o) (width o) (height o) (vx o) (vy o) (maxHealth o)
    (health o) (speed o) (attackDamage o) (attackRange o) (defense o)
    (facingRight o) (isGrounded o) (isAttacking o) (isBlocking o) (isDashing
    o) (isStunned o) (isDead o) (attackCooldown o) (blockCooldown o)
    (dashCooldown o) (stunDuration o) (invulnerabilityTime o) (animation o)
    (abilities o) (rageActive o) (rageDuration o) (rageCooldown o).
Definition set_y (v : Q) (o : t) : t :=
  mk (id o) (type o) (x o) v (width o) (height o) (vx o) (vy o) (maxHealth o)
    (health o) (speed o) (attackDamage o) (attackRange o) (defense o)
    (facingRight o) (isGrounded o) (isAttacking o) (isBlocking o) (isDashing
    o) (isStunned o) (isDead o) (attackCooldown o) (blockCooldown o)
    (dashCooldown o) (stunDuration o) (invulnerabilityTime o) (animation o)
    (abilities o) (rageActive o) (rageDuration o) (rageCooldown o).
Definition set_vx (v : Q) (o : t) : t :=
  mk (id o) (type o) (x o) (y o) (width o) (height o) v (vy o) (maxHealth o)
    (health o) (speed o) (attackDamage o) (attackRange o) (defense o)
    (facingRight o) (isGrounded o) (isAttacking o) (isBlocking o) (isDashing
    o) (isStunned o) (isDead o) (attackCooldown o) (blockCooldown o)
    (dashCooldown o) (stunDuration o) (invulnerabilityTime o) (animation o)
    (abilities o) (rageActive o) (rageDuration o) (rageCooldown o).
Definition set_vy (v : Q) (o : t) : t :=
  mk (id o) (type o) (x o) (y o) (width o) (height o) (vx o) v (maxHealth o)
    (health o) (speed o) (attackDamage o) (attackRange o) (defense o)
    (facingRight o) (isGrounded o) (isAttacking o) (isBlocking o) (isDashing
    o) (isStunned o) (isDead o) (attackCooldown o) (blockCooldown o)
    (dashCooldown o) (stunDuration o) (invulnerabilityTime o) (animation o)
    (abilities o) (rageActive o) (rageDuration o) (rageCooldown o).
Definition set_health (v : Q) (o : t) : t :=
  mk (id o) (type o) (x o) (y o) (width o) (height o) (vx o) (vy o) (maxHealth
    o) v (speed o) (attackDamage o) (attackRange o) (defense o) (facingRight
    o) (isGrounded o) (isAttacking o) (isBlocking o) (isDashing o) (isStunned
    o) (isDead o) (attackCooldown o) (blockCooldown o) (dashCooldown o)
    (stunDuration o) (invulnerabilityTime o) (animation o) (abilities o)
    (rageActive o) (rageDuration o) (rageCooldown o).
Definition set_facingRight (v : bool) (o : t) : t :=
  mk (id o) (type o) (x o) (y o) (width o) (height o) (vx o) (vy o) (maxHealth
    o) (health o) (speed o) (attackDamage o) (attackRange o) (defense o) v
    (isGrounded o) (isAttacking o) (isBlocking o) (isDashing o) (isStunned o)
    (isDead o) (attackCooldown o) (blockCooldown o) (dashCooldown o)
    (stunDuration o) (invulnerabilityTime o) (animation o) (abilities o)
    (rageActive o) (rageDuration o) (rageCooldown o).
Definition set_isGrounded (v : bool) (o : t) : t :=
  mk (id o) (type o) (x o) (y o) (width o) (height o) (vx o) (vy o) (maxHealth
    o) (health o) (speed o) (attackDamage o) (attackRange o) (defense o)
    (facingRight o) v (isAttacking o) (isBlocking o) (isDashing o) (isStunned
    o) (isDead o) (attackCooldown o) (blockCooldown o) (dashCooldown o)
    (stunDuration o) (invulnerabilityTime o) (animation o) (abilities o)
    (rageActive o) (rageDuration o) (rageCooldown o).
Definition set_isAttacking (v : bool) (o : t) : t :=
  mk (id o) (type o) (x o) (y o) (width o) (height o) (vx o) (vy o) (maxHealth
    o) (health o) (speed o) (attackDamage o) (attackRange o) (defense o)
    (facingRight o) (isGrounded o) v (isBlocking o) (isDashing o) (isStunned
    o) (isDead o) (attackCooldown o) (blockCooldown o) (dashCooldown o)
    (stunDuration o) (invulnerabilityTime o) (animation o) (abilities o)
    (rageActive o) (rageDuration o) (rageCooldown o).
Definition set_isBlocking (v : bool) (o : t) : t :=
  mk (id o) (type o) (x o) (y o) (width o) (height o) (vx o) (vy o) (maxHealth
    o) (health o) (speed o) (attackDamage o) (attackRange o) (defense o)
    (facingRight o) (isGrounded o) (isAttacking o) v (isDashing o) (isStunned
    o) (isDead o) (attackCooldown o) (blockCooldown o) (dashCooldown o)
    (stunDuration o) (invulnerabilityTime o) (animation o) (abilities o)
    (rageActive o) (rageDuration o) (rageCooldown o).
Definition set_isDashing (v : bool) (o : t) : t :=
  mk (id o) (type o) (x o) (y o) (width o) (height o) (vx o) (vy o) (maxHealth
    o) (health o) (speed o) (attackDamage o) (attackRange o) (defense o)
    (facingRight o) (isGrounded o) (isAttacking o) (isBlocking o) v (isStunned
    o) (isDead o) (attackCooldown o) (blockCooldown o) (dashCooldown o)
    (stunDuration o) (invulnerabilityTime o) (animation o) (abilities o)
    (rageActive o) (rageDuration o) (rageCooldown o).
Definition set_isStunned (v : bool) (o : t) : t :=
  mk (id o) (type o) (x o) (y o) (width o) (height o) (vx o) (vy o) (maxHealth
    o) (health o) (speed o) (attackDamage o) (attackRange o) (defense o)
    (facingRight o) (isGrounded o) (isAttacking o) (isBlocking o) (isDashing
    o) v (isDead o) (attackCooldown o) (blockCooldown o) (dashCooldown o)
    (stunDuration o) (invulnerabilityTime o) (animation o) (abilities o)
    (rageActive o) (rageDuration o) (rageCooldown o).
Definition set_isDead (v : bool) (o : t) : t :=
  mk (id o) (type o) (x o) (y o) (width o) (height o) (vx o) (vy o) (maxHealth
    o) (health o) (speed o) (attackDamage o) (attackRange o) (defense o)
    (facingRight o) (isGrounded o) (isAttacking o) (isBlocking o) (isDashing
    o) (isStunned o) v (attackCooldown o) (blockCooldown o) (dashCooldown o)
    (stunDuration o) (invulnerabilityTime o) (animation o) (abilities o)
    (rageActive o) (rageDuration o) (rageCooldown o).
Definition set_attackCooldown (v : Q) (o : t) : t :=
  mk (id o) (type o) (x o) (y o) (width o) (height o) (vx o) (vy o) (maxHealth
    o) (health o) (speed o) (attackDamage o) (attackRange o) (defense o)
    (facingRight o) (isGrounded o) (isAttacking o) (isBlocking o) (isDashing
    o) (isStunned o) (isDead o) v (blockCooldown o) (dashCooldown o)
    (stunDuration o) (invulnerabilityTime o) (animation o) (abilities o)
    (rageActive o) (rageDuration o) (rageCooldown o).
Definition set_blockCooldown (v : Q) (o : t) : t :=
  mk (id o) (type o) (x o) (y o) (width o) (height o) (vx o) (vy o) (maxHealth
    o) (health o) (speed o) (attackDamage o) (attackRange o) (defense o)
    (facingRight o) (isGrounded o) (isAttacking o) (isBlocking o) (isDashing
    o) (isStunned o) (isDead o) (attackCooldown o) v (dashCooldown o)
    (stunDuration o) (invulnerabilityTime o) (animation o) (abilities o)
    (rageActive o) (rageDuration o) (rageCooldown o).
Definition set_dashCooldown (v : Q) (o : t) : t :=
  mk (id o) (type o) (x o) (y o) (width o) (height o) (vx o) (vy o) (maxHealth
    o) (health o) (speed o) (attackDamage o) (attackRange o) (defense o)
    (facingRight o) (isGrounded o) (isAttacking o) (isBlocking o) (isDashing
    o) (isStunned o) (isDead o) (attackCooldown o) (blockCooldown o) v
    (stunDuration o) (invulnerabilityTime o) (animation o) (abilities o)
    (rageActive o) (rageDuration o) (rageCooldown o).
Definition set_stunDuration (v : Q) (o : t) : t :=
  mk (id o) (type o) (x o) (y o) (width o) (height o) (vx o) (vy o) (maxHealth
    o) (health o) (speed o) (attackDamage o) (attackRange o) (defense o)
    (facingRight o) (isGrounded o) (isAttacking o) (isBlocking o) (isDashing
    o) (isStunned o) (isDead o) (attackCooldown o) (blockCooldown o)
    (dashCooldown o) v (invulnerabilityTime o) (animation o) (abilities o)
    (rageActive o) (rageDuration o) (rageCooldown o).
Definition set_invulnerabilityTime (v : Q) (o : t) : t :=
  mk (id o) (type o) (x o) (y o) (width o) (height o) (vx o) (vy o) (maxHealth
    o) (health o) (speed o) (attackDamage o) (attackRange o) (defense o)
    (facingRight o) (isGrounded o) (isAttacking o) (isBlocking o) (isDashing
    o) (isStunned o) (isDead o) (attackCooldown o) (blockCooldown o)
    (dashCooldown o) (stunDuration o) v (animation o) (abilities o)
    (rageActive o) (rageDuration o) (rageCooldown o).
Definition set_animation (v : Animation.t) (o : t) : t :=
  mk (id o) (type o) (x o) (y o) (width o) (height o) (vx o) (vy o) (maxHealth
    o) (health o) (speed o) (attackDamage o) (attackRange o) (defense o)
    (facingRight o) (isGrounded o) (isAttacking o) (isBlocking o) (isDashing
    o) (isStunned o) (isDead o) (attackCooldown o) (blockCooldown o)
    (dashCooldown o) (stunDuration o) (invulnerabilityTime o) v (abilities o)
    (rageActive o) (rageDuration o) (rageCooldown o).
Definition set_rageActive (v : bool) (o : t) : t :=
  mk (id o) (type o) (x o) (y o) (width o) (height o) (vx o) (vy o) (maxHealth
    o) (health o) (speed o) (attackDamage o) (attackRange o) (defense o)
    (facingRight o) (isGrounded o) (isAttacking o) (isBlocking o) (isDashing
    o) (isStunned o) (isDead o) (attackCooldown o) (blockCooldown o)
    (dashCooldown o) (stunDuration o) (invulnerabilityTime o) (animation o)
    (abilities o) v (rageDuration o) (rageCooldown o).
Definition set_rageDuration (v : Q) (o : t) : t :=
  mk (id o) (type o) (x o) (y o) (width o) (height o) (vx o) (vy o) (maxHealth
    o) (health o) (speed o) (attackDamage o) (attackRange o) (defense o)
    (facingRight o) (isGrounded o) (isAttacking o) (isBlocking o) (isDashing
    o) (isStunned o) (isDead o) (attackCooldown o) (blockCooldown o)
    (dashCooldown o) (stunDuration o) (invulnerabilityTime o) (animation o)
    (abilities o) (rageActive o) v (rageCooldown o).
Definition set_rageCooldown (v : Q) (o : t) : t :=
  mk (id o) (type o) (x o) (y o) (width o) (height o) (vx o) (vy o) (maxHealth
    o) (health o) (speed o) (attackDamage o) (attackRange o) (defense o)
    (facingRight o) (isGrounded o) (isAttacking o) (isBlocking o) (isDashing
    o) (isStunned o) (isDead o) (attackCooldown o) (blockCooldown o)
    (dashCooldown o) (stunDuration o) (invulnerabilityTime o) (animation o)
    (abilities o) (rageActive o) (rageDuration o) v.

End Char.

(** * The collision and motion engine ([PhysicsEngine], js/app.js:683) *)

(** The engine's [bodies] Map, in insertion order.  Ids are the keys. *)
Definition Bodies : Type := list Body.t.

(** A call of one of a body's callbacks: [receiver.onX(other)]. *)
Inductive Notification : Type :=
| CollisionEnter (receiver other : string)
| CollisionExit (receiver other : string)
| TriggerEnter (receiver other : string).

Definition has (s : string) (l : list string) : bool :=
  existsb (String.eqb s) l.

(** [Set.prototype.add]. *)
Definition add (s : string) (l : list string) : list string :=
  if has s l then l else l ++ [s].

Definition getBody (id : string) (bs : Bodies) : option Body.t :=
  find (fun b => String.eqb (Body.id b) id) bs.

(** [bodies.set(id, body)]: an existing key keeps its place. *)
Fixpoint setBody (b : Body.t) (bs : Bodies) : Bodies :=
  match bs with
  | [] => [b]
  | b0 :: rest =>
      if String.eqb (Body.id b0) (Body.id b) then b :: rest
      else b0 :: setBody b rest
  end.

Definition removeBody (id : string) (bs : Bodies) : Bodies :=
  filter (fun b => negb (String.eqb (Body.id b) id)) bs.

(** A write through a reference to the body stored under [id]. *)
Definition modBody (id : string) (f : Body.t -> Body.t) (bs : Bodies)
  : Bodies :=
  map (fun b => if String.eqb (Body.id b) id then f b else b) bs.

Module BodyConfig.
Record t : Type := mk {
  x : option Q; y : option Q; width : option Q; height : option Q;
  vx : option Q; vy : option Q; mass : option Q;
  restitution : option Q; friction : option Q;
  isStatic : bool; isTrigger : bool;
  layer : option string; shape : option Shape; radius : option Q;
  onCollisionEnter : bool; onCollisionExit : bool;
  onTriggerEnter : bool; onTriggerExit : bool
}.
End BodyConfig.

Definition createBody (id : string) (config : BodyConfig.t) : Body.t :=
  let w := orDefault (BodyConfig.width config) 32 in
  let h := orDefault (BodyConfig.height config) 32 in
  Body.mk id
    (orDefault (BodyConfig.x config) 0)
    (orDefault (BodyConfig.y config) 0)
    w h
    (orDefault (BodyConfig.vx config) 0)
    (orDefault (BodyConfig.vy config) 0)
    (orDefault (BodyConfig.mass config) 1)
    (orDefault (BodyConfig.restitution config) 0.3)
    (orDefault (BodyConfig.friction config) 0.8)
    (BodyConfig.isStatic config)
    (BodyConfig.isTrigger config)
    (match BodyConfig.layer config with
     | Some l => if String.eqb l "" then "default"%string else l
     | None => "default"%string
     end)
    (match BodyConfig.shape config with Some s => s | None => rectangle end)
    (orDefault (BodyConfig.radius config) (Qmin w h / 2))
    (BodyConfig.onCollisionEnter config)
    (BodyConfig.onCollisionExit config)
    (BodyConfig.onTriggerEnter config)
    (BodyConfig.onTriggerExit config)
    false
    []
    (orDefault (BodyConfig.x config) 0, orDefault (BodyConfig.y config) 0).

Definition constrainToArena (body : Body.t) : Body.t :=
  let margin := 10 in
  let body :=
    if Body.x body <? margin then
      Body.set_vx (Qabs (Body.vx body) * Body.restitution body)
        (Body.set_x margin body)
    else body in
  let body :=
    if gameConfig.arenaWidth - margin <? Body.x body + Body.width body then
      Body.set_vx (- Qabs (Body.vx body) * Body.restitution body)
        (Body.set_x (gameConfig.arenaWidth - margin - Body.width body) body)
    else body in
  let body :=
    if Body.y body <? margin then
      Body.set_vy (Qabs (Body.vy body) * Body.restitution body)
        (Body.set_y margin body)
    else body in
  if gameConfig.arenaHeight - margin <? Body.y body + Body.height body then
    Body.set_grounded true
      (Body.set_vy 0
         (Body.set_y (gameConfig.arenaHeight - margin - Body.height body)
            body))
  else body.

Definition checkRectangleCollision (rectA rectB : Body.t) : bool :=
  (Body.x rectA <? Body.x rectB + Body.width rectB) &&
  (Body.x rectB <? Body.x rectA + Body.width rectA) &&
  (Body.y rectA <? Body.y rectB + Body.height rectB) &&
  (Body.y rectB <? Body.y rectA + Body.height rectA).

Definition checkCircleCollision (circleA circleB : Body.t) : bool :=
  let dx := (Body.x circleA + Body.radius circleA)
            - (Body.x circleB + Body.radius circleB) in
  let dy := (Body.y circleA + Body.radius circleA)
            - (Body.y circleB + Body.radius circleB) in
  sqrt_ltb (dx * dx + dy * dy) (Body.radius circleA + Body.radius circleB).

Definition checkCircleRectangleCollision (circle rect : Body.t) : bool :=
  let circleX := Body.x circle + Body.radius circle in
  let circleY := Body.y circle + Body.radius circle in
  let closestX :=
    Qmax (Body.x rect) (Qmin circleX (Body.x rect + Body.width rect)) in
  let closestY :=
    Qmax (Body.y rect) (Qmin circleY (Body.y rect + Body.height rect)) in
  let dx := circleX - closestX in
  let dy := circleY - closestY in
  sqrt_ltb (dx * dx + dy * dy) (Body.radius circle).

Definition checkCollision (bodyA bodyB : Body.t) : bool :=
  match Body.shape bodyA, Body.shape bodyB with
  | rectangle, rectangle => checkRectangleCollision bodyA bodyB
  | circle, circle => checkCircleCollision bodyA bodyB
  | circle, rectangle => checkCircleRectangleCollision bodyA bodyB
  | rectangle, circle => checkCircleRectangleCollision bodyB bodyA
  end.

(** What [calculateCollisionData] returns.  Its [distance] field is read
    nowhere and is not kept. *)
Module Collision.
Record t : Type := mk { overlap : Q; normalX : Q; normalY : Q }.
End Collision.

Definition calculateCollisionData (bodyA bodyB : Body.t) : Collision.t :=
  let centerAX := Body.x bodyA + Body.width bodyA / 2 in
  let centerAY := Body.y bodyA + Body.height bodyA / 2 in
  let centerBX := Body.x bodyB + Body.width bodyB / 2 in
  let centerBY := Body.y bodyB + Body.height bodyB / 2 in
  let dx := centerBX - centerAX in
  let dy := centerBY - centerAY in
  let overlapX := (Body.width bodyA + Body.width bodyB) / 2 - Qabs dx in
  let overlapY := (Body.height bodyA + Body.height bodyB) / 2 - Qabs dy in
  if overlapX <? overlapY then
    Collision.mk overlapX (if dx <? 0 then -1 else 1) 0
  else
    Collision.mk overlapY 0 (if dy <? 0 then -1 else 1).

(** [separateBodies] (js/app.js:1007).  The shares of two movable bodies
    divide by the total mass, which the program does not test: the
    properties of the shares assume it is not zero. *)
Definition separateBodies (bodyA bodyB : Body.t) (collision : Collision.t)
  : Body.t * Body.t :=
  let totalMass := Body.mass bodyA + Body.mass bodyB in
  let separationA :=
    if Body.isStatic bodyB then Collision.overlap collision
    else (Body.mass bodyB / totalMass) * Collision.overlap collision in
  let separationB :=
    if Body.isStatic bodyA then Collision.overlap collision
    else (Body.mass bodyA / totalMass) * Collision.overlap collision in
  let bodyA' :=
    if negb (Body.isStatic bodyA) then
      Body.set_y (Body.y bodyA - separationA * Collision.normalY collision)
        (Body.set_x (Body.x bodyA - separationA * Collision.normalX collision)
           bodyA)
    else bodyA in
  let bodyB' :=
    if negb (Body.isStatic bodyB) then
      Body.set_y (Body.y bodyB + separationB * Collision.normalY collision)
        (Body.set_x (Body.x bodyB + separationB * Collision.normalX collision)
           bodyB)
    else bodyB in
  (bodyA', bodyB').

(** [applyCollisionResponse] (js/app.js:1029).  [impulseScalar] divides by
    the total mass as well. *)
Definition applyCollisionResponse (bodyA bodyB : Body.t)
  (collision : Collision.t) : Body.t * Body.t :=
  let relativeVelX := Body.vx bodyB - Body.vx bodyA in
  let relativeVelY := Body.vy bodyB - Body.vy bodyA in
  let velAlongNormal :=
    relativeVelX * Collision.normalX collision
    + relativeVelY * Collision.normalY collision in
  if 0 <? velAlongNormal then (bodyA, bodyB)
  else
    let restitution :=
      Qmin (Body.restitution bodyA) (Body.restitution bodyB) in
    let impulse := - (1 + restitution) * velAlongNormal in
    let totalMass := Body.mass bodyA + Body.mass bodyB in
    let impulseScalar := impulse / totalMass in
    let bodyA' :=
      if negb (Body.isStatic bodyA) then
        let a :=
          Body.set_vy
            (Body.vy bodyA
             - impulseScalar * Body.mass bodyB * Collision.normalY collision)
            (Body.set_vx
               (Body.vx bodyA
                - impulseScalar * Body.mass bodyB
                  * Collision.normalX collision)
               bodyA) in
        if Collision.normalY collision <? -0.5
        then Body.set_grounded true a else a
      else bodyA in
    let bodyB' :=
      if negb (Body.isStatic bodyB) then
        let b :=
          Body.set_vy
            (Body.vy bodyB
             + impulseScalar * Body.mass bodyA * Collision.normalY collision)
            (Body.set_vx
               (Body.vx bodyB
                + impulseScalar * Body.mass bodyA
                  * Collision.normalX collision)
               bodyB) in
        if 0.5 <? Collision.normalY collision
        then Body.set_grounded true b else b
      else bodyB in
    (bodyA', bodyB').

(** [handleTriggerCollision]: the trigger is [bodyA] when [bodyA] is one,
    otherwise [bodyB]. *)
Definition handleTriggerCollision (bodyA bodyB : Body.t)
  : Body.t * Body.t * list Notification :=
  let trigger := if Body.isTrigger bodyA then bodyA else bodyB in
  let other := if Body.isTrigger bodyA then bodyB else bodyA in
  if negb (has (Body.id other) (Body.collidingWith trigger)) then
    let trigger' :=
      Body.set_collidingWith
        (add (Body.id other) (Body.collidingWith trigger)) trigger in
    let fired :=
      if Body.onTriggerEnter trigger
      then [TriggerEnter (Body.id trigger) (Body.id other)] else [] in
    if Body.isTrigger bodyA then (trigger', bodyB, fired)
    else (bodyA, trigger', fired)
  else (bodyA, bodyB, []).

(** [resolveCollision].  The callbacks are not run here: the calls are
    returned, in the order the program makes them, for the caller to run.
    Of the callbacks registered in this repository,
    [Character.handleCollision] writes to no body; the falling rock's
    [onTriggerEnter] (arena-system.js:275) removes the rock's own body from
    the Map through [removeHazard].  [checkCollisions] walks an array made
    before, so such a removal changes no pair of the same pass; it shows in
    the Map the update leaves. *)
Definition resolveCollision (bodyA bodyB : Body.t)
  : Body.t * Body.t * list Notification :=
  if Body.isTrigger bodyA || Body.isTrigger bodyB then
    handleTriggerCollision bodyA bodyB
  else if Body.isStatic bodyA && Body.isStatic bodyB then (bodyA, bodyB, [])
  else
    let '(bodyA, bodyB, fired) :=
      if negb (has (Body.id bodyB) (Body.collidingWith bodyA)) then
        (Body.set_collidingWith
           (add (Body.id bodyB) (Body.collidingWith bodyA)) bodyA,
         Body.set_collidingWith
           (add (Body.id bodyA) (Body.collidingWith bodyB)) bodyB,
         (if Body.onCollisionEnter bodyA
          then [CollisionEnter (Body.id bodyA) (Body.id bodyB)] else [])
         ++ (if Body.onCollisionEnter bodyB
             then [CollisionEnter (Body.id bodyB) (Body.id bodyA)] else []))
      else (bodyA, bodyB, []) in
    let collision := calculateCollisionData bodyA bodyB in
    if 0 <? Collision.overlap collision then
      let '(bodyA, bodyB) := separateBodies bodyA bodyB collision in
      let '(bodyA, bodyB) := applyCollisionResponse bodyA bodyB collision in
      (bodyA, bodyB, fired)
    else (bodyA, bodyB, fired).

(** In-place write of the [n]-th element of [bodyArray]. *)
Fixpoint set_nth {A : Type} (n : nat) (v : A) (l : list A) : list A :=
  match l, n with
  | [], _ => []
  | _ :: rest, O => v :: rest
  | a :: rest, S n' => a :: set_nth n' v rest
  end.

(** The body of the inner loop of [checkCollisions], at indices [i < j]. *)
Definition checkPair (i j : nat) (st : Bodies * list Notification)
  : Bodies * list Notification :=
  let '(bodyArray, fired) := st in
  match nth_error bodyArray i, nth_error bodyArray j with
  | Some bodyA, Some bodyB =>
      if checkCollision bodyA bodyB then
        let '(bodyA', bodyB', fired') := resolveCollision bodyA bodyB in
        (set_nth j bodyB' (set_nth i bodyA' bodyArray), fired ++ fired')
      else st
  | _, _ => st
  end.

(** [checkCollisions]: every pair [i < j] once, in index order.  The array
    holds references to the bodies of the Map, so what the loop writes is
    what the Map holds afterwards. *)
Definition checkCollisions (bs : Bodies) : Bodies * list Notification :=
  let n := List.length bs in
  fold_left
    (fun st i =>
       fold_left (fun st j => checkPair i j st) (seq (S i) (n - S i)) st)
    (seq 0 n) (bs, []).

(** [cleanupCollisions]: each body keeps the ids it still overlaps. *)
Definition stillColliding (bs : Bodies) (body : Body.t) : list string :=
  filter
    (fun otherId =>
       match getBody otherId bs with
       | Some otherBody => checkCollision body otherBody
       | None => false
       end)
    (Body.collidingWith body).

Definition collisionExits (bs : Bodies) (body : Body.t) : list Notification :=
  if Body.onCollisionExit body then
    map (CollisionExit (Body.id body))
      (filter (fun otherId => negb (has otherId (stillColliding bs body)))
         (Body.collidingWith body))
  else [].

Definition cleanupCollisions (bs : Bodies) : Bodies * list Notification :=
  (map (fun body => Body.set_collidingWith (stillColliding bs body) body) bs,
   flat_map (collisionExits bs) bs).

Definition applyForce (id : string) (forceX forceY : Q) (bs : Bodies)
  : Bodies :=
  match getBody id bs with
  | Some body =>
      if Body.isStatic body then bs
      else
        modBody id
          (fun b =>
             Body.set_vy (Body.vy b + forceY / Body.mass b)
               (Body.set_vx (Body.vx b + forceX / Body.mass b) b))
          bs
  | None => bs
  end.

Definition applyImpulse (id : string) (impulseX impulseY : Q) (bs : Bodies)
  : Bodies :=
  match getBody id bs with
  | Some body =>
      if Body.isStatic body then bs
      else
        modBody id
          (fun b =>
             Body.set_vy (Body.vy b + impulseY)
               (Body.set_vx (Body.vx b + impulseX) b))
          bs
  | None => bs
  end.

Definition setVelocity (id : string) (vx vy : Q) (bs : Bodies) : Bodies :=
  match getBody id bs with
  | Some body =>
      if Body.isStatic body then bs
      else modBody id (fun b => Body.set_vy vy (Body.set_vx vx b)) bs
  | None => bs
  end.

(** The test of [getBodiesInRadius] on one body: the centre of the body lies
    within [radius] of [(x, y)], decided on the squares as [sqrt_leb] does. *)
Definition inRadius (x y radius : Q) (body : Body.t) : bool :=
  let bodyX := Body.x body + Body.width body / 2 in
  let bodyY := Body.y body + Body.height body / 2 in
  sqrt_leb ((bodyX - x) * (bodyX - x) + (bodyY - y) * (bodyY - y)) radius.

(** [layer && body.layer !== layer]: no filter when [layer] is null or the
    empty string. *)
Definition layerExcludes (layer : option string) (body : Body.t) : bool :=
  match layer with
  | Some l =>
      negb (String.eqb l "") && negb (String.eqb (Body.layer body) l)
  | None => false
  end.

Definition getBodiesInRadius (x y radius : Q) (layer : option string)
  (bs : Bodies) : list Body.t :=
  filter
    (fun body => negb (layerExcludes layer body) && inRadius x y radius body)
    bs.

Section Step.

(** [Math.pow] on a fractional exponent has no rational value in general;
    the step is stated for any function in its place. *)
Variable pow : Q -> Q -> Q.

Definition updateBody (gravity deltaTime : Q) (body : Body.t) : Body.t :=
  if Body.isStatic body then body
  else
    let body := Body.set_lastPosition (Body.x body, Body.y body) body in
    let body :=
      if negb (Body.grounded body) && (0 <? Body.mass body)
      then Body.set_vy (Body.vy body + gravity * deltaTime) body
      else body in
    let body :=
      Body.set_vx (Body.vx body * pow (Body.friction body) deltaTime) body in
    let body := Body.set_x (Body.x body + Body.vx body * deltaTime) body in
    let body := Body.set_y (Body.y body + Body.vy body * deltaTime) body in
    let body := constrainToArena body in
    Body.set_grounded false body.

(** [PhysicsEngine.update]: every body is advanced, then every pair is
    checked.  [cleanupCollisions] is not part of it.  The bodies returned
    are what the engine itself wrote; they are the Map after the update when
    the list of calls returned beside them is empty, and otherwise the Map
    less what the callbacks removed. *)
Definition PhysicsEngine_update (gravity deltaTime : Q) (bs : Bodies)
  : Bodies * list Notification :=
  checkCollisions (map (updateBody gravity deltaTime) bs).

End Step.

(** * Game objects and the world

    The engines are global singletons; [World.t] holds the state of all of
    them.  A character is registered in [gameObjects] under its id
    ([startBattle] registers ["player"] and ["opponent"] so), and the body
    that [createPhysicsBody] registers in the engine under that id is the
    object [this.physicsBody] refers to.  A method takes the key [self] of
    its receiver and the world, and returns the world. *)

(** The object built by [createProjectile] (part_000:760). *)
Module Projectile.
Record t : Type := mk {
  x : Q; y : Q; vx : Q; vy : Q; size : Q; damage : Q;
  owner : string;
  life : Q
}.
End Projectile.

(** What [gameEngine.gameObjects] holds.  The arena object is not
    embedded: its state is a type parameter. *)
Inductive GameObject (Arena : Type) : Type :=
| GCharacter (c : Char.t)
| GProjectile (p : Projectile.t)
| GArena (a : Arena).

Arguments GCharacter {Arena} c.
Arguments GProjectile {Arena} p.
Arguments GArena {Arena} a.

(** [gameState.winner]: ['player'], ['opponent'] or ['draw']. *)
Module Winner.
Inductive t : Type := player | opponent | draw.
End Winner.

(** [battleResult]: ['victory'], ['defeat'] or ['draw']. *)
Inductive BattleResult : Type := victory | defeat | draw.

Module GameState.
Record t : Type := mk {
  isPlaying : bool;
  isPaused : bool;
  timeRemaining : Q;
  winner : option Winner.t
}.
End GameState.

(** The fields of [battleSystem] the match outcome depends on;
    [completed] lists the ['battleComplete'] events dispatched so far. *)
Module Battle.
Record t : Type := mk {
  isActive : bool;
  battleResult : option BattleResult;
  playerDamageDealt : Q;
  playerHitsLanded : nat;
  opponentDamageDealt : Q;
  opponentHitsLanded : nat;
  completed : list BattleResult
}.
End Battle.

(** A callback handed to [setTimeout]. *)
Inductive TimeoutAction : Type :=
| EndAttack (who : string)
| EndDash (who : string)
| EndRage (who : string)
| ShowVictoryScreen (result : BattleResult).

Module World.
Record t (Arena : Type) : Type := mk {
  gravity : Q;                                  (* physicsEngine.gravity *)
  bodies : Bodies;                              (* physicsEngine.bodies *)
  gameObjects : list (string * GameObject Arena);
  isRunning : bool;
  lastTime : Q;
  gameState : GameState.t;
  battle : Battle.t;
  timeouts : list (Q * TimeoutAction)           (* delay in ms, callback *)
}.

Arguments mk {Arena}.
Arguments gravity {Arena}.
Arguments bodies {Arena}.
Arguments gameObjects {Arena}.
Arguments isRunning {Arena}.
Arguments lastTime {Arena}.
Arguments gameState {Arena}.
Arguments battle {Arena}.
Arguments timeouts {Arena}.

Section Setters.
Context {Arena : Type}.

Definition set_bodies (v : Bodies) (w : t Arena) : t Arena :=
  mk (gravity w) v (gameObjects w) (isRunning w) (lastTime w) (gameState w)
    (battle w) (timeouts w).
Definition set_gameObjects (v : list (string * GameObject Arena))
  (w : t Arena) : t Arena :=
  mk (gravity w) (bodies w) v (isRunning w) (lastTime w) (gameState w)
    (battle w) (timeouts w).
Definition set_isRunning (v : bool) (w : t Arena) : t Arena :=
  mk (gravity w) (bodies w) (gameObjects w) v (lastTime w) (gameState w)
    (battle w) (timeouts w).
Definition set_lastTime (v : Q) (w : t Arena) : t Arena :=
  mk (gravity w) (bodies w) (gameObjects w) (isRunning w) v (gameState w)
    (battle w) (timeouts w).
Definition set_gameState (v : GameState.t) (w : t Arena) : t Arena :=
  mk (gravity w) (bodies w) (gameObjects w) (isRunning w) (lastTime w) v
    (battle w) (timeouts w).
Definition set_battle (v : Battle.t) (w : t Arena) : t Arena :=
  mk (gravity w) (bodies w) (gameObjects w) (isRunning w) (lastTime w)
    (gameState w) v (timeouts w).
Definition set_timeouts (v : list (Q * TimeoutAction)) (w : t Arena)
  : t Arena :=
  mk (gravity w) (bodies w) (gameObjects w) (isRunning w) (lastTime w)
    (gameState w) (battle w) v.

End Setters.
End World.

(** ** Construction of a character *)

Definition baseLightAttack : Ability.t :=
  Ability.mk gameConfig.attackDamage_light 50 0.5 (Some 100) None false false.
Definition baseBlock : Block.t :=
  Block.mk gameConfig.blockReduction gameConfig.blockCooldown.
Definition baseDash : Dash.t :=
  Dash.mk gameConfig.dashSpeed gameConfig.dashDuration gameConfig.dashCooldown.

Definition getDefaultAbilities (type : CharType) : Abilities.t :=
  match type with
  | ninja =>
      Abilities.mk
        (Ability.mk 12 50 0.3 (Some 100) None false false) None
        baseBlock (Dash.mk gameConfig.dashSpeed gameConfig.dashDuration 1.5)
        (Some (Ability.mk 20 80 3 None None true false)) None None None
  | knight =>
      Abilities.mk
        (Ability.mk 20 50 0.5 (Some 150) None false false) None
        (Block.mk 0.7 gameConfig.blockCooldown) baseDash
        None (Some (Ability.mk 15 40 2 None (Some 1) false false)) None None
  | mage =>
      Abilities.mk
        (Ability.mk 18 70 0.5 (Some 100) None false false) None
        baseBlock baseDash
        None None (Some (Ability.mk 25 120 2.5 None None false true)) None
  | berserker =>
      Abilities.mk
        (Ability.mk 25 50 0.6 (Some 100) None false false) None
        baseBlock baseDash
        None None None (Some (Rage.mk 5 15 1.5 1.3))
  | base =>
      Abilities.mk baseLightAttack None baseBlock baseDash None None None None
  end.

Module CharConfig.
Record t : Type := mk {
  type : option CharType;
  x : option Q; y : option Q; width : option Q; height : option Q;
  maxHealth : option Q; speed : option Q; attackDamage : option Q;
  attackRange : option Q; defense : option Q;
  abilities : option Abilities.t
}.
End CharConfig.

(** The field initialisation of the constructor (part_000:7). *)
Definition Character_new (id : string) (config : CharConfig.t) : Char.t :=
  let type :=
    match CharConfig.type config with Some t => t | None => base end in
  let maxHealth := orDefault (CharConfig.maxHealth config)
                     gameConfig.maxHealth in
  Char.mk id type
    (orDefault (CharConfig.x config) 0) (orDefault (CharConfig.y config) 0)
    (orDefault (CharConfig.width config) 40)
    (orDefault (CharConfig.height config) 60)
    0 0
    maxHealth maxHealth
    (orDefault (CharConfig.speed config) gameConfig.moveSpeed)
    (orDefault (CharConfig.attackDamage config) gameConfig.attackDamage_light)
    (orDefault (CharConfig.attackRange config) 50)
    (orDefault (CharConfig.defense config) 0)
    true false false false false false false
    0 0 0 0 0
    (Animation.mk Animation.idle 0 0 8)
    (match CharConfig.abilities config with
     | Some a => a
     | None => getDefaultAbilities type
     end)
    false 0 0.

Section Game.

Context {Arena : Type}.

Abbreviation World := (World.t Arena).

(** ** [GameEngine]: the object table *)

Definition getGameObject (id : string) (w : World)
  : option (GameObject Arena) :=
  match find (fun kv => String.eqb (fst kv) id) (World.gameObjects w) with
  | Some kv => Some (snd kv)
  | None => None
  end.

(** [gameObjects.set(id, obj)]. *)
Fixpoint mapSet (id : string) (obj : GameObject Arena)
  (objs : list (string * GameObject Arena))
  : list (string * GameObject Arena) :=
  match objs with
  | [] => [(id, obj)]
  | kv :: rest =>
      if String.eqb (fst kv) id then (id, obj) :: rest
      else kv :: mapSet id obj rest
  end.

Definition addGameObject (id : string) (obj : GameObject Arena) (w : World)
  : World :=
  World.set_gameObjects (mapSet id obj (World.gameObjects w)) w.

(** The [Character] registered under [id], if any. *)
Definition getCharacter (id : string) (w : World) : option Char.t :=
  match getGameObject id w with
  | Some (GCharacter c) => Some c
  | _ => None
  end.

(** A write to the fields of the object registered under [id]. *)
Definition setCharacter (id : string) (c : Char.t) (w : World) : World :=
  World.set_gameObjects
    (map (fun kv => if String.eqb (fst kv) id then (fst kv, GCharacter c)
                    else kv)
       (World.gameObjects w))
    w.

(** A method call on the character registered under [self] that touches
    nothing but the character's own fields. *)
Definition call (self : string) (method : Char.t -> Char.t) (w : World)
  : World :=
  match getCharacter self w with
  | Some c => setCharacter self (method c) w
  | None => w
  end.

Definition setTimeout (action : TimeoutAction) (delay : Q) (w : World)
  : World :=
  World.set_timeouts (World.timeouts w ++ [(delay, action)]) w.

(** ** [BattleSystem]: the listeners of the character events *)

Definition GameEngine_stop (w : World) : World :=
  let gs := World.gameState w in
  World.set_gameState
    (GameState.mk false (GameState.isPaused gs) (GameState.timeRemaining gs)
       (GameState.winner gs))
    (World.set_isRunning false w).

(** [BattleSystem.endBattle] (battle-system.js:376).  Rewards and the
    victory screen are the progression layer's; the AI interval is not
    embedded. *)
Definition BattleSystem_endBattle (result : BattleResult) (w : World)
  : World :=
  let b := World.battle w in
  if negb (Battle.isActive b) then w
  else
    let w :=
      World.set_battle
        (Battle.mk false (Some result) (Battle.playerDamageDealt b)
           (Battle.playerHitsLanded b) (Battle.opponentDamageDealt b)
           (Battle.opponentHitsLanded b) (Battle.completed b))
        w in
    let w := GameEngine_stop w in
    let w := setTimeout (ShowVictoryScreen result) 1000 w in
    let b := World.battle w in
    World.set_battle
      (Battle.mk (Battle.isActive b) (Battle.battleResult b)
         (Battle.playerDamageDealt b) (Battle.playerHitsLanded b)
         (Battle.opponentDamageDealt b) (Battle.opponentHitsLanded b)
         (Battle.completed b ++ [result]))
      w.

(** [handleCharacterDamaged]: [battleSystem.player] and
    [battleSystem.opponent] are the objects registered as ["player"] and
    ["opponent"]. *)
Definition BattleSystem_handleCharacterDamaged (character : string)
  (damage : Q) (attacker : option string) (w : World) : World :=
  let b := World.battle w in
  if negb (Battle.isActive b) then w
  else
    let isOpponent (o : option string) :=
      match o with Some a => String.eqb a "opponent" | None => false end in
    let isPlayer (o : option string) :=
      match o with Some a => String.eqb a "player" | None => false end in
    if String.eqb character "player" && isOpponent attacker then
      World.set_battle
        (Battle.mk (Battle.isActive b) (Battle.battleResult b)
           (Battle.playerDamageDealt b) (Battle.playerHitsLanded b)
           (Battle.opponentDamageDealt b + damage)
           (S (Battle.opponentHitsLanded b)) (Battle.completed b))
        w
    else if String.eqb character "opponent" && isPlayer attacker then
      World.set_battle
        (Battle.mk (Battle.isActive b) (Battle.battleResult b)
           (Battle.playerDamageDealt b + damage)
           (S (Battle.playerHitsLanded b)) (Battle.opponentDamageDealt b)
           (Battle.opponentHitsLanded b) (Battle.completed b))
        w
    else w.

Definition BattleSystem_handleCharacterDeath (character : string)
  (w : World) : World :=
  if negb (Battle.isActive (World.battle w)) then w
  else if String.eqb character "player" then BattleSystem_endBattle defeat w
  else if String.eqb character "opponent"
       then BattleSystem_endBattle victory w
  else w.

(** [handleBattleEnd] (battle-system.js:359), on the ['battleEnd'] event. *)
Definition BattleSystem_handleBattleEnd (winner : option Winner.t)
  (w : World) : World :=
  if negb (Battle.isActive (World.battle w)) then w
  else
    match winner with
    | Some Winner.player => BattleSystem_endBattle victory w
    | Some Winner.opponent => BattleSystem_endBattle defeat w
    | _ => BattleSystem_endBattle draw w
    end.

(** ** [Character]: the combat state machine (part_000) *)

Definition anim_eqb (a b : Animation.name) : bool :=
  match a, b with
  | Animation.idle, Animation.idle
  | Animation.run, Animation.run
  | Animation.attack, Animation.attack
  | Animation.block, Animation.block
  | Animation.dash, Animation.dash
  | Animation.hurt, Animation.hurt
  | Animation.death, Animation.death => true
  | _, _ => false
  end.

Definition Character_setAnimation (animationName : Animation.name)
  (c : Char.t) : Char.t :=
  if negb (anim_eqb (Animation.current (Char.animation c)) animationName)
  then
    Char.set_animation
      (Animation.mk animationName 0 0 (Animation.speed (Char.animation c)))
      c
  else c.

(** [getAnimationData]: number of frames, and whether the animation loops. *)
Definition getAnimationData (animationName : Animation.name) : nat * bool :=
  match animationName with
  | Animation.idle => (4%nat, true)
  | Animation.run => (6%nat, true)
  | Animation.attack => (4%nat, false)
  | Animation.block => (1%nat, true)
  | Animation.dash => (3%nat, false)
  | Animation.hurt => (2%nat, false)
  | Animation.death => (5%nat, false)
  end.

(** [updateTimers] (part_000:192): each timer less the tick, clamped at 0.
    The subtractions are exact here and rounded in the program, so what a
    timer holds after several ticks agrees with the program up to that
    rounding. *)
Definition Character_updateTimers (deltaTime : Q) (c : Char.t) : Char.t :=
  let c := Char.set_attackCooldown
             (Qmax 0 (Char.attackCooldown c - deltaTime)) c in
  let c := Char.set_blockCooldown
             (Qmax 0 (Char.blockCooldown c - deltaTime)) c in
  let c := Char.set_dashCooldown
             (Qmax 0 (Char.dashCooldown c - deltaTime)) c in
  let c := Char.set_stunDuration
             (Qmax 0 (Char.stunDuration c - deltaTime)) c in
  let c := Char.set_invulnerabilityTime
             (Qmax 0 (Char.invulnerabilityTime c - deltaTime)) c in
  if Char.stunDuration c <=? 0 then Char.set_isStunned false c else c.

Definition Character_updateAnimation (deltaTime : Q) (c : Char.t) : Char.t :=
  let a := Char.animation c in
  let a := Animation.mk (Animation.current a) (Animation.frame a)
             (Animation.timer a + deltaTime) (Animation.speed a) in
  let c := Char.set_animation a c in
  let frameTime := 1 / Animation.speed a in
  let c :=
    if frameTime <=? Animation.timer a then
      let a := Animation.mk (Animation.current a) (S (Animation.frame a)) 0
                 (Animation.speed a) in
      let c := Char.set_animation a c in
      let '(frames, loop) := getAnimationData (Animation.current a) in
      if (frames <=? Animation.frame a)%nat then
        if loop then
          Char.set_animation
            (Animation.mk (Animation.current a) 0 (Animation.timer a)
               (Animation.speed a))
            c
        else Character_setAnimation Animation.idle c
      else c
    else c in
  if negb (Char.isAttacking c) && negb (Char.isDashing c) then
    if 10 <? Qabs (Char.vx c) then Character_setAnimation Animation.run c
    else Character_setAnimation Animation.idle c
  else c.

(** [updatePosition]: the character's copy of its body's state. *)
Definition Character_updatePosition (physicsBody : option Body.t)
  (c : Char.t) : Char.t :=
  match physicsBody with
  | Some body =>
      Char.set_isGrounded (Body.grounded body)
        (Char.set_vy (Body.vy body)
           (Char.set_vx (Body.vx body)
              (Char.set_y (Body.y body) (Char.set_x (Body.x body) c))))
  | None => c
  end.

Definition Character_updateRage (deltaTime : Q) (c : Char.t) : Char.t :=
  let c :=
    if 0 <? Char.rageDuration c
    then Char.set_rageDuration (Char.rageDuration c - deltaTime) c else c in
  if 0 <? Char.rageCooldown c
  then Char.set_rageCooldown (Char.rageCooldown c - deltaTime) c else c.

Definition Character_updateAbilities (deltaTime : Q) (c : Char.t) : Char.t :=
  match Char.type c with
  | berserker => Character_updateRage deltaTime c
  | _ => c
  end.

Definition Character_getDamageMultiplier (c : Char.t) : Q :=
  match Char.type c, Char.rageActive c, Abilities.rage (Char.abilities c) with
  | berserker, true, Some r => 1 * Rage.damageMultiplier r
  | _, _, _ => 1
  end.

Definition Character_getSpeedMultiplier (c : Char.t) : Q :=
  match Char.type c, Char.rageActive c, Abilities.rage (Char.abilities c) with
  | berserker, true, Some r => 1 * Rage.speedMultiplier r
  | _, _, _ => 1
  end.

(** The body created for the character at construction, registered in the
    engine under the character's id, is what [this.physicsBody] refers to. *)
Definition physicsBody (c : Char.t) (w : World) : option Body.t :=
  getBody (Char.id c) (World.bodies w).

Definition writePhysicsBody (c : Char.t) (f : Body.t -> Body.t) (w : World)
  : World :=
  World.set_bodies (modBody (Char.id c) f (World.bodies w)) w.

(** [takeDamage] (part_000:438); [attacker] is [null] for hazards. *)
Definition Character_takeDamage (self : string) (amount : Q)
  (attacker : option string) (w : World) : World :=
  match getCharacter self w with
  | Some c =>
      if (0 <? Char.invulnerabilityTime c) || Char.isDead c then w
      else
        let c := Char.set_health (Qmax 0 (Char.health c - amount)) c in
        let c := Char.set_invulnerabilityTime 0.2 c in
        let c := Character_setAnimation Animation.hurt c in
        BattleSystem_handleCharacterDamaged self amount attacker
          (setCharacter self c w)
  | None => w
  end.

Definition Character_heal (amount : Q) (c : Char.t) : Char.t :=
  if Char.isDead c then c
  else Char.set_health (Qmin (Char.maxHealth c) (Char.health c + amount)) c.

Definition Character_startBlock (c : Char.t) : bool * Char.t :=
  if (0 <? Char.blockCooldown c) || Char.isStunned c || Char.isDead c
  then (false, c)
  else
    (true, Character_setAnimation Animation.block (Char.set_isBlocking true c)).

Definition Character_stopBlock (c : Char.t) : Char.t :=
  Char.set_blockCooldown (Block.cooldown (Abilities.block (Char.abilities c)))
    (Char.set_isBlocking false c).

Definition Character_stun (self : string) (duration : Q) (w : World)
  : World :=
  match getCharacter self w with
  | Some c =>
      let c := Char.set_stunDuration duration (Char.set_isStunned true c) in
      writePhysicsBody c (fun b => Body.set_vx (Body.vx b * 0.1) b)
        (setCharacter self c w)
  | None => w
  end.

Definition Character_die (self : string) (w : World) : World :=
  match getCharacter self w with
  | Some c =>
      let c := Char.set_health 0 (Char.set_isDead true c) in
      let c := Character_setAnimation Animation.death c in
      let w := setCharacter self c w in
      let w :=
        writePhysicsBody c (fun b => Body.set_vy 0 (Body.set_vx 0 b)) w in
      BattleSystem_handleCharacterDeath self w
  | None => w
  end.

(** [update] (part_000:167), the character's share of a tick. *)
Definition Character_update (self : string) (deltaTime : Q) (w : World)
  : World :=
  match getCharacter self w with
  | Some c =>
      if Char.isDead c then w
      else
        let c := Character_updateTimers deltaTime c in
        let c := Character_updateAnimation deltaTime c in
        let c := Character_updatePosition (physicsBody c w) c in
        let c := Character_updateAbilities deltaTime c in
        let w := setCharacter self c w in
        if (Char.health c <=? 0) && negb (Char.isDead c)
        then Character_die self w else w
  | None => w
  end.

Definition Character_move (self : string) (deltaX deltaY : Q) (w : World)
  : World :=
  match getCharacter self w with
  | Some c =>
      if Char.isStunned c || Char.isDashing c || Char.isDead c then w
      else
        let moveSpeed := Char.speed c * Character_getSpeedMultiplier c in
        let w := writePhysicsBody c (Body.set_vx (deltaX * moveSpeed)) w in
        let c :=
          if 0.1 <? deltaX then Char.set_facingRight true c
          else if deltaX <? -0.1 then Char.set_facingRight false c
          else c in
        setCharacter self c w
  | None => w
  end.

(** [dealDamage] (part_000:405): [self] attacks [target]. *)
Definition Character_dealDamage (self target : string)
  (ability : Ability.t) (w : World) : World :=
  match getCharacter self w, getCharacter target w with
  | Some this, Some tgt =>
      if 0 <? Char.invulnerabilityTime tgt then w
      else
        let damage :=
          Ability.damage ability * Character_getDamageMultiplier this in
        let damage :=
          if Char.isBlocking tgt then
            damage * (1 - Block.reduction (Abilities.block (Char.abilities tgt)))
          else damage in
        let damage := Qmax 1 (damage - Char.defense tgt) in
        let w := Character_takeDamage target damage (Some self) w in
        let blocking :=
          match getCharacter target w with
          | Some t => Char.isBlocking t
          | None => false
          end in
        let w :=
          match Ability.knockback ability with
          | Some knockback =>
              if truthy knockback && negb blocking then
                let knockbackX :=
                  if Char.facingRight this then knockback else - knockback in
                World.set_bodies
                  (applyImpulse (Char.id tgt) knockbackX (-50)
                     (World.bodies w))
                  w
              else w
          | None => w
          end in
        match Ability.stun ability with
        | Some duration =>
            if truthy duration then Character_stun target duration w else w
        | None => w
        end
  | _, _ => w
  end.

(** The hit-test window of [attack]: its left edge, top edge, width and
    height. *)
Definition attackHitbox (c : Char.t) (ability : Ability.t) : Q * Q * Q * Q :=
  let attackX :=
    if Char.facingRight c then Char.x c + Char.width c
    else Char.x c - Ability.range ability in
  (attackX, Char.y c, Ability.range ability, Char.height c).

(** The bodies [attack] asks the engine for. *)
Definition attackTargets (c : Char.t) (ability : Ability.t) (bs : Bodies)
  : list Body.t :=
  let '(attackX, attackY, attackWidth, attackHeight) :=
    attackHitbox c ability in
  getBodiesInRadius (attackX + attackWidth / 2) (attackY + attackHeight / 2)
    (Ability.range ability / 2) (Some "character"%string) bs.

(** [attack] (part_000:364).  A character is registered under its id, so
    [character !== this] compares the ids. *)
Definition Character_attack (self : string) (ability : Ability.t)
  (w : World) : World :=
  match getCharacter self w with
  | Some c =>
      let c :=
        Character_setAnimation Animation.attack
          (Char.set_isAttacking true c) in
      let w := setCharacter self c w in
      let targets := attackTargets c ability (World.bodies w) in
      let w :=
        fold_left
          (fun w target =>
             match getCharacter (Body.id target) w with
             | Some _ =>
                 if negb (String.eqb (Body.id target) self)
                 then Character_dealDamage self (Body.id target) ability w
                 else w
             | None => w
             end)
          targets w in
      setTimeout (EndAttack self) 400 w
  | None => w
  end.

Definition Character_lightAttack (self : string) (w : World)
  : bool * World :=
  match getCharacter self w with
  | Some c =>
      if (0 <? Char.attackCooldown c) || Char.isStunned c || Char.isDead c
      then (false, w)
      else
        let ability := Abilities.lightAttack (Char.abilities c) in
        let w := Character_attack self ability w in
        (true, call self (Char.set_attackCooldown (Ability.cooldown ability)) w)
  | None => (false, w)
  end.

Definition Character_heavyAttack (self : string) (w : World)
  : bool * World :=
  match getCharacter self w with
  | Some c =>
      if (0 <? Char.attackCooldown c) || Char.isStunned c || Char.isDead c
      then (false, w)
      else
        let ability :=
          match Abilities.heavyAttack (Char.abilities c) with
          | Some a => a
          | None => Abilities.lightAttack (Char.abilities c)
          end in
        let w :=
          Character_attack self
            (Ability.mk (Ability.damage ability * 1.5) (Ability.range ability)
               (Ability.cooldown ability * 2) (Ability.knockback ability)
               (Ability.stun ability) (Ability.teleport ability)
               (Ability.projectile ability))
            w in
        (true,
         call self (Char.set_attackCooldown (Ability.cooldown ability * 2)) w)
  | None => (false, w)
  end.

(** The first live character other than [self], in registration order. *)
Definition firstEnemy (self : string) (w : World) : option Char.t :=
  match
    filter
      (fun kv =>
         match snd kv with
         | GCharacter e => negb (String.eqb (fst kv) self)
                           && negb (Char.isDead e)
         | _ => false
         end)
      (World.gameObjects w)
  with
  | (_, GCharacter e) :: _ => Some e
  | _ => None
  end.

Definition Character_shadowStrike (self : string) (w : World)
  : bool * World :=
  match getCharacter self w with
  | Some c =>
      match Abilities.shadowStrike (Char.abilities c) with
      | Some ability =>
          if 0 <? Char.attackCooldown c then (false, w)
          else
            match firstEnemy self w with
            | Some target =>
                let w :=
                  if Ability.teleport ability then
                    let c :=
                      Char.set_y (Char.y target)
                        (Char.set_x
                           (Char.x target
                            + (if Char.facingRight c then -60 else 60))
                           c) in
                    writePhysicsBody c
                      (fun b => Body.set_y (Char.y c)
                                  (Body.set_x (Char.x c) b))
                      (setCharacter self c w)
                  else w in
                let w := Character_attack self ability w in
                (true,
                 call self
                   (Char.set_attackCooldown (Ability.cooldown ability)) w)
            | None => (false, w)
            end
      | None => (false, w)
      end
  | None => (false, w)
  end.

Definition Character_shieldBash (self : string) (w : World)
  : bool * World :=
  match getCharacter self w with
  | Some c =>
      match Abilities.shieldBash (Char.abilities c) with
      | Some ability =>
          if 0 <? Char.attackCooldown c then (false, w)
          else
            let w := Character_attack self ability w in
            (true,
             call self (Char.set_attackCooldown (Ability.cooldown ability)) w)
      | None => (false, w)
      end
  | None => (false, w)
  end.

(** The key [`projectile_${Date.now()}`]; [now] is the clock reading. *)
Definition projectileKey (now : Z) : string :=
  ("projectile_" ++ NilZero.string_of_int (Z.to_int now))%string.

Definition Character_createProjectile (c : Char.t) (ability : Ability.t)
  (now : Z) (w : World) : World :=
  addGameObject (projectileKey now)
    (GProjectile
       (Projectile.mk
          (Char.x c + (if Char.facingRight c then Char.width c else 0))
          (Char.y c + Char.height c / 2)
          ((if Char.facingRight c then 1 else -1) * 300)
          0 8 (Ability.damage ability) (Char.id c) 2))
    w.

Definition Character_fireball (self : string) (now : Z) (w : World)
  : bool * World :=
  match getCharacter self w with
  | Some c =>
      match Abilities.fireball (Char.abilities c) with
      | Some ability =>
          if 0 <? Char.attackCooldown c then (false, w)
          else
            let w := Character_createProjectile c ability now w in
            (true,
             call self (Char.set_attackCooldown (Ability.cooldown ability)) w)
      | None => (false, w)
      end
  | None => (false, w)
  end.

Definition Character_rage (self : string) (w : World) : bool * World :=
  match getCharacter self w with
  | Some c =>
      match Abilities.rage (Char.abilities c) with
      | Some ability =>
          if Char.rageActive c || (0 <? Char.rageCooldown c) then (false, w)
          else
            let c :=
              Char.set_rageCooldown (Rage.cooldown ability)
                (Char.set_rageDuration (Rage.duration ability)
                   (Char.set_rageActive true c)) in
            (true,
             setTimeout (EndRage self) (Rage.duration ability * 1000)
               (setCharacter self c w))
      | None => (false, w)
      end
  | None => (false, w)
  end.

(** [specialAttack] (part_000:343); [now] is read by the mage's fireball. *)
Definition Character_specialAttack (self : string) (now : Z) (w : World)
  : bool * World :=
  match getCharacter self w with
  | Some c =>
      if Char.isStunned c || Char.isDead c then (false, w)
      else
        match Char.type c with
        | ninja => Character_shadowStrike self w
        | knight => Character_shieldBash self w
        | mage => Character_fireball self now w
        | berserker => Character_rage self w
        | base => Character_lightAttack self w
        end
  | None => (false, w)
  end.

Definition Character_dash (self : string) (directionX directionY : Q)
  (w : World) : bool * World :=
  match getCharacter self w with
  | Some c =>
      if (0 <? Char.dashCooldown c) || Char.isStunned c || Char.isDead c
      then (false, w)
      else
        let c :=
          Character_setAnimation Animation.dash (Char.set_isDashing true c) in
        let ability := Abilities.dash (Char.abilities c) in
        let dashSpeed := Dash.speed ability * Character_getSpeedMultiplier c in
        let w :=
          World.set_bodies
            (setVelocity (Char.id c) (directionX * dashSpeed)
               (directionY * dashSpeed * 0.5) (World.bodies w))
            (setCharacter self c w) in
        let w := call self (Char.set_dashCooldown (Dash.cooldown ability)) w in
        (true, setTimeout (EndDash self) (Dash.duration ability * 1000) w)
  | None => (false, w)
  end.

(** [handleCollision]: the character's [onCollisionEnter] callback. *)
Definition Character_handleCollision (self : string) (other : Body.t)
  (w : World) : World :=
  if String.eqb (Body.layer other) "hazard"
  then Character_takeDamage self 10 None w else w.

(** What a pending timeout does when it runs. *)
Definition runTimeout (action : TimeoutAction) (w : World) : World :=
  match action with
  | EndAttack who => call who (Char.set_isAttacking false) w
  | EndDash who => call who (Char.set_isDashing false) w
  | EndRage who => call who (Char.set_rageActive false) w
  | ShowVictoryScreen _ => w
  end.

(** [createPhysicsBody] (part_000:148). *)
Definition Character_createPhysicsBody (c : Char.t) (w : World) : World :=
  World.set_bodies
    (setBody
       (createBody (Char.id c)
          (BodyConfig.mk (Some (Char.x c)) (Some (Char.y c))
             (Some (Char.width c)) (Some (Char.height c)) None None (Some 1)
             (Some 0.1) (Some 0.8) false false (Some "character"%string)
             None None true false true false))
       (World.bodies w))
    w.

(** [createCharacter] (part_000:980), called with a position only.  For a
    type outside the catalogue the source reads [typeData.name] of
    [undefined] and throws: [None]. *)
Definition CharacterSystem_createCharacter (id : string) (type : CharType)
  (x y : Q) (w : World) : option (Char.t * World) :=
  match type with
  | base => None
  | _ =>
      let c :=
        Character_new id
          (CharConfig.mk (Some type) (Some x) (Some y) None None None None
             None None None None) in
      Some (c, Character_createPhysicsBody c w)
  end.

(** ** [GameEngine]: the driving loop (js/app.js:1279) *)

(** The arena's methods are taken as given: [Arena.update] draws from
    [Math.random]. *)
Variable Arena_update : Q -> Arena -> World -> World.
Variable Arena_destroy : Arena -> World -> World.
Variable ArenaSystem_loadArena : World -> World.

Definition Character_destroy (c : Char.t) (w : World) : World :=
  World.set_bodies (removeBody (Char.id c) (World.bodies w)) w.

Definition removeGameObject (id : string) (w : World) : World :=
  let w :=
    match getGameObject id w with
    | Some (GCharacter c) => Character_destroy c w
    | Some (GArena a) => Arena_destroy a w
    | _ => w
    end in
  World.set_gameObjects
    (filter (fun kv => negb (String.eqb (fst kv) id)) (World.gameObjects w))
    w.

(** The [update] closure of a projectile (part_000:775), registered under
    [key]; [now] is the clock reading of its two [Date.now()] calls. *)
Definition Projectile_update (key : string) (p : Projectile.t)
  (dt : Q) (now : Z) (w : World) : World :=
  let p :=
    Projectile.mk (Projectile.x p + Projectile.vx p * dt)
      (Projectile.y p + Projectile.vy p * dt) (Projectile.vx p)
      (Projectile.vy p) (Projectile.size p) (Projectile.damage p)
      (Projectile.owner p) (Projectile.life p - dt) in
  let w :=
    World.set_gameObjects
      (map (fun kv => if String.eqb (fst kv) key then (fst kv, GProjectile p)
                      else kv)
         (World.gameObjects w))
      w in
  let w :=
    if Projectile.life p <=? 0 then removeGameObject (projectileKey now) w
    else w in
  let targets :=
    getBodiesInRadius (Projectile.x p) (Projectile.y p) (Projectile.size p)
      (Some "character"%string) (World.bodies w) in
  match
    find
      (fun target =>
         match getCharacter (Body.id target) w with
         | Some _ => negb (String.eqb (Body.id target) (Projectile.owner p))
         | None => false
         end)
      targets
  with
  | Some target =>
      removeGameObject (projectileKey now)
        (Character_takeDamage (Body.id target) (Projectile.damage p)
           (Some (Projectile.owner p)) w)
  | None => w
  end.

(** [endBattle] (js/app.js:1670): the winner by remaining health, then the
    ['battleEnd'] event. *)
Definition GameEngine_endBattle (w : World) : World :=
  let gs := World.gameState w in
  let winner :=
    match getGameObject "player" w, getGameObject "opponent" w with
    | Some (GCharacter player), Some (GCharacter opponent) =>
        if Char.health opponent <? Char.health player then Some Winner.player
        else if Char.health player <? Char.health opponent
             then Some Winner.opponent
        else Some Winner.draw
    | Some _, Some _ => Some Winner.draw     (* no [health] to compare *)
    | _, _ => GameState.winner gs
    end in
  let w :=
    World.set_gameState
      (GameState.mk false (GameState.isPaused gs) (GameState.timeRemaining gs)
         winner)
      w in
  BattleSystem_handleBattleEnd winner w.

(** One pass of the loop over [gameObjects] in [GameEngine.update]: the
    object currently registered under [key], if any, is updated.  A key
    deleted earlier in the same pass is skipped, as the Map iterator does. *)
Definition updateObject (deltaTime : Q) (now : Z) (w : World) (key : string)
  : World :=
  match getGameObject key w with
  | Some (GCharacter _) => Character_update key deltaTime w
  | Some (GProjectile p) => Projectile_update key p deltaTime now w
  | Some (GArena a) => Arena_update deltaTime a w
  | None => w
  end.

Definition updateGameObjects (deltaTime : Q) (now : Z) (w : World) : World :=
  fold_left (updateObject deltaTime now) (map fst (World.gameObjects w)) w.

(** The countdown at the end of [GameEngine.update] (js/app.js:1516). *)
Definition updateGameTimer (deltaTime : Q) (w : World) : World :=
  let gs := World.gameState w in
  if GameState.isPlaying gs && (0 <? GameState.timeRemaining gs) then
    let remaining := GameState.timeRemaining gs - deltaTime in
    if remaining <=? 0 then
      GameEngine_endBattle
        (World.set_gameState
           (GameState.mk (GameState.isPlaying gs) (GameState.isPaused gs) 0
              (GameState.winner gs))
           w)
    else
      World.set_gameState
        (GameState.mk (GameState.isPlaying gs) (GameState.isPaused gs)
           remaining (GameState.winner gs))
        w
  else w.

(** [GameEngine.update] (js/app.js:1494): the game objects in registration
    order, then the countdown.  Nothing here calls [PhysicsEngine.update]. *)
Definition GameEngine_update (deltaTime : Q) (now : Z) (w : World) : World :=
  updateGameTimer deltaTime (updateGameObjects deltaTime now w).

(** [gameLoop] (js/app.js:1463) at clock reading [currentTime] (ms). *)
Definition GameEngine_gameLoop (currentTime : Q) (now : Z) (w : World)
  : World :=
  if negb (World.isRunning w) then w
  else
    let deltaTime := (currentTime - World.lastTime w) / 1000 in
    let w := World.set_lastTime currentTime w in
    let deltaTime := Qmin deltaTime (1 / 30) in
    if negb (GameState.isPaused (World.gameState w))
    then GameEngine_update deltaTime now w
    else w.

Definition GameEngine_reset (w : World) : World :=
  World.set_gameState
    (GameState.mk false false gameConfig.battleDuration None)
    (World.set_gameObjects [] w).

(** [start] (js/app.js:1429) runs the first iteration itself; [t0] and [t1]
    are its two readings of [performance.now()]. *)
Definition GameEngine_start (t0 t1 : Q) (now : Z) (w : World) : World :=
  if World.isRunning w then w
  else
    let gs := World.gameState w in
    let w :=
      World.set_gameState
        (GameState.mk true (GameState.isPaused gs)
           (GameState.timeRemaining gs) (GameState.winner gs))
        (World.set_isRunning true w) in
    GameEngine_gameLoop t1 now (World.set_lastTime t0 w).

(** [startBattle] (battle-system.js:70), with both archetypes chosen.  The
    opponent's AI interval is not embedded.  [None] when a constructor
    throws. *)
Definition BattleSystem_startBattle (playerCharacter opponentCharacter
  : CharType) (t0 t1 : Q) (now : Z) (w : World) : option World :=
  let w :=
    World.set_battle (Battle.mk true None 0 0 0 0
                        (Battle.completed (World.battle w))) w in
  let w := ArenaSystem_loadArena w in
  match
    CharacterSystem_createCharacter "player" playerCharacter 150
      (gameConfig.arenaHeight - 200) w
  with
  | Some (thePlayer, w) =>
      match
        CharacterSystem_createCharacter "opponent" opponentCharacter
          (gameConfig.arenaWidth - 190) (gameConfig.arenaHeight - 200) w
      with
      | Some (theOpponent, w) =>
          let w := GameEngine_reset w in
          let gs := World.gameState w in
          let w :=
            World.set_gameState
              (GameState.mk (GameState.isPlaying gs) (GameState.isPaused gs)
                 gameConfig.battleDuration (GameState.winner gs))
              w in
          let w := addGameObject "player" (GCharacter thePlayer) w in
          let w := addGameObject "opponent" (GCharacter theOpponent) w in
          Some (GameEngine_start t0 t1 now w)
      | None => None
      end
  | None => None
  end.

(** ** The tick as the specification words it

    "Hazard scheduler update, combat-state timer updates, engine step(dt),
    then orchestrator timer/victory checks", written out over the same
    world: the arena objects first, then the characters, then
    [PhysicsEngine.update] on the engine's bodies, then the countdown. *)
Variable pow : Q -> Q -> Q.

Definition isArena (o : GameObject Arena) : bool :=
  match o with GArena _ => true | _ => false end.

Definition spec_hazardUpdate (deltaTime : Q) (now : Z) (w : World) : World :=
  fold_left (updateObject deltaTime now)
    (map fst (filter (fun kv => isArena (snd kv)) (World.gameObjects w))) w.

Definition spec_combatUpdate (deltaTime : Q) (now : Z) (w : World) : World :=
  fold_left (updateObject deltaTime now)
    (map fst
       (filter (fun kv => negb (isArena (snd kv))) (World.gameObjects w)))
    w.

(** The callbacks of a step, run on the characters they belong to; a
    callback of another owner (a falling rock's) is the arena's and is not
    run. *)
Definition deliver (w : World) (n : Notification) : World :=
  match n with
  | CollisionEnter receiver other =>
      match getCharacter receiver w, getBody other (World.bodies w) with
      | Some _, Some otherBody =>
          Character_handleCollision receiver otherBody w
      | _, _ => w
      end
  | _ => w
  end.

Definition spec_engineStep (deltaTime : Q) (w : World) : World :=
  let '(bs, fired) :=
    PhysicsEngine_update pow (World.gravity w) deltaTime (World.bodies w) in
  fold_left deliver fired (World.set_bodies bs w).

Definition spec_tick (deltaTime : Q) (now : Z) (w : World) : World :=
  updateGameTimer deltaTime
    (spec_engineStep deltaTime
       (spec_combatUpdate deltaTime now
          (spec_hazardUpdate deltaTime now w))).

End Game.

(** * The rest of the engines

    The methods of the three classes that the tick does not go through:
    the engine's ray casts, the particle list, pausing, the player's input
    handlers and the rewards of a finished match. *)

(** ** [PhysicsEngine]: ray casts (js/app.js:1147) *)

(** [lineIntersectsLine]: the segments [(x1,y1)-(x2,y2)] and
    [(x3,y3)-(x4,y4)]; parallel segments never intersect. *)
Definition lineIntersectsLine (x1 y1 x2 y2 x3 y3 x4 y4 : Q) : bool :=
  let denominator := (x1 - x2) * (y3 - y4) - (y1 - y2) * (x3 - x4) in
  if Qeq_bool denominator 0 then false
  else
    let t :=
      ((x1 - x3) * (y3 - y4) - (y1 - y3) * (x3 - x4)) / denominator in
    let u :=
      (- ((x1 - x2) * (y1 - y3) - (y1 - y2) * (x1 - x3))) / denominator in
    (0 <=? t) && (t <=? 1) && (0 <=? u) && (u <=? 1).

(** [lineIntersectsRect]: the body's bounding box is tested, whatever its
    shape. *)
Definition lineIntersectsRect (x1 y1 x2 y2 : Q) (rect : Body.t) : bool :=
  let rectLeft := Body.x rect in
  let rectRight := Body.x rect + Body.width rect in
  let rectTop := Body.y rect in
  let rectBottom := Body.y rect + Body.height rect in
  if ((x1 <? rectLeft) && (x2 <? rectLeft))
     || ((rectRight <? x1) && (rectRight <? x2))
     || ((y1 <? rectTop) && (y2 <? rectTop))
     || ((rectBottom <? y1) && (rectBottom <? y2))
  then false
  else if ((rectLeft <=? x1) && (x1 <=? rectRight)
           && (rectTop <=? y1) && (y1 <=? rectBottom))
          || ((rectLeft <=? x2) && (x2 <=? rectRight)
              && (rectTop <=? y2) && (y2 <=? rectBottom))
  then true
  else
    lineIntersectsLine x1 y1 x2 y2 rectLeft rectTop rectRight rectTop
    || lineIntersectsLine x1 y1 x2 y2 rectRight rectTop rectRight rectBottom
    || lineIntersectsLine x1 y1 x2 y2 rectRight rectBottom rectLeft rectBottom
    || lineIntersectsLine x1 y1 x2 y2 rectLeft rectBottom rectLeft rectTop.

(** [getIntersectionPoint]: the middle of the ray; [rect] is not read. *)
Definition getIntersectionPoint (x1 y1 x2 y2 : Q) (rect : Body.t) : Q * Q :=
  ((x1 + x2) / 2, (y1 + y2) / 2).

(** [raycast]: the first body of the Map, in insertion order, that passes
    the layer filter and whose box the ray meets, with the point reported
    for it; [None] is [null]. *)
Definition raycast (startX startY endX endY : Q) (layer : option string)
  (bs : Bodies) : option (Body.t * (Q * Q)) :=
  match
    find
      (fun body =>
         negb (layerExcludes layer body)
         && lineIntersectsRect startX startY endX endY body)
      bs
  with
  | Some body =>
      Some (body, getIntersectionPoint startX startY endX endY body)
  | None => None
  end.

(** ** [GameEngine]: the particle list (js/app.js:1399, 1529)

    [gameEngine.particles] is read by the renderer only; it is kept apart
    from [World.t]. *)

Module Particle.
Record t : Type := mk {
  x : Q; y : Q; vx : Q; vy : Q;
  life : Q; maxLife : Q; size : Q;
  color : string; type : string;
  gravity : Q; friction : Q
}.
End Particle.

(** The [options] argument of [createParticle]; [None] is a property left
    out. *)
Module ParticleOptions.
Record t : Type := mk {
  vx : option Q; vy : option Q; life : option Q; size : option Q;
  color : option string; gravity : option Q; friction : option Q
}.
End ParticleOptions.

(** [createParticle]; [random1] and [random2] are what [Math.random()]
    returns where the initialisers of [vx] and [vy] call it. *)
Definition createParticle (x y : Q) (type : string)
  (options : ParticleOptions.t) (random1 random2 : Q)
  (particles : list Particle.t) : list Particle.t :=
  particles
  ++ [Particle.mk x y
        (orDefault (ParticleOptions.vx options) ((random1 - 0.5) * 200))
        (orDefault (ParticleOptions.vy options) ((random2 - 0.5) * 200))
        (orDefault (ParticleOptions.life options) 1)
        (orDefault (ParticleOptions.life options) 1)
        (orDefault (ParticleOptions.size options) 4)
        (match ParticleOptions.color options with
         | Some c => if String.eqb c "" then "#ff6b35"%string else c
         | None => "#ff6b35"%string
         end)
        type
        (orDefault (ParticleOptions.gravity options) 0)
        (orDefault (ParticleOptions.friction options) 0.98)].

(** What one iteration of the loop of [updateParticles] writes to its
    particle: the position with the old velocity, then gravity, friction
    and the remaining life. *)
Definition advanceParticle (deltaTime : Q) (particle : Particle.t)
  : Particle.t :=
  let x := Particle.x particle + Particle.vx particle * deltaTime in
  let y := Particle.y particle + Particle.vy particle * deltaTime in
  let vy := Particle.vy particle + Particle.gravity particle * deltaTime in
  let vx := Particle.vx particle * Particle.friction particle in
  let vy := vy * Particle.friction particle in
  Particle.mk x y vx vy (Particle.life particle - deltaTime)
    (Particle.maxLife particle) (Particle.size particle)
    (Particle.color particle) (Particle.type particle)
    (Particle.gravity particle) (Particle.friction particle).

(** [particles.splice(i, 1)]. *)
Fixpoint splice {A : Type} (i : nat) (l : list A) : list A :=
  match l, i with
  | [], _ => []
  | _ :: rest, O => rest
  | a :: rest, S i' => a :: splice i' rest
  end.

(** The loop of [updateParticles] from index [i - 1] down to [0]. *)
Fixpoint updateParticles_from (deltaTime : Q) (i : nat)
  (particles : list Particle.t) : list Particle.t :=
  match i with
  | O => particles
  | S i' =>
      let particles :=
        match nth_error particles i' with
        | Some particle =>
            let particle := advanceParticle deltaTime particle in
            if Particle.life particle <=? 0 then splice i' particles
            else set_nth i' particle particles
        | None => particles
        end in
      updateParticles_from deltaTime i' particles
  end.

Definition updateParticles (deltaTime : Q) (particles : list Particle.t)
  : list Particle.t :=
  updateParticles_from deltaTime (List.length particles) particles.

(** ** [GameEngine]: pausing (js/app.js:1452) *)

(** [togglePause]; [now] is the reading of [performance.now()]. *)
Definition GameEngine_togglePause {Arena : Type} (now : Q)
  (w : World.t Arena) : World.t Arena :=
  let gs := World.gameState w in
  let w :=
    World.set_gameState
      (GameState.mk (GameState.isPlaying gs) (negb (GameState.isPaused gs))
         (GameState.timeRemaining gs) (GameState.winner gs))
      w in
  if negb (GameState.isPaused (World.gameState w))
  then World.set_lastTime now w else w.

(** [BattleSystem.pauseBattle] (battle-system.js:567). *)
Definition BattleSystem_pauseBattle {Arena : Type} (now : Q)
  (w : World.t Arena) : World.t Arena :=
  if Battle.isActive (World.battle w) then GameEngine_togglePause now w
  else w.

(** [Application.handleWindowFocus] and [handleWindowBlur]
    (js/app.js:455, 465). *)
Definition Application_handleWindowFocus {Arena : Type} (now : Q)
  (w : World.t Arena) : World.t Arena :=
  if Battle.isActive (World.battle w)
     && GameState.isPaused (World.gameState w)
  then GameEngine_togglePause now w else w.

Definition Application_handleWindowBlur {Arena : Type} (now : Q)
  (w : World.t Arena) : World.t Arena :=
  if Battle.isActive (World.battle w)
     && negb (GameState.isPaused (World.gameState w))
  then GameEngine_togglePause now w else w.

(** ** [BattleSystem]: the player's input (battle-system.js:283)

    [battleSystem.player] is the object registered as ["player"]; the
    methods do nothing when there is none. *)

(** [handlePlayerAttack]; [type] is [detail.type], [now] the clock the
    mage's fireball reads. *)
Definition BattleSystem_handlePlayerAttack {Arena : Type} (type : string)
  (now : Z) (w : World.t Arena) : World.t Arena :=
  if negb (Battle.isActive (World.battle w)) then w
  else if String.eqb type "light" then snd (Character_lightAttack "player" w)
  else if String.eqb type "heavy" then snd (Character_heavyAttack "player" w)
  else if String.eqb type "special"
       then snd (Character_specialAttack "player" now w)
  else w.

Definition BattleSystem_handlePlayerBlock {Arena : Type} (active : bool)
  (w : World.t Arena) : World.t Arena :=
  if negb (Battle.isActive (World.battle w)) then w
  else if active then call "player" (fun c => snd (Character_startBlock c)) w
  else call "player" Character_stopBlock w.

Definition BattleSystem_handlePlayerDash {Arena : Type}
  (directionX directionY : Q) (w : World.t Arena) : World.t Arena :=
  if negb (Battle.isActive (World.battle w)) then w
  else snd (Character_dash "player" directionX directionY w).

(** [quitBattle] (battle-system.js:576); the change of screen is the
    interface's. *)
Definition BattleSystem_quitBattle {Arena : Type} (w : World.t Arena)
  : World.t Arena :=
  if Battle.isActive (World.battle w) then BattleSystem_endBattle defeat w
  else w.

(** ** [BattleSystem]: the rewards of a match (battle-system.js:422) *)

Module Rewards.
Record t : Type := mk {
  xp : Z; coins : Z;
  accuracy : bool; speed : bool; health : bool    (* [bonuses] *)
}.
End Rewards.

(** [calculateRewards]; [duration] is the length of the match in seconds,
    [Math.floor] is [Qfloor]. *)
Definition BattleSystem_calculateRewards {Arena : Type}
  (result : BattleResult) (duration : Q) (w : World.t Arena) : Rewards.t :=
  let baseXP := gameConfig.xpPerLoss in
  let baseCoins := 10 in
  let '(xpMultiplier, coinMultiplier) :=
    match result with
    | victory => (2, 3)
    | draw => (1.5, 2)
    | defeat => (1, 1)
    end in
  let hitsLanded := Battle.playerHitsLanded (World.battle w) in
  let accuracyBonus :=
    if (0 <? hitsLanded)%nat
    then Qmin 1.5 (inject_Z (Z.of_nat hitsLanded) / 10) else 1 in
  let speedBonus := if duration <? 20 then 1.2 else 1 in
  let healthBonus :=
    match getCharacter "player" w with
    | Some player => if 50 <? Char.health player then 1.1 else 1
    | None => 1
    end in
  Rewards.mk
    (Qfloor (baseXP * xpMultiplier * accuracyBonus * speedBonus))
    (Qfloor (baseCoins * coinMultiplier * healthBonus))
    (1 <? accuracyBonus) (1 <? speedBonus) (1 <? healthBonus).

(** * Vocabulary of the properties *)

(** ** Health *)

(** The calls the health invariant ranges over. *)
Inductive HealthCall : Type :=
| TakeDamage (amount : Q) (attacker : option string)
| Heal (amount : Q)
| Tick (deltaTime : Q).

Definition amountOf (call : HealthCall) : Q :=
  match call with
  | TakeDamage amount _ => amount
  | Heal amount => amount
  | Tick _ => 0
  end.

Definition perform {Arena : Type} (self : string) (c : HealthCall)
  (w : World.t Arena) : World.t Arena :=
  match c with
  | TakeDamage amount attacker => Character_takeDamage self amount attacker w
  | Heal amount => call self (Character_heal amount) w
  | Tick deltaTime => Character_update self deltaTime w
  end.

(** The worlds reached after each call of a sequence, in order. *)
Fixpoint trace {Arena : Type} (self : string) (calls : list HealthCall)
  (w : World.t Arena) : list (World.t Arena) :=
  match calls with
  | [] => []
  | c :: rest => let w' := perform self c w in w' :: trace self rest w'
  end.

Definition healthInRange {Arena : Type} (self : string) (w : World.t Arena)
  : Prop :=
  match getCharacter self w with
  | Some c => 0 <= Char.health c /\ Char.health c <= Char.maxHealth c
  | None => True
  end.

(** ** Worlds *)

(** The engines before a match: no body, no object, no battle. *)
Definition emptyWorld : World.t unit :=
  World.mk 980 [] [] false 0 (GameState.mk false false 30 None)
    (Battle.mk false None 0 0 0 0 []) [].

Definition noArena_update : Q -> unit -> World.t unit -> World.t unit :=
  fun _ _ w => w.
Definition noArena_destroy : unit -> World.t unit -> World.t unit :=
  fun _ w => w.

(** What [loadArena] (arena-system.js:1043) does to the object table, for
    an arena without platforms. *)
Definition registerArena (w : World.t unit) : World.t unit :=
  addGameObject "arena" (GArena tt) w.

(** The world [startBattle] builds for a ninja against a knight. *)
Definition battleWorld : World.t unit :=
  match
    BattleSystem_startBattle noArena_update noArena_destroy registerArena
      ninja knight 0 0 0 emptyWorld
  with
  | Some w => w
  | None => emptyWorld
  end.

(** ** Ticks *)

(** [c'] is [c] with another animation. *)
Definition onlyAnimation (c c' : Char.t) : Prop :=
  exists a, c' = Char.set_animation a c.

(** The character a tick leaves behind, before the death check. *)
Definition ticked {Arena : Type} (dt : Q) (c : Char.t) (w : World.t Arena)
  : Char.t :=
  let c := Character_updateTimers dt c in
  let c := Character_updateAnimation dt c in
  let c := Character_updatePosition (physicsBody c w) c in
  Character_updateAbilities dt c.

(** The berserker rages, then ticks 449 times at 1/30 s and once at
    1/40 s: 1/120 s of its rage cooldown is left. *)
Definition berserkerRun : World.t unit :=
  Character_update "opponent" (1 / 40)
    (Nat.iter 449 (Character_update "opponent" (1 / 30))
       (snd (Character_rage "opponent"
               (match
                  BattleSystem_startBattle noArena_update noArena_destroy
                    registerArena ninja berserker 0 0 0 emptyWorld
                with
                | Some w => w
                | None => emptyWorld
                end)))).

(** What a trigger contact depends on besides the geometry. *)
Definition contactView (b : Body.t) : string * bool * list string :=
  (Body.id b, Body.isTrigger b, Body.collidingWith b).

(** ** The damage of a hit *)

(** The damage of a hit as the specification words it. *)
Definition effectiveDamage (ability : Ability.t) (attacker target : Char.t)
  : Q :=
  let blockFactor :=
    if Char.isBlocking target
    then 1 - Block.reduction (Abilities.block (Char.abilities target))
    else 1 in
  Qmax 1
    (Ability.damage ability * Character_getDamageMultiplier attacker
     * blockFactor - Char.defense target).

(** The bodies after a hit on a blocking target: the stun's damping of
    the horizontal velocity, if the ability stuns, and nothing else. *)
Definition bodiesAfterBlockedHit (ability : Ability.t) (target : Char.t)
  (bs : Bodies) : Bodies :=
  if truthyOpt (Ability.stun ability)
  then modBody (Char.id target) (fun b => Body.set_vx (Body.vx b * 0.1) b) bs
  else bs.

(** The knight blocks; the ninja's light attack lands on it. *)
Definition blockingWorld : World.t unit :=
  call "opponent" (fun c => snd (Character_startBlock c)) battleWorld.

(** The projectile after [dt] seconds of flight. *)
Definition flown (dt : Q) (p : Projectile.t) : Projectile.t :=
  Projectile.mk (Projectile.x p + Projectile.vx p * dt)
    (Projectile.y p + Projectile.vy p * dt) (Projectile.vx p)
    (Projectile.vy p) (Projectile.size p) (Projectile.damage p)
    (Projectile.owner p) (Projectile.life p - dt).

(** The combatant a projectile hits where it is: the first body of layer
    ["character"] within [size] of it, in the engine's order, whose id names
    a character other than the owner. *)
Definition projectileTarget {Arena : Type} (p : Projectile.t)
  (w : World.t Arena) : option Body.t :=
  find
    (fun target =>
       match getCharacter (Body.id target) w with
       | Some _ => negb (String.eqb (Body.id target) (Projectile.owner p))
       | None => false
       end)
    (getBodiesInRadius (Projectile.x p) (Projectile.y p) (Projectile.size p)
       (Some "character"%string) (World.bodies w)).

(** Nothing but a projectile is registered under [key]. *)
Definition projectileOrNone {Arena : Type} (key : string)
  (w : World.t Arena) : Prop :=
  match getGameObject key w with
  | Some (GProjectile _) | None => True
  | Some _ => False
  end.

(** A mage against a knight. *)
Definition mageWorld : World.t unit :=
  match
    BattleSystem_startBattle noArena_update noArena_destroy registerArena
      mage knight 0 0 0 emptyWorld
  with
  | Some w => w
  | None => emptyWorld
  end.

(** The knight blocks and the mage casts its fireball at clock reading
    1000; then [ticks] iterations of [GameEngine.update] of 1/30 s run. *)
Definition fireballFlight (ticks : nat) : World.t unit :=
  fold_left
    (fun w _ =>
       GameEngine_update noArena_update noArena_destroy (1 / 30) 1016 w)
    (seq 0 ticks)
    (snd (Character_fireball "player" 1000
            (call "opponent" (fun c => snd (Character_startBlock c))
               mageWorld))).

(** The world one tick before the projectile reaches the knight, and the
    mage, the knight and the projectile in it. *)
Definition beforeHit : World.t unit := Eval vm_compute in fireballFlight 43.

Definition flightMage : Char.t :=
  Eval vm_compute in
    match getCharacter "player" beforeHit with
    | Some c => c
    | None =>
        Character_new "player"
          (CharConfig.mk (Some mage) None None None None None None None None
             None None)
    end.

Definition blockingKnight : Char.t :=
  Eval vm_compute in
    match getCharacter "opponent" beforeHit with
    | Some c => c
    | None => flightMage
    end.

Definition fireballInFlight : Projectile.t :=
  Eval vm_compute in
    match getGameObject (projectileKey 1000) beforeHit with
    | Some (GProjectile p) => p
    | _ => Projectile.mk 0 0 0 0 0 0 "" 0
    end.

(** ** Death *)

(** The player is hit for its whole health; no tick has run since. *)
Definition fatalHit : World.t unit :=
  Character_takeDamage "player" 100 (Some "opponent"%string) battleWorld.

(** The player blocks, is hit for its whole health and ticks once. *)
Definition diedBlocking : World.t unit :=
  Character_update "player" (1 / 30)
    (Character_takeDamage "player" 100 (Some "opponent"%string)
       (call "player" (fun c => snd (Character_startBlock c)) battleWorld)).

(** ** Separation of a solid pair *)

Definition resolvedA (bodyA bodyB : Body.t) : Body.t :=
  fst (fst (resolveCollision bodyA bodyB)).
Definition resolvedB (bodyA bodyB : Body.t) : Body.t :=
  snd (fst (resolveCollision bodyA bodyB)).

(** The share of the overlap a body moves by: all of it when the other
    body is static, otherwise the other body's share of the total mass. *)
Definition separationShare (body other : Body.t) : Q :=
  if Body.isStatic other then 1
  else Body.mass other / (Body.mass body + Body.mass other).

(** Two overlapping movable boxes of masses 1 and 3. *)
Definition lightBox : Body.t :=
  createBody "light"
    (BodyConfig.mk (Some 10) (Some 20) (Some 40) (Some 60) None None (Some 1)
       None None false false None None None false false false false).
Definition heavyBox : Body.t :=
  createBody "heavy"
    (BodyConfig.mk (Some 40) (Some 20) (Some 40) (Some 60) None None (Some 3)
       None None false false None None None false false false false).

(** The centre of a body's box; [y] grows downwards (gravity adds to
    [vy], the floor is the edge at [arenaHeight - 10]). *)
Definition centreX (b : Body.t) : Q := Body.x b + Body.width b / 2.

Definition centreY (b : Body.t) : Q := Body.y b + Body.height b / 2.

(** How deep two boxes reach into each other along one axis: half the sum
    of their sizes less the distance of their centres, [offset] being the
    second centre less the first. *)
Definition penetration (sizeA sizeB offset : Q) : Q :=
  (sizeA + sizeB) / 2 - Qabs offset.

(** ** A trigger scenario *)

(** A trigger zone with an [onTriggerEnter] callback and a crate, neither
    moved by the engine; their owner repositions the crate between ticks
    by writing its [x], as [Arena.updateHazards] does for hazard bodies. *)
Definition zone : Body.t :=
  createBody "zone"
    (BodyConfig.mk (Some 100) (Some 100) (Some 50) (Some 50) None None None
       None None true true (Some "hazard"%string) None None
       false false true false).

Definition crate : Body.t :=
  createBody "crate"
    (BodyConfig.mk (Some 120) (Some 120) (Some 40) (Some 40) None None None
       None None true false None None None false false false false).

Definition moveTo (x : Q) (id : string) (bs : Bodies) : Bodies :=
  modBody id (Body.set_x x) bs.

Definition fired (r : Bodies * list Notification) : list Notification :=
  snd r.

(** ** The countdown *)

(** The outcome the countdown's expiry must report for the healths
    [hp] of the player and [ho] of the opponent. *)
Definition outcomeByHealth (hp ho : Q) : Winner.t * BattleResult :=
  if ho <? hp then (Winner.player, victory)
  else if hp <? ho then (Winner.opponent, defeat)
  else (Winner.draw, draw).

(** Late in a match: the player has lost 30 health, 1/60 s remains. *)
Definition lateWorld : World.t unit :=
  World.set_gameState (GameState.mk true false (1 / 60) None)
    (Character_takeDamage "player" 30 (Some "opponent"%string) battleWorld).

(** ** The attack window *)

(** Three readings of "a body lying inside the window"
    [(bx, by, bw, bh)]: the whole body, some part of it, its centre. *)
Definition bodyWithin (box : Q * Q * Q * Q) (b : Body.t) : bool :=
  let '(bx, by_, bw, bh) := box in
  (bx <=? Body.x b) && (Body.x b + Body.width b <=? bx + bw)
  && (by_ <=? Body.y b) && (Body.y b + Body.height b <=? by_ + bh).

Definition bodyOverlaps (box : Q * Q * Q * Q) (b : Body.t) : bool :=
  let '(bx, by_, bw, bh) := box in
  (Body.x b <? bx + bw) && (bx <? Body.x b + Body.width b)
  && (Body.y b <? by_ + bh) && (by_ <? Body.y b + Body.height b).

Definition centreWithin (box : Q * Q * Q * Q) (b : Body.t) : bool :=
  let '(bx, by_, bw, bh) := box in
  let cx := Body.x b + Body.width b / 2 in
  let cy := Body.y b + Body.height b / 2 in
  (bx <=? cx) && (cx <=? bx + bw) && (by_ <=? cy) && (cy <=? by_ + bh).

(** The battle world with the opponent's body moved to [(x, y)]. *)
Definition opponentAt (x y : Q) : World.t unit :=
  World.set_bodies
    (modBody "opponent" (fun b => Body.set_y y (Body.set_x x b))
       (World.bodies battleWorld))
    battleWorld.

(** The characters [attack] calls [dealDamage] on: the bodies the query
    returns whose id names a character other than the attacker. *)
Definition attackVictims {Arena : Type} (self : string) (c : Char.t)
  (ability : Ability.t) (w : World.t Arena) : list Body.t :=
  filter
    (fun target =>
       match getCharacter (Body.id target) w with
       | Some _ => negb (String.eqb (Body.id target) self)
       | None => false
       end)
    (attackTargets c ability (World.bodies w)).

Definition isCharacter {Arena : Type} (id : string) (w : World.t Arena)
  : bool :=
  match getCharacter id w with Some _ => true | None => false end.

(** ** The loop and the engine's step *)

(** A body in free fall that stays inside the arena. *)
Definition fallen (pow : Q -> Q -> Q) (gravity deltaTime : Q) (body : Body.t)
  : Body.t :=
  let vy := Body.vy body + gravity * deltaTime in
  let vx := Body.vx body * pow (Body.friction body) deltaTime in
  Body.set_grounded false
    (Body.set_y (Body.y body + vy * deltaTime)
       (Body.set_x (Body.x body + vx * deltaTime)
          (Body.set_vx vx
             (Body.set_vy vy
                (Body.set_lastPosition (Body.x body, Body.y body) body))))).

(** The body of a character built at [(x, 400)], as [createBody] returns
    it. *)
Definition spawned (id : string) (x : Q) : Body.t :=
  Body.mk id x 400 40 60 0 0 1 0.1 0.8 false false "character" rectangle
    (40 # 2) true false true false false [] (x, 400).

(** Where a body is: its id and position. *)
Definition placeOf (b : Body.t) : string * Q * Q :=
  (Body.id b, Body.x b, Body.y b).

(** Every registered object is a character. *)
Definition onlyCharacters {Arena : Type} (w : World.t Arena) : Prop :=
  forall kv, In kv (World.gameObjects w) -> exists c, snd kv = GCharacter c.

(** ** Vocabulary of the properties of the rest of the engines *)

(** *** Collisions *)

(** The velocity of [bodyB] relative to [bodyA] along the normal. *)
Definition velAlongNormal (bodyA bodyB : Body.t) (collision : Collision.t)
  : Q :=
  (Body.vx bodyB - Body.vx bodyA) * Collision.normalX collision
  + (Body.vy bodyB - Body.vy bodyA) * Collision.normalY collision.

(** A crate falling at 100 px/s onto another; they overlap by 2 px. *)
Definition upperCrate : Body.t :=
  Body.set_vy 100
    (createBody "upper"
       (BodyConfig.mk (Some 100) (Some 262) (Some 40) (Some 40) None None
          None None None false false None None None false false false false)).

Definition lowerCrate : Body.t :=
  createBody "lower"
    (BodyConfig.mk (Some 100) (Some 300) (Some 40) (Some 40) None None
       None None None false false None None None false false false false).

(** *** Static bodies *)

(** [b'] is a later state of the body [b] that has not moved if [b] is
    static. *)
Definition pinned (b b' : Body.t) : Prop :=
  Body.id b' = Body.id b
  /\ Body.isStatic b' = Body.isStatic b
  /\ (Body.isStatic b = true ->
      Body.x b' = Body.x b /\ Body.y b' = Body.y b
      /\ Body.vx b' = Body.vx b /\ Body.vy b' = Body.vy b).

(** A static platform, which registers no callback; [upperCrate] falls
    onto it. *)
Definition platform : Body.t :=
  createBody "platform"
    (BodyConfig.mk (Some 60) (Some 300) (Some 200) (Some 20) None None None
       None None true false (Some "platform"%string) None None false false
       false false).

(** *** Contacts *)

(** The fields of a body other than [collidingWith]. *)
Definition withoutContacts (b : Body.t) : Body.t :=
  Body.set_collidingWith [] b.

(** *** Ray casts *)

(** The point at parameter [t] of the segment from [(x1, y1)] to
    [(x2, y2)], one coordinate at a time. *)
Definition along (a1 a2 t : Q) : Q := a1 + t * (a2 - a1).

(** The two segments share the point at parameters [t] and [u]. *)
Definition meetAt (x1 y1 x2 y2 x3 y3 x4 y4 t u : Q) : Prop :=
  0 <= t /\ t <= 1 /\ 0 <= u /\ u <= 1
  /\ along x1 x2 t == along x3 x4 u
  /\ along y1 y2 t == along y3 y4 u.

(** The point [(px, py)] lies in the closed box of [rect]. *)
Definition inBox (rect : Body.t) (px py : Q) : Prop :=
  Body.x rect <= px /\ px <= Body.x rect + Body.width rect
  /\ Body.y rect <= py /\ py <= Body.y rect + Body.height rect.

(** A wall 10 px wide, 80 px to the right of the origin. *)
Definition wall : Body.t :=
  createBody "wall"
    (BodyConfig.mk (Some 80) (Some (-5)) (Some 10) (Some 10) None None None
       None None true false None None None false false false false).

(** The test [raycast] puts a body to. *)
Definition rayMeets (startX startY endX endY : Q) (layer : option string)
  (body : Body.t) : bool :=
  negb (layerExcludes layer body)
  && lineIntersectsRect startX startY endX endY body.

(** *** Timers and combatants *)

(** A ninja as [createCharacter] builds the player's. *)
Definition freshNinja : Char.t :=
  Character_new "player"
    (CharConfig.mk (Some ninja) (Some 150) (Some 400) None None None None
       None None None None).

(** The combatants of [battleWorld], as the first loop iteration left
    them. *)
Definition battlePlayer : Char.t :=
  Eval vm_compute in
    match getCharacter "player" battleWorld with
    | Some c => c
    | None => freshNinja
    end.

Definition battleOpponent : Char.t :=
  Eval vm_compute in
    match getCharacter "opponent" battleWorld with
    | Some c => c
    | None => freshNinja
    end.

(** *** Refused attacks *)

(** The attacks that wait for [attackCooldown]. *)
Definition attacksRefused {Arena : Type} (self : string) (w : World.t Arena)
  : Prop :=
  Character_lightAttack self w = (false, w)
  /\ Character_heavyAttack self w = (false, w)
  /\ Character_shadowStrike self w = (false, w)
  /\ Character_shieldBash self w = (false, w)
  /\ forall now, Character_fireball self now w = (false, w).

(** *** Flags and refused actions *)

(** The flags a tick does not decide by itself. *)
Definition flagsOf (c : Char.t) : list bool :=
  [Char.isBlocking c; Char.isDashing c; Char.isAttacking c;
   Char.rageActive c; Char.facingRight c].

(** The calls a stunned combatant is refused. *)
Definition actionsRefused {Arena : Type} (self : string) (c : Char.t)
  (w : World.t Arena) : Prop :=
  (forall dx dy, Character_move self dx dy w = w)
  /\ Character_lightAttack self w = (false, w)
  /\ Character_heavyAttack self w = (false, w)
  /\ (forall now, Character_specialAttack self now w = (false, w))
  /\ (forall dx dy, Character_dash self dx dy w = (false, w))
  /\ Character_startBlock c = (false, c).

(** *** A berserker *)

(** A berserker against a ninja, as [startBattle] builds them. *)
Definition berserkerWorld : World.t unit :=
  match
    BattleSystem_startBattle noArena_update noArena_destroy registerArena
      berserker ninja 0 0 0 emptyWorld
  with
  | Some w => w
  | None => emptyWorld
  end.

Definition berserkerPlayer : Char.t :=
  Eval vm_compute in
    match getCharacter "player" berserkerWorld with
    | Some c => c
    | None => freshNinja
    end.

(** *** Projectiles *)

(** The world after the mage's fireball at clock reading 1000. *)
Definition firedWorld : World.t unit :=
  snd (Character_fireball "player" 1000 mageWorld).

Definition firedProjectile : Projectile.t :=
  Eval vm_compute in
    match getGameObject (projectileKey 1000) firedWorld with
    | Some (GProjectile p) => p
    | _ => Projectile.mk 0 0 0 0 0 0 "" 0
    end.

(** *** A finished match *)

(** The handlers of the battle system and the loop of the engine. *)
Definition battleIsOver {Arena : Type}
  (Arena_update : Q -> Arena -> World.t Arena -> World.t Arena)
  (Arena_destroy : Arena -> World.t Arena -> World.t Arena)
  (w : World.t Arena) : Prop :=
  (forall result, BattleSystem_endBattle result w = w)
  /\ (forall character, BattleSystem_handleCharacterDeath character w = w)
  /\ (forall winner, BattleSystem_handleBattleEnd winner w = w)
  /\ (forall character damage attacker,
        BattleSystem_handleCharacterDamaged character damage attacker w = w)
  /\ BattleSystem_quitBattle w = w
  /\ (forall type now, BattleSystem_handlePlayerAttack type now w = w)
  /\ (forall active, BattleSystem_handlePlayerBlock active w = w)
  /\ (forall dx dy, BattleSystem_handlePlayerDash dx dy w = w)
  /\ (forall now, BattleSystem_pauseBattle now w = w)
  /\ (forall t now,
        GameEngine_gameLoop Arena_update Arena_destroy t now w = w).

(** *** Deaths in the same tick *)

(** What the battle system and the loop keep of the world: everything
    but the objects and the bodies. *)
Definition matchState {Arena : Type} (w : World.t Arena)
  : Battle.t * GameState.t * bool * list (Q * TimeoutAction) :=
  (World.battle w, World.gameState w, World.isRunning w, World.timeouts w).

(** Both combatants of [battleWorld] hit for their whole health between
    two ticks. *)
Definition bothDown : World.t unit :=
  Character_takeDamage "opponent" 100 (Some "player"%string)
    (Character_takeDamage "player" 100 (Some "opponent"%string) battleWorld).

Definition downPlayer : Char.t :=
  Eval vm_compute in
    match getCharacter "player" bothDown with
    | Some c => c
    | None => freshNinja
    end.

Definition downOpponent : Char.t :=
  Eval vm_compute in
    match getCharacter "opponent" bothDown with
    | Some c => c
    | None => freshNinja
    end.

(** *** Particles and rewards *)

(** The particles that are kept: those with life left. *)
Definition alive (p : Particle.t) : bool := negb (Particle.life p <=? 0).

(** The world with the player's count of landed hits set to [n]. *)
Definition withHits {Arena : Type} (n : nat) (w : World.t Arena)
  : World.t Arena :=
  let b := World.battle w in
  World.set_battle
    (Battle.mk (Battle.isActive b) (Battle.battleResult b)
       (Battle.playerDamageDealt b) n (Battle.opponentDamageDealt b)
       (Battle.opponentHitsLanded b) (Battle.completed b))
    w.

(** The accuracy factor of [calculateRewards] for [n] landed hits. *)
Definition accuracyBonus (n : nat) : Q :=
  if (0 <? n)%nat then Qmin 1.5 (inject_Z (Z.of_nat n) / 10) else 1.

(** The factors of [calculateRewards] for a result. *)
Definition xpMultiplier (result : BattleResult) : Q :=
  match result with victory => 2 | draw => 1.5 | defeat => 1 end.

Definition coinMultiplier (result : BattleResult) : Q :=
  match result with victory => 3 | draw => 2 | defeat => 1 end.

(** * Properties *)

(** ** Comparisons *)

Lemma Qltb_true_iff (a b : Q) : (a <? b) = true <-> a < b.
Proof.
  unfold Qltb. rewrite negb_true_iff, <- not_true_iff_false, Qle_bool_iff.
  split; [apply Qnot_le_lt | apply Qlt_not_le].
Qed.

Lemma Qltb_false_iff (a b : Q) : (a <? b) = false <-> b <= a.
Proof.
  unfold Qltb. rewrite negb_false_iff. apply Qle_bool_iff.
Qed.

Lemma Qleb_true_iff (a b : Q) : (a <=? b) = true <-> a <= b.
Proof. apply Qle_bool_iff. Qed.

Lemma Qleb_false_iff (a b : Q) : (a <=? b) = false <-> b < a.
Proof.
  unfold Qleb. rewrite <- not_true_iff_false, Qle_bool_iff.
  split; [apply Qnot_le_lt | apply Qlt_not_le].
Qed.

(** ** The object table *)

Section Table.

Context {Arena : Type}.

Implicit Types w : World.t Arena.

Lemma getCharacter_setCharacter self c0 c w :
  getCharacter self w = Some c0 ->
  getCharacter self (setCharacter self c w) = Some c.
Proof.
  unfold getCharacter, getGameObject, setCharacter. simpl.
  induction (World.gameObjects w) as [|kv rest IH]; simpl; [discriminate|].
  destruct (String.eqb (fst kv) self) eqn:E; simpl.
  - rewrite E. reflexivity.
  - rewrite E. exact IH.
Qed.

Lemma getCharacter_setCharacter_other self other c w :
  String.eqb other self = false ->
  getCharacter other (setCharacter self c w) = getCharacter other w.
Proof.
  intros Hne.
  assert (Hne' : String.eqb self other = false)
    by (rewrite String.eqb_sym; exact Hne).
  unfold getCharacter, getGameObject, setCharacter. simpl.
  induction (World.gameObjects w) as [|kv rest IH]; simpl; [reflexivity|].
  destruct (String.eqb (fst kv) self) eqn:E; simpl.
  - apply String.eqb_eq in E. rewrite E, Hne'. exact IH.
  - destruct (String.eqb (fst kv) other); [reflexivity | exact IH].
Qed.

Lemma endBattle_gameObjects result w :
  World.gameObjects (BattleSystem_endBattle result w) = World.gameObjects w.
Proof.
  unfold BattleSystem_endBattle.
  destruct (Battle.isActive (World.battle w)); reflexivity.
Qed.

Lemma endBattle_bodies result w :
  World.bodies (BattleSystem_endBattle result w) = World.bodies w.
Proof.
  unfold BattleSystem_endBattle.
  destruct (Battle.isActive (World.battle w)); reflexivity.
Qed.

Lemma handleCharacterDamaged_gameObjects character damage attacker w :
  World.gameObjects
    (BattleSystem_handleCharacterDamaged character damage attacker w)
  = World.gameObjects w.
Proof.
  unfold BattleSystem_handleCharacterDamaged.
  repeat match goal with |- context [if ?b then _ else _] => destruct b end;
    reflexivity.
Qed.

Lemma handleCharacterDamaged_bodies character damage attacker w :
  World.bodies
    (BattleSystem_handleCharacterDamaged character damage attacker w)
  = World.bodies w.
Proof.
  unfold BattleSystem_handleCharacterDamaged.
  repeat match goal with |- context [if ?b then _ else _] => destruct b end;
    reflexivity.
Qed.

Lemma handleCharacterDeath_gameObjects character w :
  World.gameObjects (BattleSystem_handleCharacterDeath character w)
  = World.gameObjects w.
Proof.
  unfold BattleSystem_handleCharacterDeath.
  repeat match goal with |- context [if ?b then _ else _] => destruct b end;
    try reflexivity; apply endBattle_gameObjects.
Qed.

Lemma handleCharacterDeath_bodies character w :
  World.bodies (BattleSystem_handleCharacterDeath character w)
  = World.bodies w.
Proof.
  unfold BattleSystem_handleCharacterDeath.
  repeat match goal with |- context [if ?b then _ else _] => destruct b end;
    try reflexivity; apply endBattle_bodies.
Qed.

(** A character read after a listener ran is the character written before. *)
Lemma getCharacter_ext id w w' :
  World.gameObjects w' = World.gameObjects w ->
  getCharacter id w' = getCharacter id w.
Proof.
  intros H. unfold getCharacter, getGameObject. rewrite H. reflexivity.
Qed.

End Table.

Ltac break_if :=
  match goal with
  | |- context [if ?b then _ else _] => destruct b eqn:?
  | |- context [match ?x with _ => _ end] => destruct x eqn:?
  end.

(** ** What the parts of a tick write *)

Lemma set_animation_eta c : Char.set_animation (Char.animation c) c = c.
Proof. destruct c; reflexivity. Qed.

Lemma onlyAnimation_refl c : onlyAnimation c c.
Proof. exists (Char.animation c). symmetry. apply set_animation_eta. Qed.

Lemma onlyAnimation_set a c c' :
  onlyAnimation c c' -> onlyAnimation c (Char.set_animation a c').
Proof. intros [a' ->]. exists a. reflexivity. Qed.

Lemma onlyAnimation_setAnimation name c c' :
  onlyAnimation c c' -> onlyAnimation c (Character_setAnimation name c').
Proof.
  intros H. unfold Character_setAnimation.
  destruct (negb _); [apply onlyAnimation_set|]; exact H.
Qed.

Lemma updateAnimation_only dt c :
  onlyAnimation c (Character_updateAnimation dt c).
Proof.
  unfold Character_updateAnimation. cbv zeta.
  repeat first
    [ match goal with
      | |- onlyAnimation _ (if ?b then _ else _) => destruct b
      | |- onlyAnimation _ (let '(_, _) := ?p in _) => destruct p
      end
    | apply onlyAnimation_setAnimation
    | apply onlyAnimation_set
    | apply onlyAnimation_refl ].
Qed.

(** The five timers of [updateTimers]: each is its old value less [dt],
    clamped at 0. *)
Lemma updateTimers_timers dt c :
  let c' := Character_updateTimers dt c in
  Char.attackCooldown c' = Qmax 0 (Char.attackCooldown c - dt)
  /\ Char.blockCooldown c' = Qmax 0 (Char.blockCooldown c - dt)
  /\ Char.dashCooldown c' = Qmax 0 (Char.dashCooldown c - dt)
  /\ Char.stunDuration c' = Qmax 0 (Char.stunDuration c - dt)
  /\ Char.invulnerabilityTime c' = Qmax 0 (Char.invulnerabilityTime c - dt).
Proof. cbv zeta. unfold Character_updateTimers. break_if; repeat split. Qed.

Lemma updateTimers_frame dt c :
  let c' := Character_updateTimers dt c in
  Char.health c' = Char.health c /\ Char.maxHealth c' = Char.maxHealth c
  /\ Char.isDead c' = Char.isDead c /\ Char.id c' = Char.id c
  /\ Char.type c' = Char.type c
  /\ Char.rageCooldown c' = Char.rageCooldown c
  /\ Char.rageDuration c' = Char.rageDuration c.
Proof. cbv zeta. unfold Character_updateTimers. break_if; repeat split. Qed.

Lemma ticked_frame {Arena : Type} dt c (w : World.t Arena) :
  let c' := ticked dt c w in
  Char.health c' = Char.health c /\ Char.maxHealth c' = Char.maxHealth c
  /\ Char.isDead c' = Char.isDead c /\ Char.type c' = Char.type c
  /\ Char.attackCooldown c' = Qmax 0 (Char.attackCooldown c - dt)
  /\ Char.blockCooldown c' = Qmax 0 (Char.blockCooldown c - dt)
  /\ Char.dashCooldown c' = Qmax 0 (Char.dashCooldown c - dt)
  /\ Char.stunDuration c' = Qmax 0 (Char.stunDuration c - dt)
  /\ Char.invulnerabilityTime c' = Qmax 0 (Char.invulnerabilityTime c - dt).
Proof.
  cbv zeta. unfold ticked.
  destruct (updateAnimation_only dt (Character_updateTimers dt c)) as [a Ha].
  rewrite Ha.
  destruct (updateTimers_timers dt c) as (T1 & T2 & T3 & T4 & T5).
  destruct (updateTimers_frame dt c) as (F1 & F2 & F3 & F4 & F5 & _).
  set (c1 := Character_updateTimers dt c) in *.
  unfold Character_updateAbilities, Character_updateRage,
    Character_updatePosition.
  repeat break_if; simpl; rewrite ?F1, ?F2, ?F3, ?F4, ?F5, ?T1, ?T2, ?T3,
    ?T4, ?T5; repeat split; try assumption.
Qed.

Lemma Character_update_alive {Arena : Type} self dt c (w : World.t Arena) :
  getCharacter self w = Some c ->
  Char.isDead c = false ->
  exists c',
    getCharacter self (Character_update self dt w) = Some c'
    /\ (c' = ticked dt c w
        \/ (Char.health (ticked dt c w) <= 0
            /\ c' = Character_setAnimation Animation.death
                      (Char.set_health 0
                         (Char.set_isDead true (ticked dt c w))))).
Proof.
  intros Hc Hd. unfold Character_update. rewrite Hc, Hd.
  fold (ticked dt c w).
  destruct (ticked_frame dt c w) as (_ & _ & Hdead & _).
  rewrite Hdead, Hd. rewrite andb_true_r.
  destruct (Char.health (ticked dt c w) <=? 0) eqn:E.
  - eexists. split; [|right; split; [apply Qleb_true_iff; exact E
                                     | reflexivity]].
    unfold Character_die.
    rewrite (getCharacter_setCharacter self c _ w Hc).
    rewrite (getCharacter_ext self _ _
               (handleCharacterDeath_gameObjects self _)).
    unfold writePhysicsBody.
    match goal with
    | |- getCharacter _ (World.set_bodies _ ?w') = _ =>
        change (getCharacter self w' = Some
                  (Character_setAnimation Animation.death
                     (Char.set_health 0
                        (Char.set_isDead true (ticked dt c w)))))
    end.
    eapply getCharacter_setCharacter.
    eapply getCharacter_setCharacter. exact Hc.
  - eexists. split; [|left; reflexivity].
    eapply getCharacter_setCharacter. exact Hc.
Qed.

(** ** Health *)

Lemma takeDamage_character {Arena : Type} self amount attacker c
  (w : World.t Arena) :
  getCharacter self w = Some c ->
  getCharacter self (Character_takeDamage self amount attacker w)
  = Some
      (if (0 <? Char.invulnerabilityTime c) || Char.isDead c then c
       else
         Character_setAnimation Animation.hurt
           (Char.set_invulnerabilityTime 0.2
              (Char.set_health (Qmax 0 (Char.health c - amount)) c))).
Proof.
  intros Hc. unfold Character_takeDamage. rewrite Hc.
  destruct ((0 <? Char.invulnerabilityTime c) || Char.isDead c);
    [exact Hc|].
  rewrite (getCharacter_ext self _ _
             (handleCharacterDamaged_gameObjects self _ _ _)).
  eapply getCharacter_setCharacter. exact Hc.
Qed.

Lemma takeDamage_bodies {Arena : Type} self amount attacker
  (w : World.t Arena) :
  World.bodies (Character_takeDamage self amount attacker w) = World.bodies w.
Proof.
  unfold Character_takeDamage.
  destruct (getCharacter self w); [|reflexivity].
  destruct (_ || _); [reflexivity|].
  rewrite handleCharacterDamaged_bodies. reflexivity.
Qed.

Lemma setAnimation_frame name c :
  let c' := Character_setAnimation name c in
  Char.health c' = Char.health c /\ Char.maxHealth c' = Char.maxHealth c.
Proof.
  destruct (onlyAnimation_setAnimation name c c (onlyAnimation_refl c))
    as [a Ha].
  cbv zeta. rewrite Ha. split; reflexivity.
Qed.

(** A character is built at full health. *)
Lemma Character_new_health id config :
  Char.health (Character_new id config)
  = Char.maxHealth (Character_new id config).
Proof. reflexivity. Qed.

Lemma perform_healthInRange {Arena : Type} self hc (w : World.t Arena) :
  0 <= amountOf hc ->
  healthInRange self w -> healthInRange self (perform self hc w).
Proof.
  intros Hamount. unfold healthInRange.
  destruct (getCharacter self w) as [c|] eqn:Hc.
  - intros [Hlo Hhi]. destruct hc as [amount attacker|amount|dt]; simpl.
    + rewrite (takeDamage_character self amount attacker c w Hc).
      destruct (_ || _); [split; assumption|].
      destruct (setAnimation_frame Animation.hurt
                  (Char.set_invulnerabilityTime 0.2
                     (Char.set_health (Qmax 0 (Char.health c - amount)) c)))
        as [-> ->].
      simpl in *.
      destruct (Q.max_spec 0 (Char.health c - amount)) as [[? ->]|[? ->]];
        split; lra.
    + unfold call. rewrite Hc.
      rewrite (getCharacter_setCharacter self c _ w Hc).
      unfold Character_heal. destruct (Char.isDead c); [split; assumption|].
      simpl in *.
      destruct (Q.min_spec (Char.maxHealth c) (Char.health c + amount))
        as [[? ->]|[? ->]]; split; lra.
    + destruct (Char.isDead c) eqn:Hd.
      * unfold Character_update. rewrite Hc, Hd, Hc. split; assumption.
      * destruct (Character_update_alive self dt c w Hc Hd)
          as (c' & -> & Hc').
        destruct (ticked_frame dt c w) as (Fh & Fm & _).
        destruct Hc' as [->|[_ ->]].
        -- rewrite Fh, Fm. split; assumption.
        -- destruct (setAnimation_frame Animation.death
                       (Char.set_health 0
                          (Char.set_isDead true (ticked dt c w))))
             as [-> ->].
           simpl. rewrite Fm. split; lra.
  - intros _.
    assert (Hnone : getCharacter self (perform self hc w) = None).
    { destruct hc; simpl.
      - unfold Character_takeDamage. rewrite Hc. exact Hc.
      - unfold call. rewrite Hc. exact Hc.
      - unfold Character_update. rewrite Hc. exact Hc. }
    rewrite Hnone. exact I.
Qed.

(** C2, amended.  Along every finite sequence of [takeDamage], [heal] and
    tick [update] calls on a combatant in which no amount is negative,
    [0 <= health <= maxHealth] holds after every call, provided it held
    before the first. *)
Theorem health_bounds_nonnegative_amounts {Arena : Type} (self : string)
  (calls : list HealthCall) (w : World.t Arena) :
  healthInRange self w ->
  Forall (fun c => 0 <= amountOf c) calls ->
  Forall (healthInRange self) (trace self calls w).
Proof.
  intros Hw Hcalls. revert w Hw.
  induction Hcalls as [|c rest Hc _ IH]; intros w Hw; simpl.
  - constructor.
  - constructor.
    + apply perform_healthInRange; assumption.
    + apply IH. apply perform_healthInRange; assumption.
Qed.

Lemma health_bounds_nonnegative_amounts_witness :
  Forall (healthInRange "player")
    (trace "player"
       [TakeDamage 30 (Some "opponent"%string); Tick (1 / 30); Heal 50;
        Tick (1 / 4); TakeDamage 250 None; Tick (1 / 30); Heal 10]
       battleWorld).
Proof.
  apply health_bounds_nonnegative_amounts.
  - vm_compute. split; discriminate.
  - repeat constructor; vm_compute; discriminate.
Defined.

(** C2 as stated fails: a negative amount takes the health out of range,
    below 0 through [heal] and above [maxHealth] through [takeDamage]. *)
Lemma health_bounds_negative_amount_counterexample :
  healthInRange "player" battleWorld
  /\ ~ healthInRange "player" (perform "player" (Heal (-150)) battleWorld)
  /\ ~ healthInRange "player"
         (perform "player" (TakeDamage (-50) None) battleWorld).
Proof.
  split; [vm_compute; split; discriminate|].
  split; vm_compute; intros [H1 H2]; [apply H1 | apply H2]; reflexivity.
Qed.

(** ** Timers *)

(** The five timers of a living combatant after a tick: each is its old
    value less [dt], clamped at 0. *)
Lemma update_clamps_timers {Arena : Type} self dt c (w : World.t Arena) :
  getCharacter self w = Some c ->
  Char.isDead c = false ->
  exists c',
    getCharacter self (Character_update self dt w) = Some c'
    /\ Char.attackCooldown c' = Qmax 0 (Char.attackCooldown c - dt)
    /\ Char.blockCooldown c' = Qmax 0 (Char.blockCooldown c - dt)
    /\ Char.dashCooldown c' = Qmax 0 (Char.dashCooldown c - dt)
    /\ Char.stunDuration c' = Qmax 0 (Char.stunDuration c - dt)
    /\ Char.invulnerabilityTime c'
       = Qmax 0 (Char.invulnerabilityTime c - dt).
Proof.
  intros Hc Hd.
  destruct (Character_update_alive self dt c w Hc Hd) as (c' & Hget & Hc').
  exists c'. split; [exact Hget|].
  destruct (ticked_frame dt c w) as (_ & _ & _ & _ & T1 & T2 & T3 & T4 & T5).
  destruct Hc' as [->|[_ ->]]; [repeat split; assumption|].
  destruct (onlyAnimation_setAnimation Animation.death _ _
              (onlyAnimation_refl
                 (Char.set_health 0 (Char.set_isDead true (ticked dt c w)))))
    as [a ->].
  cbn. repeat split; assumption.
Qed.

(** C5, at the failing input: the next tick of 1/30 s takes the rage
    cooldown from 1/120 to -1/40, below 0, while the attack cooldown
    [updateTimers] clamps is at 0. *)
Theorem rage_cooldown_negative_after_update :
  match getCharacter "opponent" berserkerRun,
        getCharacter "opponent"
          (Character_update "opponent" (1 / 30) berserkerRun) with
  | Some before, Some after =>
      Char.isDead before = false
      /\ Char.rageCooldown before == 1 / 120
      /\ Char.rageCooldown after == - (1 / 40)
      /\ Char.rageCooldown after < 0
      /\ Char.attackCooldown after == 0
  | _, _ => False
  end.
Proof. vm_compute. repeat split. Qed.

(** ** Trigger contacts *)

Lemma handleTriggerCollision_enter (bodyA bodyB : Body.t) :
  Body.isTrigger bodyA = true ->
  Body.onTriggerEnter bodyA = true ->
  has (Body.id bodyB) (Body.collidingWith bodyA) = false ->
  handleTriggerCollision bodyA bodyB
  = (Body.set_collidingWith
       (Body.collidingWith bodyA ++ [Body.id bodyB]) bodyA,
     bodyB, [TriggerEnter (Body.id bodyA) (Body.id bodyB)]).
Proof.
  intros Ht He Hn. unfold handleTriggerCollision, add.
  rewrite Ht, He, Hn. reflexivity.
Qed.

Lemma handleTriggerCollision_persisting (bodyA bodyB : Body.t) :
  Body.isTrigger bodyA = true ->
  has (Body.id bodyB) (Body.collidingWith bodyA) = true ->
  handleTriggerCollision bodyA bodyB = (bodyA, bodyB, []).
Proof.
  intros Ht Hn. unfold handleTriggerCollision. rewrite Ht, Hn. reflexivity.
Qed.

Lemma handleTriggerCollision_positions (bodyA bodyB : Body.t) :
  let r := handleTriggerCollision bodyA bodyB in
  Body.x (fst (fst r)) = Body.x bodyA /\ Body.y (fst (fst r)) = Body.y bodyA
  /\ Body.x (snd (fst r)) = Body.x bodyB
  /\ Body.y (snd (fst r)) = Body.y bodyB.
Proof.
  cbv zeta. unfold handleTriggerCollision.
  destruct (negb _), (Body.isTrigger bodyA); repeat split.
Qed.

Lemma setters_contactView (b : Body.t) :
  (forall v, contactView (Body.set_x v b) = contactView b)
  /\ (forall v, contactView (Body.set_y v b) = contactView b)
  /\ (forall v, contactView (Body.set_vx v b) = contactView b)
  /\ (forall v, contactView (Body.set_vy v b) = contactView b)
  /\ (forall v, contactView (Body.set_grounded v b) = contactView b)
  /\ (forall v, contactView (Body.set_lastPosition v b) = contactView b).
Proof. repeat split. Qed.

Lemma constrainToArena_contactView body :
  contactView (constrainToArena body) = contactView body.
Proof.
  unfold constrainToArena.
  repeat match goal with
         | |- context [if ?c then _ else _] => destruct c
         end; reflexivity.
Qed.

(** No part of a body's update forgets a contact. *)
Lemma updateBody_contactView pow gravity dt body :
  contactView (updateBody pow gravity dt body) = contactView body.
Proof.
  unfold updateBody. destruct (Body.isStatic body); [reflexivity|].
  cbv zeta.
  rewrite (proj1 (proj2 (proj2 (proj2 (proj2 (setters_contactView _)))))).
  rewrite constrainToArena_contactView.
  rewrite (proj1 (proj2 (setters_contactView _))).
  rewrite (proj1 (setters_contactView _)).
  rewrite (proj1 (proj2 (proj2 (setters_contactView _)))).
  destruct (_ && _); reflexivity.
Qed.

Lemma checkCollisions_recorded_pair (trigger other : Body.t) :
  Body.isTrigger trigger = true ->
  has (Body.id other) (Body.collidingWith trigger) = true ->
  checkCollisions [trigger; other] = ([trigger; other], []).
Proof.
  intros Ht Hrec. unfold checkCollisions, checkPair.
  cbn [List.length seq fold_left nth_error Nat.sub].
  destruct (checkCollision trigger other); [|reflexivity].
  unfold resolveCollision. rewrite Ht. cbn [orb].
  rewrite (handleTriggerCollision_persisting _ _ Ht Hrec). reflexivity.
Qed.

(** Once a trigger has recorded a body, no step fires the callback for it
    again, wherever the two bodies are and however long they were apart:
    the step removes nothing from [collidingWith]. *)
Lemma recorded_pair_never_refires pow gravity dt (trigger other : Body.t) :
  Body.isTrigger trigger = true ->
  has (Body.id other) (Body.collidingWith trigger) = true ->
  exists trigger' other',
    PhysicsEngine_update pow gravity dt [trigger; other]
    = ([trigger'; other'], [])
    /\ contactView trigger' = contactView trigger
    /\ contactView other' = contactView other.
Proof.
  intros Ht Hrec.
  exists (updateBody pow gravity dt trigger), (updateBody pow gravity dt other).
  pose proof (updateBody_contactView pow gravity dt trigger) as Vt.
  pose proof (updateBody_contactView pow gravity dt other) as Vo.
  split; [|split; assumption].
  unfold PhysicsEngine_update. cbn [map].
  apply checkCollisions_recorded_pair.
  - unfold contactView in Vt. congruence.
  - unfold contactView in Vt, Vo.
    replace (Body.id (updateBody pow gravity dt other)) with (Body.id other)
      by congruence.
    replace (Body.collidingWith (updateBody pow gravity dt trigger))
      with (Body.collidingWith trigger) by congruence.
    exact Hrec.
Qed.

(** ** Blocking *)

(** C10.  [stopBlock] has no guard: in every state it clears [isBlocking],
    sets the block cooldown to the block ability's cooldown and writes
    nothing else; repeated between ticks, it holds the cooldown at that
    value after every call, whether or not the combatant ever blocked. *)
Theorem stopBlock_unconditional (c : Char.t) :
  let full := Block.cooldown (Abilities.block (Char.abilities c)) in
  Char.isBlocking (Character_stopBlock c) = false
  /\ Char.blockCooldown (Character_stopBlock c) = full
  /\ Char.set_blockCooldown (Char.blockCooldown c)
       (Char.set_isBlocking (Char.isBlocking c) (Character_stopBlock c)) = c
  /\ (forall ticks : list Q,
        let c' :=
          fold_left
            (fun c dt => Character_stopBlock (Character_updateTimers dt c))
            ticks (Character_stopBlock c) in
        Char.blockCooldown c' = full /\ Char.isBlocking c' = false).
Proof.
  cbv zeta. split; [reflexivity|]. split; [reflexivity|].
  split; [destruct c; reflexivity|].
  intros ticks.
  assert (H : forall c0, Char.abilities c0 = Char.abilities c ->
              Char.blockCooldown c0
              = Block.cooldown (Abilities.block (Char.abilities c)) ->
              Char.isBlocking c0 = false ->
              let c' :=
                fold_left
                  (fun c dt =>
                     Character_stopBlock (Character_updateTimers dt c))
                  ticks c0 in
              Char.blockCooldown c'
              = Block.cooldown (Abilities.block (Char.abilities c))
              /\ Char.isBlocking c' = false).
  { induction ticks as [|dt rest IH]; intros c0 Hab Hcd Hb; cbn [fold_left].
    - split; assumption.
    - apply IH.
      + unfold Character_stopBlock, Character_updateTimers.
        break_if; cbn; exact Hab.
      + unfold Character_stopBlock at 1. cbn.
        unfold Character_updateTimers. break_if; cbn; rewrite Hab;
          reflexivity.
      + reflexivity. }
  apply H; reflexivity.
Qed.

(** ** The damage of a hit *)

Lemma Qmax_compat_r (a x y : Q) : x == y -> Qmax a x == Qmax a y.
Proof.
  intros H.
  destruct (Q.max_spec a x) as [[? ->]|[? ->]];
    destruct (Q.max_spec a y) as [[? ->]|[? ->]]; lra.
Qed.

Lemma stun_character {Arena : Type} target duration c (w : World.t Arena) :
  getCharacter target w = Some c ->
  getCharacter target (Character_stun target duration w)
  = Some (Char.set_stunDuration duration (Char.set_isStunned true c)).
Proof.
  intros Hc. unfold Character_stun. rewrite Hc. unfold writePhysicsBody.
  match goal with
  | |- getCharacter _ (World.set_bodies _ ?w') = _ =>
      change (getCharacter target w'
              = Some (Char.set_stunDuration duration
                        (Char.set_isStunned true c)))
  end.
  eapply getCharacter_setCharacter. exact Hc.
Qed.

Lemma stun_bodies {Arena : Type} target duration c (w : World.t Arena) :
  getCharacter target w = Some c ->
  World.bodies (Character_stun target duration w)
  = modBody (Char.id c) (fun b => Body.set_vx (Body.vx b * 0.1) b)
      (World.bodies w).
Proof. intros Hc. unfold Character_stun. rewrite Hc. reflexivity. Qed.

(** A hit that [dealDamage] resolves against a live target whose
    invulnerability timer is 0 applies
    [max(1, base * multiplier * block factor - defense)], which is at least
    1; the target's health drops by exactly that amount, clamped at 0; a
    blocking target receives no knockback impulse. *)
Lemma dealDamage_formula {Arena : Type} (self target : string)
  (ability : Ability.t) (w : World.t Arena) (this tgt : Char.t) :
  getCharacter self w = Some this ->
  getCharacter target w = Some tgt ->
  Char.invulnerabilityTime tgt == 0 ->
  Char.isDead tgt = false ->
  let damage := effectiveDamage ability this tgt in
  let w' := Character_dealDamage self target ability w in
  1 <= damage
  /\ (exists tgt',
        getCharacter target w' = Some tgt'
        /\ Char.health tgt' == Qmax 0 (Char.health tgt - damage))
  /\ (Char.isBlocking tgt = true ->
      World.bodies w' = bodiesAfterBlockedHit ability tgt (World.bodies w)).
Proof.
  intros Hthis Htgt Hinv Hdead. cbv zeta.
  split; [apply Q.le_max_l|].
  unfold Character_dealDamage. rewrite Hthis, Htgt.
  assert (Hinv' : (0 <? Char.invulnerabilityTime tgt) = false)
    by (apply Qltb_false_iff; lra).
  rewrite Hinv'.
  set (dmg := Qmax 1 _).
  assert (Hdmg : dmg == effectiveDamage ability this tgt).
  { unfold dmg, effectiveDamage. apply Qmax_compat_r.
    destruct (Char.isBlocking tgt); ring. }
  pose proof (takeDamage_character target dmg (Some self) tgt w Htgt) as Hhit.
  rewrite Hinv', Hdead in Hhit. simpl in Hhit.
  pose proof (takeDamage_bodies target dmg (Some self) w) as Hbodies.
  set (w1 := Character_takeDamage target dmg (Some self) w) in *.
  set (tgt1 := Character_setAnimation Animation.hurt _) in Hhit.
  rewrite Hhit.
  destruct (onlyAnimation_setAnimation Animation.hurt _ _
              (onlyAnimation_refl
                 (Char.set_invulnerabilityTime 0.2
                    (Char.set_health (Qmax 0 (Char.health tgt - dmg)) tgt))))
    as [a Ha].
  fold tgt1 in Ha.
  assert (Hblock : Char.isBlocking tgt1 = Char.isBlocking tgt)
    by (rewrite Ha; reflexivity).
  assert (Hid : Char.id tgt1 = Char.id tgt) by (rewrite Ha; reflexivity).
  assert (Hhealth : Char.health tgt1
                    == Qmax 0 (Char.health tgt
                               - effectiveDamage ability this tgt)).
  { rewrite Ha. simpl. apply Qmax_compat_r. rewrite Hdmg. reflexivity. }
  rewrite Hblock.
  set (w2 := match Ability.knockback ability with
             | Some _ => _
             | None => _
             end).
  assert (Hobj2 : getCharacter target w2 = Some tgt1).
  { unfold w2. destruct (Ability.knockback ability); [|exact Hhit].
    destruct (_ && _); exact Hhit. }
  assert (Hbod2 : Char.isBlocking tgt = true ->
                  World.bodies w2 = World.bodies w).
  { intros Hb. unfold w2. rewrite Hb.
    destruct (Ability.knockback ability); [|exact Hbodies].
    rewrite andb_false_r. exact Hbodies. }
  clearbody w2. unfold bodiesAfterBlockedHit, truthyOpt.
  destruct (Ability.stun ability) as [duration|].
  - destruct (truthy duration).
    + split.
      * eexists. split; [apply (stun_character _ _ _ _ Hobj2)|].
        simpl. exact Hhealth.
      * intros Hb. rewrite (stun_bodies _ _ _ _ Hobj2), Hid, (Hbod2 Hb).
        reflexivity.
    + split; [eexists; split; [exact Hobj2 | exact Hhealth] | exact Hbod2].
  - split; [eexists; split; [exact Hobj2 | exact Hhealth] | exact Hbod2].
Qed.

Section Hits.

Context {Arena : Type}.

Implicit Types w : World.t Arena.

Lemma getGameObject_addGameObject id obj w :
  getGameObject id (addGameObject id obj w) = Some obj.
Proof.
  unfold getGameObject, addGameObject. cbn [World.gameObjects
                                            World.set_gameObjects].
  induction (World.gameObjects w) as [|kv rest IH]; simpl.
  - rewrite String.eqb_refl. reflexivity.
  - destruct (String.eqb (fst kv) id) eqn:E; simpl.
    + rewrite String.eqb_refl. reflexivity.
    + rewrite E. exact IH.
Qed.

Lemma find_filter_out (id other : string)
  (objs : list (string * GameObject Arena)) :
  find (fun kv => String.eqb (fst kv) other)
    (filter (fun kv => negb (String.eqb (fst kv) id)) objs)
  = if String.eqb other id then None
    else find (fun kv => String.eqb (fst kv) other) objs.
Proof.
  induction objs as [|kv rest IH]; simpl.
  - destruct (String.eqb other id); reflexivity.
  - destruct (String.eqb (fst kv) id) eqn:E; simpl; rewrite IH.
    + destruct (String.eqb other id) eqn:E'; [reflexivity|].
      replace (String.eqb (fst kv) other) with false; [reflexivity|].
      symmetry. apply String.eqb_neq. apply String.eqb_eq in E.
      apply String.eqb_neq in E'. congruence.
    + destruct (String.eqb (fst kv) other) eqn:E'; [|reflexivity].
      replace (String.eqb other id) with false; [reflexivity|].
      symmetry. apply String.eqb_neq. apply String.eqb_eq in E'.
      apply String.eqb_neq in E. congruence.
Qed.

Lemma getGameObject_map_other (f : string * GameObject Arena
                                   -> string * GameObject Arena)
  id (objs : list (string * GameObject Arena)) :
  (forall kv, fst (f kv) = fst kv) ->
  (forall kv, String.eqb (fst kv) id = true -> f kv = kv) ->
  find (fun kv => String.eqb (fst kv) id) (map f objs)
  = find (fun kv => String.eqb (fst kv) id) objs.
Proof.
  intros Hk Hid.
  induction objs as [|kv rest IH]; [reflexivity|]. simpl.
  rewrite Hk. destruct (String.eqb (fst kv) id) eqn:E.
  - rewrite (Hid kv E). reflexivity.
  - exact IH.
Qed.

Lemma getGameObject_setCharacter_other self id c w :
  id <> self ->
  getGameObject id (setCharacter self c w) = getGameObject id w.
Proof.
  intros Hne. unfold getGameObject, setCharacter.
  cbn [World.gameObjects World.set_gameObjects].
  rewrite getGameObject_map_other; [reflexivity | |].
  - intros kv. destruct (String.eqb (fst kv) self); reflexivity.
  - intros kv E. apply String.eqb_eq in E.
    replace (String.eqb (fst kv) self) with false; [reflexivity|].
    symmetry. apply String.eqb_neq. congruence.
Qed.

Lemma takeDamage_other_object self amount attacker id w :
  id <> self ->
  getGameObject id (Character_takeDamage self amount attacker w)
  = getGameObject id w.
Proof.
  intros Hne. unfold Character_takeDamage.
  destruct (getCharacter self w); [|reflexivity].
  destruct (_ || _); [reflexivity|].
  unfold getGameObject at 1.
  rewrite handleCharacterDamaged_gameObjects.
  apply getGameObject_setCharacter_other. exact Hne.
Qed.

(** The flight of a projectile writes to the projectile only. *)
Lemma flight_getGameObject key p p' id w :
  getGameObject key w = Some (GProjectile p) ->
  getGameObject id
    (World.set_gameObjects
       (map (fun kv => if String.eqb (fst kv) key
                       then (fst kv, GProjectile p') else kv)
          (World.gameObjects w))
       w)
  = if String.eqb id key then Some (GProjectile p') else getGameObject id w.
Proof.
  intros H. unfold getGameObject in *.
  cbn [World.gameObjects World.set_gameObjects].
  destruct (String.eqb id key) eqn:E.
  - apply String.eqb_eq in E. subst id.
    induction (World.gameObjects w) as [|kv rest IH]; [discriminate|].
    cbn [map find] in *.
    destruct (String.eqb (fst kv) key) eqn:E; cbn [fst].
    + rewrite E. reflexivity.
    + rewrite E. apply IH. exact H.
  - rewrite getGameObject_map_other; [reflexivity | |].
    + intros kv. destruct (String.eqb (fst kv) key); reflexivity.
    + intros kv E'. apply String.eqb_eq in E'. subst id.
      rewrite E. reflexivity.
Qed.

Lemma flight_getCharacter key p p' id w :
  getGameObject key w = Some (GProjectile p) ->
  getCharacter id
    (World.set_gameObjects
       (map (fun kv => if String.eqb (fst kv) key
                       then (fst kv, GProjectile p') else kv)
          (World.gameObjects w))
       w)
  = getCharacter id w.
Proof.
  intros H. unfold getCharacter. rewrite (flight_getGameObject key p p' id w H).
  destruct (String.eqb id key) eqn:E; [|reflexivity].
  apply String.eqb_eq in E. rewrite E, H. reflexivity.
Qed.

Variable Arena_destroy : Arena -> World.t Arena -> World.t Arena.

(** Removing what is registered under a key that names nothing but a
    projectile takes nothing from the characters and the bodies. *)
Lemma removeGameObject_projectile key w :
  projectileOrNone key w ->
  (forall id, getCharacter id (removeGameObject Arena_destroy key w)
              = getCharacter id w)
  /\ World.bodies (removeGameObject Arena_destroy key w) = World.bodies w
  /\ getGameObject key (removeGameObject Arena_destroy key w) = None.
Proof.
  unfold projectileOrNone, removeGameObject. intros H.
  assert (Hw : match getGameObject key w with
               | Some (GCharacter c) => Character_destroy c w
               | Some (GArena a) => Arena_destroy a w
               | _ => w
               end = w)
    by (destruct (getGameObject key w) as [[c|q|a]|];
        first [reflexivity | contradiction]).
  rewrite Hw.
  unfold getCharacter, getGameObject in *.
  cbn [World.gameObjects World.set_gameObjects World.bodies].
  split; [|split; [reflexivity|]].
  - intros id. rewrite find_filter_out.
    destruct (String.eqb id key) eqn:E; [|reflexivity].
    apply String.eqb_eq in E. subst id.
    destruct (find _ (World.gameObjects w)) as [[k [c|q|a]]|];
      first [reflexivity | contradiction].
  - rewrite find_filter_out, String.eqb_refl. reflexivity.
Qed.

End Hits.

(** A projectile that reaches a combatant calls its [takeDamage] with the
    damage it carries. *)
Lemma Projectile_update_hit {Arena : Type}
  (Arena_destroy : Arena -> World.t Arena -> World.t Arena)
  (key : string) (p : Projectile.t) (dt : Q) (now : Z) (hit : Body.t)
  (tgt : Char.t) (w : World.t Arena) :
  getGameObject key w = Some (GProjectile p) ->
  projectileOrNone (projectileKey now) w ->
  projectileTarget (flown dt p) w = Some hit ->
  getCharacter (Body.id hit) w = Some tgt ->
  let w' := Projectile_update Arena_destroy key p dt now w in
  getCharacter (Body.id hit) w'
  = Some
      (if (0 <? Char.invulnerabilityTime tgt) || Char.isDead tgt then tgt
       else
         Character_setAnimation Animation.hurt
           (Char.set_invulnerabilityTime 0.2
              (Char.set_health
                 (Qmax 0 (Char.health tgt - Projectile.damage p)) tgt)))
  /\ World.bodies w' = World.bodies w.
Proof.
  intros Hkey Hnow Hhit Htgt. cbv zeta.
  unfold Projectile_update. cbv zeta. fold (flown dt p).
  set (w1 := World.set_gameObjects _ w).
  assert (Hc1 : forall id, getCharacter id w1 = getCharacter id w)
    by (intros id; apply (flight_getCharacter key p (flown dt p) id w Hkey)).
  assert (Hn1 : projectileOrNone (projectileKey now) w1).
  { unfold projectileOrNone, w1.
    rewrite (flight_getGameObject key p (flown dt p) _ w Hkey).
    destruct (String.eqb (projectileKey now) key); [exact I | exact Hnow]. }
  set (w2 := if Projectile.life (flown dt p) <=? 0
             then removeGameObject Arena_destroy (projectileKey now) w1
             else w1).
  assert (H2 : (forall id, getCharacter id w2 = getCharacter id w)
               /\ World.bodies w2 = World.bodies w
               /\ projectileOrNone (projectileKey now) w2).
  { unfold w2. destruct (_ <=? 0).
    - destruct (removeGameObject_projectile Arena_destroy _ w1 Hn1)
        as (Rc & Rb & Rn).
      split; [intros id; rewrite Rc; apply Hc1|].
      split; [rewrite Rb; reflexivity|].
      unfold projectileOrNone. rewrite Rn. exact I.
    - split; [exact Hc1|]. split; [reflexivity | exact Hn1]. }
  clearbody w2. destruct H2 as (Hc2 & Hb2 & Hn2).
  assert (Hfind : find
                    (fun target =>
                       match getCharacter (Body.id target) w2 with
                       | Some _ =>
                           negb (String.eqb (Body.id target)
                                   (Projectile.owner (flown dt p)))
                       | None => false
                       end)
                    (getBodiesInRadius (Projectile.x (flown dt p))
                       (Projectile.y (flown dt p))
                       (Projectile.size (flown dt p))
                       (Some "character"%string) (World.bodies w2))
                  = Some hit).
  { rewrite Hb2, <- Hhit. unfold projectileTarget.
    generalize (getBodiesInRadius (Projectile.x (flown dt p))
                  (Projectile.y (flown dt p)) (Projectile.size (flown dt p))
                  (Some "character"%string) (World.bodies w)).
    intros l. induction l as [|b rest IH]; [reflexivity|].
    cbn [find]. rewrite Hc2, IH. reflexivity. }
  rewrite Hfind.
  set (w3 := Character_takeDamage _ _ _ w2).
  assert (Ht2 : getCharacter (Body.id hit) w2 = Some tgt)
    by (rewrite Hc2; exact Htgt).
  assert (Hne : projectileKey now <> Body.id hit).
  { intros E. unfold projectileOrNone in Hn2. unfold getCharacter in Ht2.
    rewrite <- E in Ht2.
    destruct (getGameObject (projectileKey now) w2) as [[c|q|a]|];
      first [discriminate Ht2 | contradiction]. }
  assert (Hn3 : projectileOrNone (projectileKey now) w3).
  { unfold projectileOrNone, w3.
    rewrite takeDamage_other_object; [exact Hn2 | exact Hne]. }
  destruct (removeGameObject_projectile Arena_destroy _ w3 Hn3)
    as (Rc & Rb & _).
  rewrite Rc, Rb. unfold w3. split.
  - apply takeDamage_character. exact Ht2.
  - rewrite takeDamage_bodies. exact Hb2.
Qed.

(** C1, amended.  A hit that [dealDamage] resolves (the hits of [attack]:
    light and heavy attacks, [shadowStrike], [shieldBash]) against a live
    target whose invulnerability timer is 0 applies
    [max(1, base * multiplier * block factor - defense)], which is at least
    1; the target's health drops by exactly that amount, clamped at 0; a
    blocking target receives no knockback impulse.  A projectile does not
    go through [dealDamage]: when it reaches the target it calls
    [takeDamage] with the damage it carries, which [createProjectile] set
    to the base damage of the ability, so the health drops by the base
    damage, clamped at 0, whatever the multiplier, the block and the
    defense, and no body is written to. *)
Theorem hit_damage_melee_and_projectile {Arena : Type}
  (Arena_destroy : Arena -> World.t Arena -> World.t Arena)
  (self target : string) (w : World.t Arena) (this tgt : Char.t) :
  getCharacter self w = Some this ->
  getCharacter target w = Some tgt ->
  Char.invulnerabilityTime tgt == 0 ->
  Char.isDead tgt = false ->
  (forall ability,
     let damage := effectiveDamage ability this tgt in
     let w' := Character_dealDamage self target ability w in
     1 <= damage
     /\ (exists tgt',
           getCharacter target w' = Some tgt'
           /\ Char.health tgt' == Qmax 0 (Char.health tgt - damage))
     /\ (Char.isBlocking tgt = true ->
         World.bodies w'
         = bodiesAfterBlockedHit ability tgt (World.bodies w)))
  /\ (forall key p dt now hit,
        getGameObject key w = Some (GProjectile p) ->
        projectileOrNone (projectileKey now) w ->
        projectileTarget (flown dt p) w = Some hit ->
        Body.id hit = target ->
        let w' := Projectile_update Arena_destroy key p dt now w in
        (exists tgt',
           getCharacter target w' = Some tgt'
           /\ Char.health tgt'
              == Qmax 0 (Char.health tgt - Projectile.damage p))
        /\ World.bodies w' = World.bodies w)
  /\ (forall ability now,
        exists p,
          getGameObject (projectileKey now)
            (Character_createProjectile this ability now w)
          = Some (GProjectile p)
          /\ Projectile.damage p = Ability.damage ability
          /\ Projectile.owner p = Char.id this).
Proof.
  intros Hthis Htgt Hinv Hdead. split; [|split].
  - intros ability.
    exact (dealDamage_formula self target ability w this tgt
             Hthis Htgt Hinv Hdead).
  - intros key p dt now hit Hkey Hnow Hhit Hid. cbv zeta. subst target.
    destruct (Projectile_update_hit Arena_destroy key p dt now hit tgt w
                Hkey Hnow Hhit Htgt) as [Hc Hb].
    split; [|exact Hb].
    assert (Hinv' : (0 <? Char.invulnerabilityTime tgt) = false)
      by (apply Qltb_false_iff; lra).
    rewrite Hinv', Hdead in Hc. cbn [orb] in Hc.
    eexists. split; [exact Hc|].
    destruct (setAnimation_frame Animation.hurt
                (Char.set_invulnerabilityTime 0.2
                   (Char.set_health
                      (Qmax 0 (Char.health tgt - Projectile.damage p)) tgt)))
      as [-> _].
    reflexivity.
  - intros ability now. eexists. split; [|split].
    + unfold Character_createProjectile. apply getGameObject_addGameObject.
    + reflexivity.
    + reflexivity.
Qed.

Lemma hit_damage_melee_and_projectile_witness :
  (exists tgt',
     getCharacter "opponent"
       (Character_dealDamage "player" "opponent"
          (Abilities.lightAttack (Char.abilities flightMage)) beforeHit)
     = Some tgt'
     /\ Char.health tgt' == 100 - 5.4)
  /\ (exists tgt',
        getCharacter "opponent"
          (Projectile_update noArena_destroy (projectileKey 1000)
             fireballInFlight (1 / 30) 1016 beforeHit)
        = Some tgt'
        /\ Char.health tgt' == 100 - 25).
Proof.
  assert (Hp : getCharacter "player" beforeHit = Some flightMage)
    by (vm_compute; reflexivity).
  assert (Ho : getCharacter "opponent" beforeHit = Some blockingKnight)
    by (vm_compute; reflexivity).
  assert (Hinv : Char.invulnerabilityTime blockingKnight == 0)
    by reflexivity.
  assert (Hdead : Char.isDead blockingKnight = false) by reflexivity.
  destruct (hit_damage_melee_and_projectile noArena_destroy
              "player" "opponent" beforeHit flightMage
              blockingKnight Hp Ho Hinv Hdead) as (Hmelee & Hproj & _).
  split.
  - destruct (Hmelee (Abilities.lightAttack (Char.abilities flightMage)))
      as (_ & (tgt' & Hc & Hh) & _).
    exists tgt'. split; [exact Hc|]. rewrite Hh. vm_compute. reflexivity.
  - assert (Hkey : getGameObject (projectileKey 1000) beforeHit
                   = Some (GProjectile fireballInFlight))
      by (vm_compute; reflexivity).
    assert (Hnow : projectileOrNone (projectileKey 1016) beforeHit)
      by (vm_compute; exact I).
    destruct (getBody "opponent" (World.bodies beforeHit))
      as [hit|] eqn:Hb; [|vm_compute in Hb; discriminate].
    assert (Hhit : projectileTarget (flown (1 / 30) fireballInFlight)
                     beforeHit = Some hit)
      by (vm_compute in Hb; injection Hb as <-; vm_compute; reflexivity).
    assert (Hid : Body.id hit = "opponent"%string)
      by (vm_compute in Hb; injection Hb as <-; reflexivity).
    destruct (Hproj (projectileKey 1000) fireballInFlight (1 / 30) 1016%Z hit
                Hkey Hnow Hhit Hid) as ((tgt' & Hc & Hh) & _).
    exists tgt'. split; [exact Hc|]. rewrite Hh. vm_compute. reflexivity.
Defined.

(** C1 as stated fails.  The mage casts its fireball at the blocking
    knight; at the 44th tick the projectile reaches the knight, whose
    invulnerability timer is 0.  The formula gives
    [max(1, 25 * 1 * (1 - 0.7) - 0) = 7.5]; the knight's health drops from
    100 to 75, by the base damage. *)
Lemma fireball_ignores_block_counterexample :
  match getCharacter "player" beforeHit,
        getCharacter "opponent" beforeHit,
        getCharacter "opponent"
          (GameEngine_update noArena_update noArena_destroy (1 / 30) 1016
             beforeHit) with
  | Some attacker, Some before, Some after =>
      match Abilities.fireball (Char.abilities attacker) with
      | Some ability =>
          Char.isBlocking before = true
          /\ Char.invulnerabilityTime before == 0
          /\ Char.isDead before = false
          /\ effectiveDamage ability attacker before == 7.5
          /\ Char.health before == 100
          /\ Char.health after == 75
      | None => False
      end
  | _, _, _ => False
  end.
Proof. vm_compute. repeat split. Qed.

(** ** Death *)

(** C3, amended.  Once [die] has run, which is at the first tick after the
    health reached 0, [takeDamage], [move], the three attacks, [startBlock],
    [dash], [heal] and the tick [update] leave the combatant and the rest
    of the world as they are, and the calls that report a result report a
    refusal. *)
Theorem dead_combatant_is_inert {Arena : Type} (self : string)
  (c : Char.t) (w : World.t Arena) :
  getCharacter self w = Some c ->
  Char.isDead c = true ->
  (forall amount attacker, Character_takeDamage self amount attacker w = w)
  /\ (forall dx dy, Character_move self dx dy w = w)
  /\ Character_lightAttack self w = (false, w)
  /\ Character_heavyAttack self w = (false, w)
  /\ (forall now, Character_specialAttack self now w = (false, w))
  /\ (forall dx dy, Character_dash self dx dy w = (false, w))
  /\ Character_startBlock c = (false, c)
  /\ (forall amount, Character_heal amount c = c)
  /\ (forall dt, Character_update self dt w = w).
Proof.
  intros Hc Hd.
  unfold Character_takeDamage, Character_move, Character_lightAttack,
    Character_heavyAttack, Character_specialAttack, Character_dash,
    Character_startBlock, Character_heal, Character_update.
  rewrite Hc, Hd, !orb_true_r. repeat split.
Qed.

Lemma dead_combatant_is_inert_witness :
  Character_move "player" 1 0 diedBlocking = diedBlocking
  /\ Character_lightAttack "player" diedBlocking = (false, diedBlocking).
Proof.
  destruct (getCharacter "player" diedBlocking) as [c|] eqn:Hc;
    [|vm_compute in Hc; discriminate].
  assert (Hd : Char.isDead c = true)
    by (vm_compute in Hc; injection Hc as <-; reflexivity).
  destruct (dead_combatant_is_inert "player" c diedBlocking Hc Hd)
    as (_ & Hmove & Hlight & _).
  split; [apply Hmove | exact Hlight].
Defined.

(** C3 as stated fails.  After a hit has taken the health to 0 and
    before the next tick, [move] is still accepted and changes the
    velocity; and on a combatant that died blocking, [stopBlock] still
    clears [isBlocking]. *)
Lemma death_is_terminal_counterexample :
  match getCharacter "player" fatalHit,
        getBody "player" (World.bodies fatalHit),
        getBody "player"
          (World.bodies (Character_move "player" 1 0 fatalHit)) with
  | Some c, Some before, Some after =>
      Char.health c == 0 /\ Body.vx before == 0 /\ Body.vx after == 200
  | _, _, _ => False
  end
  /\ match getCharacter "player" diedBlocking,
           getCharacter "player"
             (call "player" Character_stopBlock diedBlocking) with
     | Some before, Some after =>
         Char.isDead before = true /\ Char.health before == 0
         /\ Char.isBlocking before = true /\ Char.isBlocking after = false
     | _, _ => False
     end.
Proof. vm_compute. repeat split. Qed.

(** ** Separation of a solid pair *)

Lemma applyCollisionResponse_position (a b : Body.t) (c : Collision.t) :
  let r := applyCollisionResponse a b c in
  Body.x (fst r) = Body.x a /\ Body.y (fst r) = Body.y a
  /\ Body.x (snd r) = Body.x b /\ Body.y (snd r) = Body.y b.
Proof.
  cbv zeta. unfold applyCollisionResponse.
  repeat break_if; simpl; auto.
Qed.

Lemma separateBodies_static (a b : Body.t) (c : Collision.t) :
  (Body.isStatic a = true -> fst (separateBodies a b c) = a)
  /\ (Body.isStatic b = true -> snd (separateBodies a b c) = b).
Proof.
  unfold separateBodies. split; intros ->; reflexivity.
Qed.

Lemma separateBodies_moving (a b : Body.t) (c : Collision.t) :
  (Body.isStatic a = false ->
   Body.x (fst (separateBodies a b c))
   == Body.x a - separationShare a b * Collision.overlap c
                 * Collision.normalX c
   /\ Body.y (fst (separateBodies a b c))
      == Body.y a - separationShare a b * Collision.overlap c
                    * Collision.normalY c)
  /\ (Body.isStatic b = false ->
      Body.x (snd (separateBodies a b c))
      == Body.x b + separationShare b a * Collision.overlap c
                    * Collision.normalX c
      /\ Body.y (snd (separateBodies a b c))
         == Body.y b + separationShare b a * Collision.overlap c
                       * Collision.normalY c).
Proof.
  unfold separateBodies, separationShare.
  split; intros ->; cbn [fst snd negb]; destruct (Body.isStatic _);
    cbn [Body.x Body.y Body.set_x Body.set_y];
    split; try ring;
    rewrite (Qplus_comm (Body.mass b) (Body.mass a)); ring.
Qed.

(** Registering the contact changes no position, mass or static flag. *)
Lemma separateBodies_collidingWith (a b : Body.t) (c : Collision.t) la lb :
  let r := separateBodies (Body.set_collidingWith la a)
             (Body.set_collidingWith lb b) c in
  let r0 := separateBodies a b c in
  Body.x (fst r) = Body.x (fst r0) /\ Body.y (fst r) = Body.y (fst r0)
  /\ Body.x (snd r) = Body.x (snd r0) /\ Body.y (snd r) = Body.y (snd r0).
Proof.
  cbv zeta. unfold separateBodies.
  cbn [Body.isStatic Body.set_collidingWith Body.mass Body.x Body.y].
  destruct (Body.isStatic a), (Body.isStatic b); repeat split.
Qed.

(** The positions [resolveCollision] leaves are those [separateBodies]
    computes. *)
Lemma resolveCollision_positions (a b : Body.t) :
  Body.isTrigger a = false ->
  Body.isTrigger b = false ->
  Body.isStatic a && Body.isStatic b = false ->
  0 < Collision.overlap (calculateCollisionData a b) ->
  let c := calculateCollisionData a b in
  let r0 := separateBodies a b c in
  Body.x (resolvedA a b) = Body.x (fst r0)
  /\ Body.y (resolvedA a b) = Body.y (fst r0)
  /\ Body.x (resolvedB a b) = Body.x (snd r0)
  /\ Body.y (resolvedB a b) = Body.y (snd r0).
Proof.
  intros Ha Hb Hs Hov. cbv zeta.
  unfold resolvedA, resolvedB, resolveCollision.
  rewrite Ha, Hb, Hs. cbn [orb].
  assert (Hov' : (0 <? Collision.overlap (calculateCollisionData a b)) = true)
    by (apply Qltb_true_iff; exact Hov).
  destruct (negb (has (Body.id b) (Body.collidingWith a))).
  - change (calculateCollisionData (Body.set_collidingWith _ a)
              (Body.set_collidingWith _ b))
      with (calculateCollisionData a b).
    rewrite Hov'.
    match goal with
    | |- context [separateBodies (Body.set_collidingWith ?la a)
                    (Body.set_collidingWith ?lb b) ?c] =>
        destruct (separateBodies_collidingWith a b c la lb)
          as (E1 & E2 & E3 & E4);
        destruct (separateBodies (Body.set_collidingWith la a)
                    (Body.set_collidingWith lb b) c) as [a1 b1]
    end.
    destruct (applyCollisionResponse_position a1 b1
                (calculateCollisionData a b)) as (P1 & P2 & P3 & P4).
    destruct (applyCollisionResponse a1 b1 (calculateCollisionData a b))
      as [a2 b2].
    cbn [fst snd] in *. rewrite P1, P2, P3, P4. auto.
  - rewrite Hov'.
    destruct (separateBodies a b (calculateCollisionData a b)) as [a1 b1].
    destruct (applyCollisionResponse_position a1 b1
                (calculateCollisionData a b)) as (P1 & P2 & P3 & P4).
    destruct (applyCollisionResponse a1 b1 (calculateCollisionData a b))
      as [a2 b2].
    cbn [fst snd] in *. auto.
Qed.

(** Halves, in the form linear arithmetic reads. *)
Ltac halves := unfold Qdiv in *; change (/ 2) with (1 # 2) in *.

(** Overlapping rectangles overlap by a positive amount on both axes. *)
Lemma checkRectangleCollision_overlaps (a b : Body.t) :
  checkRectangleCollision a b = true ->
  Qabs (Body.x b + Body.width b / 2 - (Body.x a + Body.width a / 2))
  < (Body.width a + Body.width b) / 2
  /\ Qabs (Body.y b + Body.height b / 2 - (Body.y a + Body.height a / 2))
     < (Body.height a + Body.height b) / 2.
Proof.
  unfold checkRectangleCollision. intros H.
  apply andb_true_iff in H. destruct H as [H H4].
  apply andb_true_iff in H. destruct H as [H H3].
  apply andb_true_iff in H. destruct H as [H H1'].
  apply Qltb_true_iff in H, H1', H3, H4.
  split; apply Qabs_Qlt_condition; split; halves; lra.
Qed.

(** [calculateCollisionData] returns the minimum translation of an
    overlapping pair: the lesser of the two penetrations, along its axis,
    in the direction from the centre of A to the centre of B. *)
Lemma calculateCollisionData_minimum (a b : Body.t) :
  checkRectangleCollision a b = true ->
  let c := calculateCollisionData a b in
  let dx := centreX b - centreX a in
  let dy := centreY b - centreY a in
  let px := penetration (Body.width a) (Body.width b) dx in
  let py := penetration (Body.height a) (Body.height b) dy in
  0 < px /\ 0 < py /\ 0 < Collision.overlap c
  /\ (px < py ->
      Collision.overlap c = px /\ Collision.normalY c = 0
      /\ (dx < 0 -> Collision.normalX c = -1)
      /\ (0 <= dx -> Collision.normalX c = 1))
  /\ (py <= px ->
      Collision.overlap c = py /\ Collision.normalX c = 0
      /\ (dy < 0 -> Collision.normalY c = -1)
      /\ (0 <= dy -> Collision.normalY c = 1)).
Proof.
  intros Hc. cbv zeta.
  destruct (checkRectangleCollision_overlaps a b Hc) as [Hx Hy].
  unfold calculateCollisionData, penetration, centreX, centreY.
  set (dx := Body.x b + Body.width b / 2 - (Body.x a + Body.width a / 2))
    in *.
  set (dy := Body.y b + Body.height b / 2 - (Body.y a + Body.height a / 2))
    in *.
  set (px := (Body.width a + Body.width b) / 2 - Qabs dx).
  set (py := (Body.height a + Body.height b) / 2 - Qabs dy).
  assert (Hpx : 0 < px) by (unfold px; lra).
  assert (Hpy : 0 < py) by (unfold py; lra).
  split; [exact Hpx|]. split; [exact Hpy|].
  destruct (px <? py) eqn:E;
    [apply Qltb_true_iff in E | apply Qltb_false_iff in E];
    cbn [Collision.overlap Collision.normalX Collision.normalY].
  - split; [exact Hpx|]. split; [|intros H; exfalso; lra].
    intros _. split; [reflexivity|]. split; [reflexivity|].
    split; intros H.
    + apply Qltb_true_iff in H. rewrite H. reflexivity.
    + apply Qltb_false_iff in H. rewrite H. reflexivity.
  - split; [exact Hpy|]. split; [intros H; exfalso; lra|].
    intros _. split; [reflexivity|]. split; [reflexivity|].
    split; intros H.
    + apply Qltb_true_iff in H. rewrite H. reflexivity.
    + apply Qltb_false_iff in H. rewrite H. reflexivity.
Qed.

(** C6.  When a solid overlapping pair is resolved, body A moves against
    the collision normal by [mB / (mA + mB)] of the overlap and body B
    along it by [mA / (mA + mB)] of the overlap; a static body does not
    move, and the body facing a static one moves by the whole overlap.  The
    normal and the overlap are the minimum translation: the overlap is the
    lesser of the penetrations along the two axes, and the normal the unit
    vector of that axis (the vertical one when they are equal) that points
    from the centre of A to the centre of B. *)
Theorem solid_pair_separation (bodyA bodyB : Body.t) :
  Body.isTrigger bodyA = false ->
  Body.isTrigger bodyB = false ->
  checkRectangleCollision bodyA bodyB = true ->
  ~ Body.mass bodyA + Body.mass bodyB == 0 ->
  let c := calculateCollisionData bodyA bodyB in
  let a' := resolvedA bodyA bodyB in
  let b' := resolvedB bodyA bodyB in
  let dx := centreX bodyB - centreX bodyA in
  let dy := centreY bodyB - centreY bodyA in
  let px := penetration (Body.width bodyA) (Body.width bodyB) dx in
  let py := penetration (Body.height bodyA) (Body.height bodyB) dy in
  (0 < px /\ 0 < py
   /\ (px < py ->
       Collision.overlap c = px /\ Collision.normalY c = 0
       /\ (dx < 0 -> Collision.normalX c = -1)
       /\ (0 <= dx -> Collision.normalX c = 1))
   /\ (py <= px ->
       Collision.overlap c = py /\ Collision.normalX c = 0
       /\ (dy < 0 -> Collision.normalY c = -1)
       /\ (0 <= dy -> Collision.normalY c = 1)))
  /\ (Body.isStatic bodyA = true ->
      Body.x a' = Body.x bodyA /\ Body.y a' = Body.y bodyA)
  /\ (Body.isStatic bodyB = true ->
      Body.x b' = Body.x bodyB /\ Body.y b' = Body.y bodyB)
  /\ (Body.isStatic bodyA = false ->
      Body.x a' == Body.x bodyA
                   - separationShare bodyA bodyB * Collision.overlap c
                     * Collision.normalX c
      /\ Body.y a' == Body.y bodyA
                      - separationShare bodyA bodyB * Collision.overlap c
                        * Collision.normalY c)
  /\ (Body.isStatic bodyB = false ->
      Body.x b' == Body.x bodyB
                   + separationShare bodyB bodyA * Collision.overlap c
                     * Collision.normalX c
      /\ Body.y b' == Body.y bodyB
                      + separationShare bodyB bodyA * Collision.overlap c
                        * Collision.normalY c).
Proof.
  intros HtA HtB Hcol Hmass. cbv zeta.
  destruct (calculateCollisionData_minimum bodyA bodyB Hcol)
    as (Hpx & Hpy & Hov & Hx & Hy).
  split; [repeat split; first [assumption | apply Hx | apply Hy]; assumption|].
  destruct (Body.isStatic bodyA && Body.isStatic bodyB) eqn:Hs.
  - apply andb_true_iff in Hs. destruct Hs as [HsA HsB].
    unfold resolvedA, resolvedB, resolveCollision.
    rewrite HtA, HtB, HsA, HsB. cbn [orb andb fst snd].
    split; [intros _; split; reflexivity|].
    split; [intros _; split; reflexivity|].
    split; intros H; discriminate.
  - destruct (resolveCollision_positions bodyA bodyB HtA HtB Hs Hov)
      as (E1 & E2 & E3 & E4).
    rewrite E1, E2, E3, E4.
    destruct (separateBodies_static bodyA bodyB
                (calculateCollisionData bodyA bodyB)) as [SA SB].
    destruct (separateBodies_moving bodyA bodyB
                (calculateCollisionData bodyA bodyB)) as [MA MB].
    split; [intros H; rewrite (SA H); split; reflexivity|].
    split; [intros H; rewrite (SB H); split; reflexivity|].
    split; assumption.
Qed.

Lemma solid_pair_separation_witness :
  Collision.overlap (calculateCollisionData lightBox heavyBox) == 10
  /\ Collision.normalX (calculateCollisionData lightBox heavyBox) = 1
  /\ Body.x (resolvedA lightBox heavyBox) == 10 - 15 / 2
  /\ Body.x (resolvedB lightBox heavyBox) == 40 + 5 / 2.
Proof.
  assert (Hmass : ~ Body.mass lightBox + Body.mass heavyBox == 0)
    by (vm_compute; discriminate).
  destruct (solid_pair_separation lightBox heavyBox eq_refl eq_refl
              eq_refl Hmass) as ((_ & _ & Hx & _) & _ & _ & HA & HB).
  destruct Hx as (Hov & _ & _ & Hn); [vm_compute; reflexivity|].
  destruct (HA eq_refl) as [HAx _]. destruct (HB eq_refl) as [HBx _].
  split; [rewrite Hov; vm_compute; reflexivity|].
  split; [apply Hn; vm_compute; discriminate|].
  split; [rewrite HAx | rewrite HBx]; vm_compute; reflexivity.
Defined.

(** C7, at the failing input.  The crate enters the zone (the callback
    fires), is moved out for a tick (nothing fires, nothing overlaps) and
    is moved back in: the third tick fires nothing, because no tick removes
    the crate from the zone's [collidingWith].  Had [cleanupCollisions] run
    while they were apart, the third tick would have fired again. *)
Theorem trigger_enter_not_refired_after_separation (pow : Q -> Q -> Q) :
  let step := PhysicsEngine_update pow 980 (1 / 30) in
  let tick1 := step [zone; crate] in
  let apart := moveTo 300 "crate" (fst tick1) in
  let tick2 := step apart in
  let back := moveTo 120 "crate" (fst tick2) in
  let tick3 := step back in
  fired tick1 = [TriggerEnter "zone" "crate"]
  /\ fired tick2 = []
  /\ checkCollisions apart = (apart, [])
  /\ map (fun b => checkCollision zone b) back = [true; true]
  /\ fired tick3 = []
  /\ fired (step (moveTo 120 "crate"
                    (fst (step (fst (cleanupCollisions apart))))))
     = [TriggerEnter "zone" "crate"].
Proof. vm_compute. repeat split. Qed.

(** ** The countdown *)

Lemma getCharacter_Some {Arena : Type} id c (w : World.t Arena) :
  getCharacter id w = Some c -> getGameObject id w = Some (GCharacter c).
Proof.
  unfold getCharacter. destruct (getGameObject id w) as [[c'| |]|];
    congruence.
Qed.

Lemma handleBattleEnd_active {Arena : Type} winner (w : World.t Arena) :
  Battle.isActive (World.battle w) = true ->
  let result :=
    match winner with
    | Some Winner.player => victory
    | Some Winner.opponent => defeat
    | _ => draw
    end in
  let w' := BattleSystem_handleBattleEnd winner w in
  Battle.isActive (World.battle w') = false
  /\ Battle.battleResult (World.battle w') = Some result
  /\ Battle.completed (World.battle w')
     = Battle.completed (World.battle w) ++ [result]
  /\ GameState.winner (World.gameState w')
     = GameState.winner (World.gameState w)
  /\ GameState.timeRemaining (World.gameState w')
     = GameState.timeRemaining (World.gameState w)
  /\ GameState.isPlaying (World.gameState w') = false
  /\ World.isRunning w' = false.
Proof.
  intros Hact. cbv zeta. unfold BattleSystem_handleBattleEnd.
  rewrite Hact. cbn [negb].
  destruct winner as [[| |]|]; unfold BattleSystem_endBattle;
    rewrite Hact; cbn; repeat split.
Qed.

(** C8.  When the countdown reaches 0 in a running match, the match ends:
    the combatant with strictly more health wins, and the result is a draw
    exactly when the two healths are equal. *)
Theorem countdown_expiry_outcome {Arena : Type} (deltaTime : Q)
  (w : World.t Arena) (thePlayer theOpponent : Char.t) :
  GameState.isPlaying (World.gameState w) = true ->
  Battle.isActive (World.battle w) = true ->
  0 < GameState.timeRemaining (World.gameState w) ->
  GameState.timeRemaining (World.gameState w) - deltaTime <= 0 ->
  getCharacter "player" w = Some thePlayer ->
  getCharacter "opponent" w = Some theOpponent ->
  let hp := Char.health thePlayer in
  let ho := Char.health theOpponent in
  let w' := updateGameTimer deltaTime w in
  GameState.timeRemaining (World.gameState w') = 0
  /\ GameState.isPlaying (World.gameState w') = false
  /\ Battle.isActive (World.battle w') = false
  /\ World.isRunning w' = false
  /\ GameState.winner (World.gameState w')
     = Some (fst (outcomeByHealth hp ho))
  /\ Battle.battleResult (World.battle w')
     = Some (snd (outcomeByHealth hp ho))
  /\ Battle.completed (World.battle w')
     = Battle.completed (World.battle w) ++ [snd (outcomeByHealth hp ho)]
  /\ (ho < hp -> outcomeByHealth hp ho = (Winner.player, victory))
  /\ (hp < ho -> outcomeByHealth hp ho = (Winner.opponent, defeat))
  /\ (hp == ho <-> outcomeByHealth hp ho = (Winner.draw, draw)).
Proof.
  intros Hplay Hact Hpos Hzero Hp Ho. cbv zeta.
  unfold updateGameTimer. rewrite Hplay.
  replace (0 <? GameState.timeRemaining (World.gameState w)) with true
    by (symmetry; apply Qltb_true_iff; exact Hpos).
  replace (GameState.timeRemaining (World.gameState w) - deltaTime <=? 0)
    with true by (symmetry; apply Qleb_true_iff; exact Hzero).
  cbn [andb]. unfold GameEngine_endBattle.
  set (w0 := World.set_gameState _ w).
  change (getGameObject "player" w0) with (getGameObject "player" w).
  change (getGameObject "opponent" w0) with (getGameObject "opponent" w).
  rewrite (getCharacter_Some _ _ _ Hp), (getCharacter_Some _ _ _ Ho).
  set (winner := if Char.health theOpponent <? Char.health thePlayer
                 then _ else _).
  match goal with
  | |- context [BattleSystem_handleBattleEnd winner ?w1] =>
      destruct (handleBattleEnd_active winner w1 Hact)
        as (E1 & E2 & E3 & E4 & E5 & E6 & E7)
  end.
  rewrite E1, E2, E3, E4, E5, E6, E7. cbn.
  unfold winner, outcomeByHealth.
  destruct (Char.health theOpponent <? Char.health thePlayer) eqn:C1;
    [|destruct (Char.health thePlayer <? Char.health theOpponent) eqn:C2];
    cbn; repeat split; try reflexivity; intros;
    rewrite ?Qltb_true_iff, ?Qltb_false_iff in *;
    try discriminate; try lra.
Qed.

Lemma countdown_expiry_outcome_witness :
  Battle.battleResult (World.battle (updateGameTimer (1 / 30) lateWorld))
  = Some defeat.
Proof.
  destruct (getCharacter "player" lateWorld) as [p|] eqn:Hp;
    [|vm_compute in Hp; discriminate].
  destruct (getCharacter "opponent" lateWorld) as [o|] eqn:Ho;
    [|vm_compute in Ho; discriminate].
  assert (Hplay : GameState.isPlaying (World.gameState lateWorld) = true)
    by reflexivity.
  assert (Hact : Battle.isActive (World.battle lateWorld) = true)
    by reflexivity.
  assert (Hpos : 0 < GameState.timeRemaining (World.gameState lateWorld))
    by reflexivity.
  assert (Hzero : GameState.timeRemaining (World.gameState lateWorld)
                  - 1 / 30 <= 0)
    by (vm_compute; discriminate).
  destruct (countdown_expiry_outcome (1 / 30) lateWorld p o Hplay Hact Hpos
              Hzero Hp Ho)
    as (_ & _ & _ & _ & _ & Hres & _).
  rewrite Hres. vm_compute in Hp, Ho.
  injection Hp as <-. injection Ho as <-. reflexivity.
Defined.

(** ** The attack window *)

Lemma isCharacter_setCharacter {Arena : Type} self c0 c id
  (w : World.t Arena) :
  getCharacter self w = Some c0 ->
  isCharacter id (setCharacter self c w) = isCharacter id w.
Proof.
  intros Hc. unfold isCharacter.
  destruct (String.eqb id self) eqn:E.
  - apply String.eqb_eq in E. subst id.
    rewrite (getCharacter_setCharacter self c0 c w Hc), Hc. reflexivity.
  - rewrite (getCharacter_setCharacter_other self id c w E). reflexivity.
Qed.

Lemma isCharacter_ext {Arena : Type} id (w w' : World.t Arena) :
  World.gameObjects w' = World.gameObjects w ->
  isCharacter id w' = isCharacter id w.
Proof.
  intros H. unfold isCharacter. rewrite (getCharacter_ext id w w' H).
  reflexivity.
Qed.

Lemma takeDamage_isCharacter {Arena : Type} self amount attacker id
  (w : World.t Arena) :
  isCharacter id (Character_takeDamage self amount attacker w)
  = isCharacter id w.
Proof.
  unfold Character_takeDamage.
  destruct (getCharacter self w) as [c|] eqn:Hc; [|reflexivity].
  destruct (_ || _); [reflexivity|].
  rewrite (isCharacter_ext id _ _
             (handleCharacterDamaged_gameObjects self _ _ _)).
  eapply isCharacter_setCharacter. exact Hc.
Qed.

Lemma stun_isCharacter {Arena : Type} self duration id (w : World.t Arena) :
  isCharacter id (Character_stun self duration w) = isCharacter id w.
Proof.
  unfold Character_stun.
  destruct (getCharacter self w) as [c|] eqn:Hc; [|reflexivity].
  unfold writePhysicsBody.
  match goal with
  | |- isCharacter _ (World.set_bodies _ ?w') = _ =>
      change (isCharacter id w' = isCharacter id w)
  end.
  eapply isCharacter_setCharacter. exact Hc.
Qed.

Lemma dealDamage_isCharacter {Arena : Type} self target ability id
  (w : World.t Arena) :
  isCharacter id (Character_dealDamage self target ability w)
  = isCharacter id w.
Proof.
  unfold Character_dealDamage.
  destruct (getCharacter self w) as [this|]; [|reflexivity].
  destruct (getCharacter target w) as [tgt|]; [|reflexivity].
  destruct (0 <? Char.invulnerabilityTime tgt); [reflexivity|].
  set (w1 := Character_takeDamage target _ _ w).
  assert (H1 : isCharacter id w1 = isCharacter id w)
    by apply takeDamage_isCharacter.
  set (w2 := match Ability.knockback ability with
             | Some _ => _
             | None => _
             end).
  assert (H2 : isCharacter id w2 = isCharacter id w).
  { unfold w2. destruct (Ability.knockback ability); [|exact H1].
    destruct (_ && _); exact H1. }
  clearbody w2.
  destruct (Ability.stun ability); [|exact H2].
  destruct (truthy _); [|exact H2].
  rewrite stun_isCharacter. exact H2.
Qed.

Lemma fold_dealDamage_filter {Arena : Type} self ability (targets : list Body.t)
  (w0 w : World.t Arena) :
  (forall id, isCharacter id w = isCharacter id w0) ->
  fold_left
    (fun w target =>
       match getCharacter (Body.id target) w with
       | Some _ =>
           if negb (String.eqb (Body.id target) self)
           then Character_dealDamage self (Body.id target) ability w
           else w
       | None => w
       end)
    targets w
  = fold_left
      (fun w target => Character_dealDamage self (Body.id target) ability w)
      (filter
         (fun target =>
            match getCharacter (Body.id target) w0 with
            | Some _ => negb (String.eqb (Body.id target) self)
            | None => false
            end)
         targets)
      w.
Proof.
  revert w. induction targets as [|t rest IH]; intros w Hw; [reflexivity|].
  cbn [fold_left filter].
  pose proof (Hw (Body.id t)) as Ht. unfold isCharacter in Ht.
  destruct (getCharacter (Body.id t) w), (getCharacter (Body.id t) w0);
    try discriminate.
  - destruct (negb (String.eqb (Body.id t) self)); cbn [fold_left].
    + apply IH. intros id. rewrite dealDamage_isCharacter. apply Hw.
    + apply IH. exact Hw.
  - apply IH. exact Hw.
Qed.

(** A hit writes to no character but its target. *)
Lemma dealDamage_other_character {Arena : Type} self target ability id
  (w : World.t Arena) :
  id <> target ->
  getCharacter id (Character_dealDamage self target ability w)
  = getCharacter id w.
Proof.
  intros Hne.
  assert (Hb : String.eqb id target = false)
    by (apply String.eqb_neq; exact Hne).
  unfold Character_dealDamage.
  destruct (getCharacter self w) as [this|]; [|reflexivity].
  destruct (getCharacter target w) as [tgt|]; [|reflexivity].
  destruct (0 <? Char.invulnerabilityTime tgt); [reflexivity|].
  set (w1 := Character_takeDamage target _ _ w).
  assert (H1 : getCharacter id w1 = getCharacter id w)
    by (unfold getCharacter, w1; rewrite takeDamage_other_object;
        [reflexivity | exact Hne]).
  set (w2 := match Ability.knockback ability with
             | Some _ => _
             | None => _
             end).
  assert (H2 : getCharacter id w2 = getCharacter id w).
  { unfold w2. destruct (Ability.knockback ability); [|exact H1].
    destruct (_ && _); exact H1. }
  clearbody w2.
  destruct (Ability.stun ability) as [duration|]; [|exact H2].
  destruct (truthy duration); [|exact H2].
  unfold Character_stun.
  destruct (getCharacter target w2); [|exact H2].
  unfold writePhysicsBody.
  match goal with
  | |- getCharacter _ (World.set_bodies _ ?w') = _ =>
      change (getCharacter id w' = getCharacter id w)
  end.
  rewrite getCharacter_setCharacter_other; [exact H2 | exact Hb].
Qed.

(** What a hit leaves of its target: a target that is invulnerable or
    dead keeps its health and its timer; any other loses the damage of the
    formula and is invulnerable for 0.2 s. *)
Lemma dealDamage_target {Arena : Type} self target ability
  (w : World.t Arena) (this tgt : Char.t) :
  getCharacter self w = Some this ->
  getCharacter target w = Some tgt ->
  exists tgt',
    getCharacter target (Character_dealDamage self target ability w)
    = Some tgt'
    /\ Char.isDead tgt' = Char.isDead tgt
    /\ if (0 <? Char.invulnerabilityTime tgt) || Char.isDead tgt
       then Char.health tgt' = Char.health tgt
            /\ Char.invulnerabilityTime tgt' = Char.invulnerabilityTime tgt
       else Char.health tgt'
            == Qmax 0 (Char.health tgt - effectiveDamage ability this tgt)
            /\ Char.invulnerabilityTime tgt' = 0.2.
Proof.
  intros Hthis Htgt. unfold Character_dealDamage. rewrite Hthis, Htgt.
  destruct (0 <? Char.invulnerabilityTime tgt) eqn:Hinv.
  { exists tgt. cbn [orb]. auto. }
  cbn [orb].
  set (dmg := Qmax 1 _).
  assert (Hdmg : dmg == effectiveDamage ability this tgt).
  { unfold dmg, effectiveDamage. apply Qmax_compat_r.
    destruct (Char.isBlocking tgt); ring. }
  pose proof (takeDamage_character target dmg (Some self) tgt w Htgt) as Hhit.
  rewrite Hinv in Hhit. cbn [orb] in Hhit.
  set (w1 := Character_takeDamage target dmg (Some self) w) in *.
  set (tgt1 := if Char.isDead tgt then tgt else _) in Hhit.
  assert (F : Char.isDead tgt1 = Char.isDead tgt
              /\ if Char.isDead tgt
                 then Char.health tgt1 = Char.health tgt
                      /\ Char.invulnerabilityTime tgt1
                         = Char.invulnerabilityTime tgt
                 else Char.health tgt1
                      == Qmax 0 (Char.health tgt
                                 - effectiveDamage ability this tgt)
                      /\ Char.invulnerabilityTime tgt1 = 0.2).
  { unfold tgt1. destruct (Char.isDead tgt) eqn:Hd; [auto|].
    destruct (onlyAnimation_setAnimation Animation.hurt _ _
                (onlyAnimation_refl
                   (Char.set_invulnerabilityTime 0.2
                      (Char.set_health (Qmax 0 (Char.health tgt - dmg))
                         tgt)))) as [a Ha].
    rewrite Ha. cbn. split; [exact Hd|]. split; [|reflexivity].
    apply Qmax_compat_r. rewrite Hdmg. reflexivity. }
  clearbody tgt1.
  set (w2 := match Ability.knockback ability with
             | Some _ => _
             | None => _
             end).
  assert (H2 : getCharacter target w2 = Some tgt1).
  { unfold w2. destruct (Ability.knockback ability); [|exact Hhit].
    destruct (_ && _); exact Hhit. }
  clearbody w2.
  destruct (Ability.stun ability) as [duration|];
    [destruct (truthy duration)|];
    try (exists tgt1; split; [exact H2 | exact F]).
  eexists. split; [apply (stun_character _ _ _ _ H2)|].
  cbn [Char.isDead Char.health Char.invulnerabilityTime
       Char.set_stunDuration Char.set_isStunned].
  exact F.
Qed.

(** The hits of one attack, seen from one combatant [id]: the attacker is
    left as it is, and [id] loses health once, at the first hit on it,
    unless it is invulnerable or dead. *)
Lemma fold_dealDamage_health {Arena : Type} self ability id
  (victims : list Body.t) :
  id <> self ->
  Forall (fun b => Body.id b <> self) victims ->
  forall (w : World.t Arena) this cur,
    getCharacter self w = Some this ->
    getCharacter id w = Some cur ->
    let w' :=
      fold_left
        (fun w target => Character_dealDamage self (Body.id target) ability w)
        victims w in
    getCharacter self w' = Some this
    /\ exists cur',
         getCharacter id w' = Some cur'
         /\ if (0 <? Char.invulnerabilityTime cur) || Char.isDead cur
               || negb (existsb (fun b => String.eqb (Body.id b) id) victims)
            then Char.health cur' = Char.health cur
            else Char.health cur'
                 == Qmax 0 (Char.health cur
                            - effectiveDamage ability this cur).
Proof.
  intros Hid Hvictims. cbv zeta.
  induction Hvictims as [|t rest Ht _ IH]; intros w this cur Hthis Hcur.
  - cbn [fold_left existsb negb]. split; [exact Hthis|].
    exists cur. split; [exact Hcur|]. rewrite orb_true_r. reflexivity.
  - cbn [fold_left existsb].
    set (w1 := Character_dealDamage self (Body.id t) ability w).
    assert (Hthis1 : getCharacter self w1 = Some this).
    { unfold w1. rewrite dealDamage_other_character; [exact Hthis|].
      intros E. apply Ht. symmetry. exact E. }
    destruct (String.eqb (Body.id t) id) eqn:E.
    + apply String.eqb_eq in E.
      destruct (dealDamage_target self id ability w this cur Hthis Hcur)
        as (cur1 & Hcur1 & Hdead1 & Hstate).
      rewrite <- E in Hcur1. fold w1 in Hcur1. rewrite E in Hcur1.
      destruct (IH w1 this cur1 Hthis1 Hcur1) as (Hself & cur' & Hcur' & Hh).
      split; [exact Hself|]. exists cur'. split; [exact Hcur'|].
      cbn [orb negb]. rewrite orb_false_r.
      destruct ((0 <? Char.invulnerabilityTime cur) || Char.isDead cur)
        eqn:Hg.
      * destruct Hstate as [Hh1 Hi1]. rewrite Hi1, Hdead1, Hg in Hh.
        cbn [orb] in Hh. rewrite Hh. exact Hh1.
      * destruct Hstate as [Hh1 Hi1]. rewrite Hi1 in Hh.
        change (0 <? 0.2) with true in Hh. cbn [orb] in Hh.
        rewrite Hh. exact Hh1.
    + assert (Hcur1 : getCharacter id w1 = Some cur).
      { unfold w1. rewrite dealDamage_other_character; [exact Hcur|].
        intros E'. apply String.eqb_neq in E. apply E. symmetry. exact E'. }
      destruct (IH w1 this cur Hthis1 Hcur1) as (Hself & cur' & Hcur' & Hh).
      split; [exact Hself|]. exists cur'. split; [exact Hcur'|].
      cbn [orb]. exact Hh.
Qed.

(** C9, amended.  An attack calls [dealDamage], in the engine's body
    order, on exactly the bodies of layer ["character"] whose id names a
    character other than the attacker and whose centre lies within half
    the ability's range of the centre of the window; the window is the
    rectangle of width [range] and of the attacker's height in front of
    the attacker, from [x + width] on when it faces right and up to [x]
    when it faces left.  A combatant so hit loses the damage of the
    formula, its health clamped at 0, unless its invulnerability timer is
    positive or it is dead; no other combatant's health changes. *)
Theorem attack_hits_centres_within_half_range {Arena : Type}
  (self : string) (c : Char.t) (ability : Ability.t) (w : World.t Arena) :
  getCharacter self w = Some c ->
  let box := attackHitbox c ability in
  let cx := fst (fst (fst box)) + snd (fst box) / 2 in
  let cy := snd (fst (fst box)) + snd box / 2 in
  let w' := Character_attack self ability w in
  box = ((if Char.facingRight c then Char.x c + Char.width c
          else Char.x c - Ability.range ability),
         Char.y c, Ability.range ability, Char.height c)
  /\ (forall b,
        In b (attackVictims self c ability w) <->
        In b (World.bodies w)
        /\ Body.layer b = "character"%string
        /\ isCharacter (Body.id b) w = true
        /\ Body.id b <> self
        /\ 0 <= Ability.range ability / 2
        /\ (Body.x b + Body.width b / 2 - cx)
           * (Body.x b + Body.width b / 2 - cx)
           + (Body.y b + Body.height b / 2 - cy)
             * (Body.y b + Body.height b / 2 - cy)
           <= Ability.range ability / 2 * (Ability.range ability / 2))
  /\ w'
     = setTimeout (EndAttack self) 400
         (fold_left
            (fun w target =>
               Character_dealDamage self (Body.id target) ability w)
            (attackVictims self c ability w)
            (setCharacter self
               (Character_setAnimation Animation.attack
                  (Char.set_isAttacking true c))
               w))
  /\ (forall b tgt,
        In b (attackVictims self c ability w) ->
        getCharacter (Body.id b) w = Some tgt ->
        exists tgt',
          getCharacter (Body.id b) w' = Some tgt'
          /\ if (0 <? Char.invulnerabilityTime tgt) || Char.isDead tgt
             then Char.health tgt' = Char.health tgt
             else Char.health tgt'
                  == Qmax 0 (Char.health tgt
                             - effectiveDamage ability c tgt))
  /\ (forall id other,
        getCharacter id w = Some other ->
        (forall b, In b (attackVictims self c ability w) ->
                   Body.id b <> id) ->
        exists other',
          getCharacter id w' = Some other'
          /\ Char.health other' = Char.health other).
Proof.
  intros Hc. cbv zeta.
  assert (Hattack :
    Character_attack self ability w
    = setTimeout (EndAttack self) 400
        (fold_left
           (fun w target =>
              Character_dealDamage self (Body.id target) ability w)
           (attackVictims self c ability w)
           (setCharacter self
              (Character_setAnimation Animation.attack
                 (Char.set_isAttacking true c))
              w))).
  { unfold Character_attack. rewrite Hc.
    set (c1 := Character_setAnimation Animation.attack _).
    set (w1 := setCharacter self c1 w).
    f_equal.
    rewrite (fold_dealDamage_filter self ability _ w w1).
    + unfold attackVictims.
      destruct (onlyAnimation_setAnimation Animation.attack _ _
                  (onlyAnimation_refl (Char.set_isAttacking true c)))
        as [a Ha].
      fold c1 in Ha. rewrite Ha. reflexivity.
    + intros id. unfold w1. eapply isCharacter_setCharacter. exact Hc. }
  assert (Hvictims : Forall (fun b => Body.id b <> self)
                       (attackVictims self c ability w)).
  { apply Forall_forall. intros b Hb. unfold attackVictims in Hb.
    apply filter_In in Hb. destruct Hb as [_ Hb].
    destruct (getCharacter (Body.id b) w); [|discriminate].
    apply negb_true_iff, String.eqb_neq in Hb. exact Hb. }
  set (c1 := Character_setAnimation Animation.attack
               (Char.set_isAttacking true c)) in *.
  set (w1 := setCharacter self c1 w) in *.
  assert (Hc1 : getCharacter self w1 = Some c1)
    by (apply (getCharacter_setCharacter self c c1 w Hc)).
  assert (Hdamage : forall tgt,
            effectiveDamage ability c1 tgt = effectiveDamage ability c tgt).
  { intros tgt. unfold c1.
    destruct (onlyAnimation_setAnimation Animation.attack _ _
                (onlyAnimation_refl (Char.set_isAttacking true c)))
      as [a ->].
    reflexivity. }
  assert (Hhealth1 : Char.health c1 = Char.health c).
  { unfold c1.
    destruct (setAnimation_frame Animation.attack
                (Char.set_isAttacking true c)) as [-> _].
    reflexivity. }
  split; [reflexivity|]. split; [|split; [exact Hattack|split]].
  - intros b. unfold attackVictims, attackTargets, getBodiesInRadius,
      isCharacter. cbn [attackHitbox fst snd].
    rewrite !filter_In. unfold layerExcludes, inRadius, sqrt_leb.
    change (("character" =? "")%string) with false. cbn [negb andb].
    rewrite negb_involutive, !andb_true_iff, String.eqb_eq, !Qleb_true_iff.
    destruct (getCharacter (Body.id b) w);
      rewrite ?negb_true_iff, ?String.eqb_neq; intuition discriminate.
  - intros b tgt Hb Htgt. rewrite Hattack.
    assert (Hne : Body.id b <> self)
      by (apply (proj1 (Forall_forall _ _) Hvictims b Hb)).
    assert (Htgt1 : getCharacter (Body.id b) w1 = Some tgt).
    { unfold w1. rewrite getCharacter_setCharacter_other; [exact Htgt|].
      apply String.eqb_neq. exact Hne. }
    destruct (fold_dealDamage_health self ability (Body.id b)
                (attackVictims self c ability w) Hne Hvictims w1 c1 tgt
                Hc1 Htgt1) as (_ & tgt' & Htgt' & Hh).
    exists tgt'. split; [exact Htgt'|].
    assert (Hin : existsb (fun b0 => String.eqb (Body.id b0) (Body.id b))
                    (attackVictims self c ability w) = true).
    { apply existsb_exists. exists b. split; [exact Hb|].
      apply String.eqb_refl. }
    rewrite Hin, orb_false_r, Hdamage in Hh. exact Hh.
  - intros id other Hother Hout. rewrite Hattack.
    destruct (String.eqb id self) eqn:E.
    + apply String.eqb_eq in E. subst id.
      assert (Hsame : other = c) by congruence. subst other.
      exists c1. split; [|exact Hhealth1].
      change (getCharacter self
                (fold_left
                   (fun w target =>
                      Character_dealDamage self (Body.id target) ability w)
                   (attackVictims self c ability w) w1) = Some c1).
      clear Hattack Hout.
      revert Hc1. generalize w1.
      induction Hvictims as [|t rest Ht _ IH]; intros w0 H0; [exact H0|].
      cbn [fold_left]. apply IH.
      rewrite dealDamage_other_character; [exact H0|].
      intros E. apply Ht. symmetry. exact E.
    + assert (Hne : id <> self) by (apply String.eqb_neq; exact E).
      assert (Hother1 : getCharacter id w1 = Some other)
        by (unfold w1; rewrite getCharacter_setCharacter_other;
            [exact Hother | exact E]).
      destruct (fold_dealDamage_health self ability id
                  (attackVictims self c ability w) Hne Hvictims w1 c1 other
                  Hc1 Hother1) as (_ & other' & Hother' & Hh).
      exists other'. split; [exact Hother'|].
      assert (Hnin : existsb (fun b => String.eqb (Body.id b) id)
                       (attackVictims self c ability w) = false).
      { apply not_true_is_false. intros H. apply existsb_exists in H.
        destruct H as (b & Hb & Hbid). apply String.eqb_eq in Hbid.
        exact (Hout b Hb Hbid). }
      rewrite Hnin in Hh. cbn [negb] in Hh. rewrite orb_true_r in Hh.
      exact Hh.
Qed.

Lemma attack_hits_centres_within_half_range_witness :
  match getCharacter "player" (opponentAt 210 400) with
  | Some c =>
      exists b tgt',
        let ability := Abilities.lightAttack (Char.abilities c) in
        In b (attackVictims "player" c ability (opponentAt 210 400))
        /\ Body.id b = "opponent"%string
        /\ getCharacter "opponent"
             (Character_attack "player" ability (opponentAt 210 400))
           = Some tgt'
        /\ Char.health tgt' == 88
  | None => False
  end.
Proof.
  destruct (getCharacter "player" (opponentAt 210 400)) as [c|] eqn:Hc;
    [|vm_compute in Hc; discriminate].
  pose proof
    (attack_hits_centres_within_half_range "player" c
       (Abilities.lightAttack (Char.abilities c)) (opponentAt 210 400) Hc)
    as (_ & Hin & _ & Hhit & _).
  cbv zeta in Hin, Hhit.
  destruct (getBody "opponent" (World.bodies (opponentAt 210 400)))
    as [b|] eqn:Hb; [|vm_compute in Hb; discriminate].
  destruct (getCharacter "opponent" (opponentAt 210 400)) as [tgt|] eqn:Ht;
    [|vm_compute in Ht; discriminate].
  assert (Hid : Body.id b = "opponent"%string)
    by (vm_compute in Hb; injection Hb as <-; reflexivity).
  assert (Hvictim : In b (attackVictims "player" c
                            (Abilities.lightAttack (Char.abilities c))
                            (opponentAt 210 400))).
  { apply Hin. vm_compute in Hb. injection Hb as <-.
    vm_compute in Hc. injection Hc as <-. vm_compute.
    split; [right; left; reflexivity|]. repeat split; discriminate. }
  rewrite <- Hid in Ht.
  destruct (Hhit b tgt Hvictim Ht) as (tgt' & Htgt' & Hh).
  rewrite Hid in Htgt', Ht.
  exists b, tgt'. cbv zeta.
  split; [exact Hvictim|]. split; [exact Hid|].
  split; [exact Htgt'|].
  assert (Hg : (0 <? Char.invulnerabilityTime tgt) || Char.isDead tgt = false)
    by (vm_compute in Ht; injection Ht as <-; reflexivity).
  rewrite Hg in Hh. rewrite Hh.
  vm_compute in Hc. injection Hc as <-.
  vm_compute in Ht. injection Ht as <-.
  vm_compute. reflexivity.
Defined.

(** C9 as stated fails.  A body that overlaps the window, with its
    centre inside it, is not hit when the centre is further than half the
    range from the window's centre; and a body that sticks out of the
    window is hit when its centre is near enough. *)
Lemma attack_window_counterexample :
  match getCharacter "player" (opponentAt 195 428),
        getBody "opponent" (World.bodies (opponentAt 195 428)),
        getCharacter "opponent"
          (snd (Character_lightAttack "player" (opponentAt 195 428))) with
  | Some c, Some b, Some after =>
      let box := attackHitbox c (Abilities.lightAttack (Char.abilities c)) in
      fst (Character_lightAttack "player" (opponentAt 195 428)) = true
      /\ bodyOverlaps box b = true
      /\ centreWithin box b = true
      /\ Char.health after == 100
  | _, _, _ => False
  end
  /\ match getCharacter "player" (opponentAt 210 400),
           getBody "opponent" (World.bodies (opponentAt 210 400)),
           getCharacter "opponent"
             (snd (Character_lightAttack "player" (opponentAt 210 400))) with
     | Some c, Some b, Some after =>
         let box :=
           attackHitbox c (Abilities.lightAttack (Char.abilities c)) in
         fst (Character_lightAttack "player" (opponentAt 210 400)) = true
         /\ bodyWithin box b = false
         /\ Char.health after == 88
     | _, _, _ => False
     end.
Proof. vm_compute. repeat split. Qed.

(** ** The loop and the engine's step *)

Lemma updateGameTimer_bodies {Arena : Type} dt (w : World.t Arena) :
  World.bodies (updateGameTimer dt w) = World.bodies w.
Proof.
  unfold updateGameTimer.
  destruct (_ && _); [|reflexivity].
  destruct (_ <=? 0); [|reflexivity].
  unfold GameEngine_endBattle, BattleSystem_handleBattleEnd.
  match goal with
  | |- context [if ?b then _ else _] => destruct b
  end; [reflexivity|].
  match goal with
  | |- context [match ?x with _ => _ end] => destruct x as [[| |]|]
  end; rewrite endBattle_bodies; reflexivity.
Qed.

Lemma constrainToArena_inside (body : Body.t) :
  10 <= Body.x body ->
  Body.x body + Body.width body <= gameConfig.arenaWidth - 10 ->
  10 <= Body.y body ->
  Body.y body + Body.height body <= gameConfig.arenaHeight - 10 ->
  constrainToArena body = body.
Proof.
  intros H1 H2 H3 H4. unfold constrainToArena.
  rewrite (proj2 (Qltb_false_iff (Body.x body) 10) H1).
  rewrite (proj2 (Qltb_false_iff _ _) H2).
  rewrite (proj2 (Qltb_false_iff (Body.y body) 10) H3).
  rewrite (proj2 (Qltb_false_iff _ _) H4).
  reflexivity.
Qed.

Lemma checkCollisions_pair_apart (a b : Body.t) :
  checkCollision a b = false -> checkCollisions [a; b] = ([a; b], []).
Proof.
  intros H. unfold checkCollisions, checkPair. simpl. rewrite H. reflexivity.
Qed.

Lemma updateBody_airborne (pow : Q -> Q -> Q) (gravity deltaTime : Q)
  (body : Body.t) :
  Body.isStatic body = false ->
  Body.grounded body = false ->
  0 < Body.mass body ->
  10 <= Body.x (fallen pow gravity deltaTime body) ->
  Body.x (fallen pow gravity deltaTime body) + Body.width body
  <= gameConfig.arenaWidth - 10 ->
  10 <= Body.y (fallen pow gravity deltaTime body) ->
  Body.y (fallen pow gravity deltaTime body) + Body.height body
  <= gameConfig.arenaHeight - 10 ->
  updateBody pow gravity deltaTime body = fallen pow gravity deltaTime body.
Proof.
  intros Hs Hg Hm H1 H2 H3 H4. unfold updateBody.
  rewrite Hs.
  cbn [Body.grounded Body.mass Body.set_lastPosition].
  rewrite Hg, (proj2 (Qltb_true_iff 0 (Body.mass body)) Hm).
  cbn [negb andb].
  rewrite constrainToArena_inside; [reflexivity|assumption..].
Qed.

Ltac body_fields :=
  cbn [Body.id Body.x Body.y Body.vx Body.vy Body.width Body.height
       Body.friction Body.mass Body.shape Body.isStatic Body.grounded
       Body.set_grounded Body.set_x Body.set_y Body.set_vx Body.set_vy
       Body.set_lastPosition].

Lemma spawned_step (pow : Q -> Q -> Q) (id : string) (x : Q) :
  10 <= x -> x + 40 <= 790 ->
  updateBody pow 980 (1 / 30) (spawned id x)
  = fallen pow 980 (1 / 30) (spawned id x).
Proof.
  intros H1 H2.
  apply updateBody_airborne;
    unfold fallen, spawned, gameConfig.arenaWidth, gameConfig.arenaHeight;
    body_fields; try reflexivity; first [lra | vm_compute; discriminate].
Qed.

Lemma spawned_apart (pow : Q -> Q -> Q) :
  checkCollision (fallen pow 980 (1 / 30) (spawned "player" 150))
    (fallen pow 980 (1 / 30) (spawned "opponent" 610)) = false.
Proof.
  unfold checkCollision, fallen, spawned. body_fields.
  unfold checkRectangleCollision. body_fields.
  match goal with
  | |- ?t1 && (?a <? ?b) && ?t3 && ?t4 = false =>
      replace (a <? b) with false; [rewrite andb_false_r; reflexivity|]
  end.
  symmetry. apply Qltb_false_iff. lra.
Qed.

Lemma modBody_places id f (bs : Bodies) :
  (forall b, placeOf (f b) = placeOf b) ->
  map placeOf (modBody id f bs) = map placeOf bs.
Proof.
  intros Hf. unfold modBody. rewrite map_map. apply map_ext.
  intros b. destruct (String.eqb (Body.id b) id); [apply Hf | reflexivity].
Qed.

Lemma setCharacter_onlyCharacters {Arena : Type} self c (w : World.t Arena) :
  onlyCharacters w -> onlyCharacters (setCharacter self c w).
Proof.
  intros Hw kv Hin. unfold setCharacter in Hin. cbn in Hin.
  apply in_map_iff in Hin. destruct Hin as (kv0 & <- & Hin0).
  destruct (String.eqb (fst kv0) self); [eexists; reflexivity|].
  apply Hw. exact Hin0.
Qed.

Lemma onlyCharacters_ext {Arena : Type} (w w' : World.t Arena) :
  World.gameObjects w' = World.gameObjects w ->
  onlyCharacters w -> onlyCharacters w'.
Proof. intros H Hw kv Hin. rewrite H in Hin. apply Hw. exact Hin. Qed.

(** A character's tick moves no body, and registers nothing new. *)
Lemma Character_update_places {Arena : Type} self dt (w : World.t Arena) :
  map placeOf (World.bodies (Character_update self dt w))
  = map placeOf (World.bodies w)
  /\ (onlyCharacters w -> onlyCharacters (Character_update self dt w)).
Proof.
  unfold Character_update.
  destruct (getCharacter self w) as [c|]; [|split; auto].
  destruct (Char.isDead c); [split; auto|].
  set (c1 := Character_updateAbilities _ _).
  destruct (_ && _); [|split; [reflexivity|apply setCharacter_onlyCharacters]].
  unfold Character_die.
  destruct (getCharacter self (setCharacter self c1 w)) as [c2|];
    [|split; [reflexivity|apply setCharacter_onlyCharacters]].
  split.
  - rewrite handleCharacterDeath_bodies. unfold writePhysicsBody.
    cbn [World.bodies World.set_bodies setCharacter World.set_gameObjects].
    apply modBody_places. intros b. reflexivity.
  - intros Hw.
    eapply onlyCharacters_ext;
      [apply handleCharacterDeath_gameObjects|].
    unfold writePhysicsBody.
    eapply onlyCharacters_ext; [reflexivity|].
    apply setCharacter_onlyCharacters, setCharacter_onlyCharacters, Hw.
Qed.

(** The loop as written integrates no motion: in a world of characters,
    [GameEngine.update] leaves every body where it was, whatever the step. *)
Lemma GameEngine_update_places {Arena : Type}
  (Arena_update : Q -> Arena -> World.t Arena -> World.t Arena)
  (Arena_destroy : Arena -> World.t Arena -> World.t Arena)
  (dt : Q) (now : Z) (w : World.t Arena) :
  onlyCharacters w ->
  map placeOf (World.bodies (GameEngine_update Arena_update Arena_destroy
                               dt now w))
  = map placeOf (World.bodies w).
Proof.
  intros Hw. unfold GameEngine_update. rewrite updateGameTimer_bodies.
  unfold updateGameObjects.
  generalize (map fst (World.gameObjects w)) as keys.
  intros keys. revert w Hw.
  induction keys as [|key rest IH]; intros w Hw; [reflexivity|].
  cbn [fold_left].
  assert (Hstep : map placeOf
                    (World.bodies
                       (updateObject Arena_update Arena_destroy dt now w key))
                  = map placeOf (World.bodies w)
                  /\ onlyCharacters
                       (updateObject Arena_update Arena_destroy dt now w key)).
  { unfold updateObject, getGameObject.
    destruct (find _ (World.gameObjects w)) as [kv|] eqn:Hfind;
      [|split; [reflexivity|exact Hw]].
    apply find_some in Hfind. destruct Hfind as [Hin _].
    destruct (Hw kv Hin) as [c ->].
    destruct (Character_update_places key dt w) as [Hp Ho].
    split; [exact Hp | exact (Ho Hw)]. }
  destruct Hstep as [Hp Ho]. rewrite (IH _ Ho). exact Hp.
Qed.

(** C4, at the failing input.  In the world [startBattle] builds, only the
    two combatants are registered (the arena object was dropped by
    [reset]); an iteration of the loop 50 ms later, its step capped at
    1/30 s, advances the countdown and leaves every body where it was,
    while the tick the specification words lets the player fall under
    gravity. *)
Theorem game_loop_never_steps_physics (pow : Q -> Q -> Q) :
  let code := GameEngine_gameLoop noArena_update noArena_destroy 50 0
                battleWorld in
  let spec := spec_tick noArena_update noArena_destroy pow (1 / 30) 0
                battleWorld in
  map fst (World.gameObjects battleWorld) = ["player"; "opponent"]%string
  /\ World.bodies code = World.bodies battleWorld
  /\ GameState.timeRemaining (World.gameState code) == 30 - 1 / 30
  /\ match getBody "player" (World.bodies code),
           getBody "player" (World.bodies spec) with
     | Some coded, Some stepped =>
         Body.y coded == 400 /\ Body.vy coded == 0
         /\ Body.y stepped == 400 + 49 / 45 /\ Body.vy stepped == 98 / 3
     | _, _ => False
     end.
Proof.
  cbv zeta.
  split; [vm_compute; reflexivity|].
  split; [vm_compute; reflexivity|].
  split; [vm_compute; reflexivity|].
  replace (World.bodies
             (GameEngine_gameLoop noArena_update noArena_destroy 50 0
                battleWorld))
    with [spawned "player" 150; spawned "opponent" 610]
    by (vm_compute; reflexivity).
  unfold spec_tick. rewrite updateGameTimer_bodies.
  unfold spec_engineStep.
  replace (World.gravity
             (spec_combatUpdate noArena_update noArena_destroy (1 / 30) 0
                (spec_hazardUpdate noArena_update noArena_destroy (1 / 30) 0
                   battleWorld)))
    with 980 by (vm_compute; reflexivity).
  replace (World.bodies
             (spec_combatUpdate noArena_update noArena_destroy (1 / 30) 0
                (spec_hazardUpdate noArena_update noArena_destroy (1 / 30) 0
                   battleWorld)))
    with [spawned "player" 150; spawned "opponent" 610]
    by (vm_compute; reflexivity).
  unfold PhysicsEngine_update. cbn [map].
  rewrite !spawned_step by lra.
  rewrite (checkCollisions_pair_apart _ _ (spawned_apart pow)).
  cbn [fold_left World.bodies World.set_bodies getBody find].
  unfold fallen, spawned. body_fields.
  cbn [String.eqb Ascii.eqb Bool.eqb]. body_fields.
  repeat split; first [lra | vm_compute; reflexivity].
Qed.

(** * Properties of the rest of the engines *)

(** ** The engine's table of bodies *)

Lemma createBody_id id config : Body.id (createBody id config) = id.
Proof. reflexivity. Qed.

Lemma getBody_setBody b (bs : Bodies) :
  getBody (Body.id b) (setBody b bs) = Some b.
Proof.
  unfold getBody.
  induction bs as [|b0 rest IH]; simpl.
  - rewrite String.eqb_refl. reflexivity.
  - destruct (String.eqb (Body.id b0) (Body.id b)) eqn:E; simpl.
    + rewrite String.eqb_refl. reflexivity.
    + rewrite E. exact IH.
Qed.

Lemma getBody_setBody_other id b (bs : Bodies) :
  id <> Body.id b -> getBody id (setBody b bs) = getBody id bs.
Proof.
  intros Hne. unfold getBody.
  assert (Hb : String.eqb (Body.id b) id = false)
    by (apply String.eqb_neq; congruence).
  induction bs as [|b0 rest IH]; simpl.
  - rewrite Hb. reflexivity.
  - destruct (String.eqb (Body.id b0) (Body.id b)) eqn:E; simpl.
    + apply String.eqb_eq in E. rewrite E, Hb. reflexivity.
    + destruct (String.eqb (Body.id b0) id); [reflexivity | exact IH].
Qed.

Lemma getBody_removeBody id (bs : Bodies) :
  getBody id (removeBody id bs) = None.
Proof.
  unfold getBody, removeBody.
  induction bs as [|b0 rest IH]; simpl; [reflexivity|].
  destruct (String.eqb (Body.id b0) id) eqn:E; simpl; [exact IH|].
  rewrite E. exact IH.
Qed.

Lemma getBody_removeBody_other id other (bs : Bodies) :
  other <> id -> getBody other (removeBody id bs) = getBody other bs.
Proof.
  intros Hne. unfold getBody, removeBody.
  induction bs as [|b0 rest IH]; simpl; [reflexivity|].
  destruct (String.eqb (Body.id b0) id) eqn:E; simpl.
  - apply String.eqb_eq in E.
    replace (String.eqb (Body.id b0) other) with false; [exact IH|].
    symmetry. apply String.eqb_neq. congruence.
  - destruct (String.eqb (Body.id b0) other); [reflexivity | exact IH].
Qed.

Lemma setBody_ids b (bs : Bodies) :
  map Body.id (setBody b bs)
  = if has (Body.id b) (map Body.id bs) then map Body.id bs
    else map Body.id bs ++ [Body.id b].
Proof.
  unfold has.
  induction bs as [|b0 rest IH]; simpl; [reflexivity|].
  rewrite (String.eqb_sym (Body.id b) (Body.id b0)).
  destruct (String.eqb (Body.id b0) (Body.id b)) eqn:E; simpl.
  - apply String.eqb_eq in E. rewrite E. reflexivity.
  - rewrite IH. destruct (existsb _ _); reflexivity.
Qed.

(** X1.  [createBody(id, config)] stores the body it builds under [id]:
    [getBody(id)] then returns that body and every other id reads as
    before; a body created under an id in use replaces the old one in its
    place of the iteration order, a new id goes to the end.  After
    [removeBody(id)], [getBody(id)] is [null] and the other ids still read
    as before. *)
Theorem bodies_create_get_remove (id : string) (config : BodyConfig.t)
  (bs : Bodies) :
  let bs' := setBody (createBody id config) bs in
  getBody id bs' = Some (createBody id config)
  /\ (forall other, other <> id -> getBody other bs' = getBody other bs)
  /\ map Body.id bs'
     = (if has id (map Body.id bs) then map Body.id bs
        else map Body.id bs ++ [id])
  /\ getBody id (removeBody id bs') = None
  /\ (forall other, other <> id ->
      getBody other (removeBody id bs') = getBody other bs).
Proof.
  cbv zeta. repeat apply conj.
  - apply (getBody_setBody (createBody id config)).
  - intros other Hne. now apply getBody_setBody_other.
  - apply (setBody_ids (createBody id config)).
  - apply getBody_removeBody.
  - intros other Hne.
    rewrite getBody_removeBody_other by exact Hne.
    now apply getBody_setBody_other.
Qed.

(** ** The arena's walls *)

Lemma constrainToArena_size (body : Body.t) :
  Body.width (constrainToArena body) = Body.width body
  /\ Body.height (constrainToArena body) = Body.height body
  /\ Body.isStatic (constrainToArena body) = Body.isStatic body
  /\ Body.id (constrainToArena body) = Body.id body
  /\ Body.lastPosition (constrainToArena body) = Body.lastPosition body.
Proof.
  unfold constrainToArena. cbv zeta.
  repeat match goal with
         | |- context [if ?b then _ else _] => destruct b
         end; repeat split.
Qed.

Ltac wall_fields :=
  cbn [Body.x Body.y Body.width Body.height Body.set_x Body.set_y
       Body.set_vx Body.set_vy Body.set_grounded] in *.

Lemma constrainToArena_walls (body : Body.t) :
  let body' := constrainToArena body in
  Body.x body' + Body.width body <= 790
  /\ Body.y body' + Body.height body <= 590
  /\ (Body.width body <= 780 -> 10 <= Body.x body')
  /\ (Body.height body <= 580 -> 10 <= Body.y body').
Proof.
  cbv zeta. unfold constrainToArena. cbv zeta.
  unfold gameConfig.arenaWidth, gameConfig.arenaHeight.
  destruct (Body.x body <? 10) eqn:E1;
    [apply Qltb_true_iff in E1 | apply Qltb_false_iff in E1]; wall_fields.
  all: destruct (800 - 10 <? _) eqn:E2;
    [apply Qltb_true_iff in E2 | apply Qltb_false_iff in E2]; wall_fields.
  all: destruct (Body.y body <? 10) eqn:E3;
    [apply Qltb_true_iff in E3 | apply Qltb_false_iff in E3]; wall_fields.
  all: destruct (600 - 10 <? _) eqn:E4;
    [apply Qltb_true_iff in E4 | apply Qltb_false_iff in E4]; wall_fields.
  all: repeat split; intros; lra.
Qed.

(** X2.  [constrainToArena] leaves the body's right edge at most at 790
    and its bottom edge at most at 590; a body no wider than 780 and no
    taller than 580 (one that fits between the margins) also ends with its
    left edge at least at 10 and its top edge at least at 10, and a second
    call then changes nothing.  A wider body is left sticking out on the
    left: the right wall is enforced last. *)
Theorem constrainToArena_keeps_inside (body : Body.t) :
  let body' := constrainToArena body in
  Body.x body' + Body.width body' <= gameConfig.arenaWidth - 10
  /\ Body.y body' + Body.height body' <= gameConfig.arenaHeight - 10
  /\ (Body.width body <= gameConfig.arenaWidth - 20 -> 10 <= Body.x body')
  /\ (Body.height body <= gameConfig.arenaHeight - 20 -> 10 <= Body.y body')
  /\ (Body.width body <= gameConfig.arenaWidth - 20 ->
      Body.height body <= gameConfig.arenaHeight - 20 ->
      constrainToArena body' = body')
  /\ (gameConfig.arenaWidth - 20 < Body.width body ->
      Body.x body' < 10).
Proof.
  cbv zeta.
  destruct (constrainToArena_size body) as (Ew & Eh & _).
  destruct (constrainToArena_walls body) as (Hr & Hb & Hl & Ht).
  unfold gameConfig.arenaWidth, gameConfig.arenaHeight in *.
  rewrite Ew, Eh.
  split; [lra|]. split; [lra|].
  split; [intros H; apply Hl; lra|].
  split; [intros H; apply Ht; lra|].
  split.
  - intros Hw Hh. apply constrainToArena_inside;
      unfold gameConfig.arenaWidth, gameConfig.arenaHeight;
      rewrite ?Ew, ?Eh.
    + apply Hl; lra.
    + lra.
    + apply Ht; lra.
    + lra.
  - intros Hw. lra.
Qed.

(** ** One body's step *)

(** The body [updateBody] hands to [constrainToArena]. *)
Lemma updateBody_moving (pow : Q -> Q -> Q) (gravity deltaTime : Q)
  (body : Body.t) :
  Body.isStatic body = false ->
  exists moved,
    updateBody pow gravity deltaTime body
    = Body.set_grounded false (constrainToArena moved)
    /\ Body.width moved = Body.width body
    /\ Body.height moved = Body.height body
    /\ Body.lastPosition moved = (Body.x body, Body.y body)
    /\ Body.id moved = Body.id body
    /\ Body.isStatic moved = Body.isStatic body.
Proof.
  intros Hs. unfold updateBody. rewrite Hs. cbv zeta.
  eexists. split; [reflexivity|].
  destruct (negb (Body.grounded _) && _); repeat apply conj;
    first [reflexivity | exact Hs].
Qed.

(** X3.  [updateBody] leaves a static body as it is.  A body that is not
    static has its old position recorded in [lastPosition], ends with its
    right and bottom edges inside the arena's margins (and, when it fits
    between them, its left and top edges too), and ends not grounded,
    whatever it was before and even when it was just put on the floor. *)
Theorem updateBody_static_or_inside (pow : Q -> Q -> Q)
  (gravity deltaTime : Q) (body : Body.t) :
  let body' := updateBody pow gravity deltaTime body in
  (Body.isStatic body = true -> body' = body)
  /\ (Body.isStatic body = false ->
      Body.lastPosition body' = (Body.x body, Body.y body)
      /\ Body.grounded body' = false
      /\ Body.x body' + Body.width body' <= gameConfig.arenaWidth - 10
      /\ Body.y body' + Body.height body' <= gameConfig.arenaHeight - 10
      /\ (Body.width body <= gameConfig.arenaWidth - 20 ->
          10 <= Body.x body')
      /\ (Body.height body <= gameConfig.arenaHeight - 20 ->
          10 <= Body.y body')).
Proof.
  cbv zeta. split; intros Hs.
  - unfold updateBody. rewrite Hs. reflexivity.
  - destruct (updateBody_moving pow gravity deltaTime body Hs)
      as (moved & -> & Hw & Hh & Hp & _).
    destruct (constrainToArena_size moved) as (Ew & Eh & _ & _ & El).
    destruct (constrainToArena_walls moved) as (Hr & Hb & Hl & Ht).
    cbn [Body.lastPosition Body.grounded Body.x Body.y Body.width
         Body.height Body.set_grounded].
    unfold gameConfig.arenaWidth, gameConfig.arenaHeight.
    rewrite El, Ew, Eh, Hp, Hw, Hh.
    rewrite Hw in Hr, Hl. rewrite Hh in Hb, Ht.
    repeat split; lra.
Qed.

(** ** The overlap test *)

Lemma Qltb_compat (a a' b b' : Q) :
  a == a' -> b == b' -> (a <? b) = (a' <? b').
Proof.
  intros Ha Hb.
  destruct (a' <? b') eqn:E.
  - apply Qltb_true_iff. apply Qltb_true_iff in E. lra.
  - apply Qltb_false_iff. apply Qltb_false_iff in E. lra.
Qed.

Lemma Qleb_compat (a a' b b' : Q) :
  a == a' -> b == b' -> (a <=? b) = (a' <=? b').
Proof.
  intros Ha Hb.
  destruct (a' <=? b') eqn:E.
  - apply Qleb_true_iff. apply Qleb_true_iff in E. lra.
  - apply Qleb_false_iff. apply Qleb_false_iff in E. lra.
Qed.

(** X4.  The overlap test does not depend on the order of its arguments,
    for every pair of shapes: [checkCollision(a, b)] and
    [checkCollision(b, a)] agree. *)
Theorem checkCollision_symmetric (bodyA bodyB : Body.t) :
  checkCollision bodyA bodyB = checkCollision bodyB bodyA.
Proof.
  unfold checkCollision.
  destruct (Body.shape bodyA), (Body.shape bodyB); try reflexivity.
  - unfold checkRectangleCollision.
    destruct (Body.x bodyA <? _), (Body.x bodyB <? _),
      (Body.y bodyA <? _), (Body.y bodyB <? _); reflexivity.
  - unfold checkCircleCollision, sqrt_ltb. cbv zeta. f_equal.
    + apply Qltb_compat; [reflexivity | ring].
    + apply Qltb_compat; ring.
Qed.

(** ** The grounded flag after a collision *)

Ltac velocity_fields :=
  cbn [fst snd negb Body.vx Body.vy Body.mass Body.restitution
       Body.grounded Body.isStatic Body.set_vx Body.set_vy Body.set_grounded].

(** X7.  Which body the collision response flags as grounded.  For two
    approaching bodies, neither static nor grounded before, [bodyA] is
    flagged exactly when the normal is [(0, -1)] and [bodyB] exactly when it
    is [(0, 1)]; the normal is [(0, -1)] only if the centre of [bodyB] is
    above that of [bodyA], and [(0, 1)] only if it is level with it or
    below.  So the flag goes to the body underneath, and the body that
    lands on top of another is not flagged. *)
Theorem collision_grounds_lower_body (bodyA bodyB : Body.t) :
  let c := calculateCollisionData bodyA bodyB in
  let r := applyCollisionResponse bodyA bodyB c in
  velAlongNormal bodyA bodyB c <= 0 ->
  Body.isStatic bodyA = false -> Body.isStatic bodyB = false ->
  Body.grounded bodyA = false -> Body.grounded bodyB = false ->
  (Body.grounded (fst r) = true <-> Collision.normalY c = -1)
  /\ (Body.grounded (snd r) = true <-> Collision.normalY c = 1)
  /\ (Collision.normalY c = -1 -> centreY bodyB < centreY bodyA)
  /\ (Collision.normalY c = 1 -> centreY bodyA <= centreY bodyB).
Proof.
  cbv zeta. intros Hv HsA HsB HgA HgB.
  unfold applyCollisionResponse. cbv zeta.
  unfold velAlongNormal in Hv. apply Qltb_false_iff in Hv. rewrite Hv.
  rewrite HsA, HsB. clear Hv.
  unfold calculateCollisionData, centreY. cbv zeta.
  set (ox := (Body.width bodyA + Body.width bodyB) / 2 - Qabs _).
  set (oy := (Body.height bodyA + Body.height bodyB) / 2 - Qabs _).
  destruct (ox <? oy);
    cbn [Collision.normalX Collision.normalY Collision.overlap].
  - change (0 <? -0.5) with false. change (0.5 <? 0) with false.
    velocity_fields. rewrite HgA, HgB.
    repeat split; intros H; discriminate H.
  - destruct (Body.y bodyB + _ - _ <? 0) eqn:Edy;
      [apply Qltb_true_iff in Edy | apply Qltb_false_iff in Edy].
    + change (-1 <? -0.5) with true. change (0.5 <? -1) with false.
      velocity_fields. rewrite HgB.
      repeat split; intros H; try reflexivity; try discriminate H; lra.
    + change (1 <? -0.5) with false. change (0.5 <? 1) with true.
      velocity_fields. rewrite HgA.
      repeat split; intros H; try reflexivity; try discriminate H; lra.
Qed.

Lemma collision_grounds_lower_body_witness :
  centreY upperCrate < centreY lowerCrate
  /\ Body.grounded
       (snd (applyCollisionResponse upperCrate lowerCrate
               (calculateCollisionData upperCrate lowerCrate))) = true
  /\ Body.grounded
       (fst (applyCollisionResponse upperCrate lowerCrate
               (calculateCollisionData upperCrate lowerCrate))) = false.
Proof.
  destruct (collision_grounds_lower_body upperCrate lowerCrate)
    as (HA & HB & _); try reflexivity.
  - vm_compute. discriminate.
  - split; [reflexivity|]. split.
    + apply HB. reflexivity.
    + apply not_true_is_false. intros E. apply HA in E. discriminate E.
Defined.

(** ** What a step of the engine leaves in place *)

Lemma pinned_refl b : pinned b b.
Proof. repeat split. Qed.

Lemma pinned_trans b1 b2 b3 : pinned b1 b2 -> pinned b2 b3 -> pinned b1 b3.
Proof.
  intros (I1 & S1 & P1) (I2 & S2 & P2). split; [congruence|].
  split; [congruence|]. intros Hs.
  destruct (P1 Hs) as (? & ? & ? & ?).
  destruct P2 as (? & ? & ? & ?); [congruence|].
  repeat split; congruence.
Qed.

Lemma pinned_collidingWith l b : pinned b (Body.set_collidingWith l b).
Proof. repeat split. Qed.

Lemma separateBodies_pinned (a b : Body.t) (c : Collision.t) :
  pinned a (fst (separateBodies a b c))
  /\ pinned b (snd (separateBodies a b c)).
Proof.
  unfold separateBodies.
  destruct (Body.isStatic a) eqn:Ea, (Body.isStatic b) eqn:Eb;
    cbn [fst snd negb]; split;
    solve [apply pinned_refl
          | split; [reflexivity|]; split; [reflexivity|];
            cbn [Body.isStatic]; congruence].
Qed.

Lemma applyCollisionResponse_pinned (a b : Body.t) (c : Collision.t) :
  pinned a (fst (applyCollisionResponse a b c))
  /\ pinned b (snd (applyCollisionResponse a b c)).
Proof.
  unfold applyCollisionResponse. cbv zeta.
  destruct (0 <? _); [split; apply pinned_refl|].
  destruct (Body.isStatic a) eqn:Ea, (Body.isStatic b) eqn:Eb;
    cbn [fst snd negb]; split;
    try apply pinned_refl;
    destruct (_ <? _);
    (split; [reflexivity|]; split; [reflexivity|]; congruence).
Qed.

Lemma handleTriggerCollision_pinned (a b : Body.t) :
  pinned a (fst (fst (handleTriggerCollision a b)))
  /\ pinned b (snd (fst (handleTriggerCollision a b))).
Proof.
  unfold handleTriggerCollision. cbv zeta.
  destruct (negb (has _ _)), (Body.isTrigger a); cbn [fst snd]; split;
    first [apply pinned_refl | apply pinned_collidingWith].
Qed.

Lemma resolveCollision_pinned (a b : Body.t) :
  pinned a (resolvedA a b) /\ pinned b (resolvedB a b).
Proof.
  unfold resolvedA, resolvedB, resolveCollision.
  destruct (Body.isTrigger a || Body.isTrigger b);
    [apply handleTriggerCollision_pinned|].
  destruct (Body.isStatic a && Body.isStatic b);
    [split; apply pinned_refl|].
  assert (H : forall a1 b1 fired,
             pinned a a1 -> pinned b b1 ->
             let c := calculateCollisionData a1 b1 in
             let r :=
               if 0 <? Collision.overlap c then
                 let '(a2, b2) := separateBodies a1 b1 c in
                 let '(a3, b3) := applyCollisionResponse a2 b2 c in
                 (a3, b3, fired : list Notification)
               else (a1, b1, fired) in
             pinned a (fst (fst r)) /\ pinned b (snd (fst r))).
  { intros a1 b1 fired Ha Hb. cbv zeta.
    destruct (0 <? _); [|split; assumption].
    destruct (separateBodies_pinned a1 b1 (calculateCollisionData a1 b1))
      as [Sa Sb].
    destruct (separateBodies a1 b1 _) as [a2 b2].
    destruct (applyCollisionResponse_pinned a2 b2
                (calculateCollisionData a1 b1)) as [Ra Rb].
    destruct (applyCollisionResponse a2 b2 _) as [a3 b3].
    cbn [fst snd] in *.
    split; eapply pinned_trans; eauto; eapply pinned_trans; eauto. }
  destruct (negb (has (Body.id b) (Body.collidingWith a))).
  - apply H; apply pinned_collidingWith.
  - apply H; apply pinned_refl.
Qed.

Lemma set_nth_Forall2 {A : Type} (R : A -> A -> Prop) (l0 l : list A) i v :
  Forall2 R l0 l ->
  (forall a0, nth_error l0 i = Some a0 -> R a0 v) ->
  Forall2 R l0 (set_nth i v l).
Proof.
  intros H. revert i. induction H as [|a0 a l0 l Ha Hl IH]; intros i Hv.
  - destruct i; simpl; constructor.
  - destruct i as [|i]; simpl.
    + constructor; [apply Hv; reflexivity | exact Hl].
    + constructor; [exact Ha | apply IH; intros a1 H1; apply (Hv a1 H1)].
Qed.

Lemma Forall2_nth_error {A : Type} (R : A -> A -> Prop) (l0 l : list A) i a :
  Forall2 R l0 l -> nth_error l i = Some a ->
  exists a0, nth_error l0 i = Some a0 /\ R a0 a.
Proof.
  intros H. revert i. induction H as [|a0 a1 l0 l Ha Hl IH]; intros i Hi.
  - destruct i; discriminate.
  - destruct i as [|i]; simpl in *.
    + injection Hi as <-. eauto.
    + apply IH. exact Hi.
Qed.

Lemma Forall2_nth_error_l {A : Type} (R : A -> A -> Prop) (l0 l : list A)
  i a0 :
  Forall2 R l0 l -> nth_error l0 i = Some a0 ->
  exists a, nth_error l i = Some a /\ R a0 a.
Proof.
  intros H. revert i. induction H as [|a1 a l0 l Ha Hl IH]; intros i Hi.
  - destruct i; discriminate.
  - destruct i as [|i]; simpl in *.
    + injection Hi as <-. eauto.
    + apply IH. exact Hi.
Qed.

Lemma checkPair_pinned (bs0 : Bodies) i j st :
  Forall2 pinned bs0 (fst st) -> Forall2 pinned bs0 (fst (checkPair i j st)).
Proof.
  destruct st as [bodyArray fired]. cbn [fst]. intros H.
  unfold checkPair.
  destruct (nth_error bodyArray i) as [bodyA|] eqn:Ei; [|exact H].
  destruct (nth_error bodyArray j) as [bodyB|] eqn:Ej; [|exact H].
  destruct (checkCollision bodyA bodyB); [|exact H].
  destruct (resolveCollision_pinned bodyA bodyB) as [Pa Pb].
  unfold resolvedA, resolvedB in Pa, Pb.
  destruct (resolveCollision bodyA bodyB) as [[bodyA' bodyB'] fired'].
  cbn [fst snd] in *.
  apply set_nth_Forall2.
  - apply set_nth_Forall2; [exact H|].
    intros a0 Ha0.
    destruct (Forall2_nth_error _ _ _ _ _ H Ei) as (a1 & Ha1 & Hp).
    rewrite Ha0 in Ha1. injection Ha1 as <-.
    eapply pinned_trans; eauto.
  - intros b0 Hb0.
    destruct (Forall2_nth_error _ _ _ _ _ H Ej) as (b1 & Hb1 & Hp).
    rewrite Hb0 in Hb1. injection Hb1 as <-.
    eapply pinned_trans; eauto.
Qed.

Lemma checkCollisions_pinned (bs : Bodies) :
  Forall2 pinned bs (fst (checkCollisions bs)).
Proof.
  unfold checkCollisions.
  assert (H0 : Forall2 pinned bs (fst (bs, @nil Notification))).
  { cbn [fst]. induction bs; constructor; [apply pinned_refl | assumption]. }
  revert H0. generalize (bs, @nil Notification) as st.
  generalize (seq 0 (List.length bs)) as outer.
  induction outer as [|i outer IH]; intros st H; [exact H|].
  cbn [fold_left]. apply IH.
  generalize dependent st.
  generalize (seq (S i) (List.length bs - S i)) as inner.
  induction inner as [|j inner IHj]; intros st H; [exact H|].
  cbn [fold_left]. apply IHj. apply checkPair_pinned. exact H.
Qed.

Lemma updateBody_pinned (pow : Q -> Q -> Q) (gravity deltaTime : Q)
  (body : Body.t) :
  pinned body (updateBody pow gravity deltaTime body).
Proof.
  destruct (Body.isStatic body) eqn:Hs.
  - unfold updateBody. rewrite Hs. apply pinned_refl.
  - destruct (updateBody_moving pow gravity deltaTime body Hs)
      as (moved & -> & _ & _ & _ & Ei & Es).
    destruct (constrainToArena_size moved) as (_ & _ & Es' & Ei' & _).
    unfold pinned. cbn [Body.id Body.isStatic Body.set_grounded].
    rewrite Es', Ei', Es, Ei, Hs.
    split; [reflexivity|]. split; [reflexivity|]. discriminate.
Qed.

(** X8.  An update of the engine that calls no callback (no
    [onCollisionEnter] or [onTriggerEnter] falls due in it) neither adds,
    removes nor reorders bodies, and it never moves a static body: after
    the update the body at each place of the Map has the id it had, and a
    static body has the position and the velocity it had, whatever
    collided with it. *)
Theorem update_never_moves_static (pow : Q -> Q -> Q) (gravity deltaTime : Q)
  (bs : Bodies) :
  snd (PhysicsEngine_update pow gravity deltaTime bs) = [] ->
  let bs' := fst (PhysicsEngine_update pow gravity deltaTime bs) in
  map Body.id bs' = map Body.id bs
  /\ forall i body,
       nth_error bs i = Some body -> Body.isStatic body = true ->
       exists body',
         nth_error bs' i = Some body'
         /\ Body.isStatic body' = true
         /\ Body.x body' = Body.x body /\ Body.y body' = Body.y body
         /\ Body.vx body' = Body.vx body /\ Body.vy body' = Body.vy body.
Proof.
  intros _. cbv zeta. unfold PhysicsEngine_update.
  assert (H : Forall2 pinned bs
                (fst (checkCollisions
                        (map (updateBody pow gravity deltaTime) bs)))).
  { assert (H1 : Forall2 pinned bs (map (updateBody pow gravity deltaTime) bs))
      by (induction bs; constructor;
          [apply updateBody_pinned | assumption]).
    pose proof (checkCollisions_pinned
                  (map (updateBody pow gravity deltaTime) bs)) as H2.
    revert H1 H2.
    generalize (fst (checkCollisions
                       (map (updateBody pow gravity deltaTime) bs))) as l2.
    generalize (map (updateBody pow gravity deltaTime) bs) as l1.
    intros l1 l2 H1. revert l2.
    induction H1 as [|b b1 l0 l1 Hb Hl IH]; intros l2 H2;
      inversion H2; subst; constructor.
    - eapply pinned_trans; eauto.
    - apply IH. assumption. }
  split.
  - induction H as [|b b' l l' Hp Hl IH]; [reflexivity|].
    destruct Hp as (Hi & _). simpl. rewrite Hi, IH. reflexivity.
  - intros i body Hi Hs.
    destruct (Forall2_nth_error_l _ _ _ _ _ H Hi) as (body' & Hi' & Hq).
    destruct Hq as (_ & Es & Hp).
    exists body'. destruct (Hp Hs) as (? & ? & ? & ?).
    rewrite Es, Hs. auto 10.
Qed.

Lemma update_never_moves_static_witness :
  let step :=
    PhysicsEngine_update (fun _ _ => 1) 980 (1 / 30) [platform; upperCrate] in
  checkCollision platform (updateBody (fun _ _ => 1) 980 (1 / 30) upperCrate)
  = true
  /\ exists body',
       nth_error (fst step) 0 = Some body'
       /\ Body.x body' = 60 /\ Body.y body' = 300
       /\ Body.vx body' = 0 /\ Body.vy body' = 0.
Proof.
  cbv zeta. split; [vm_compute; reflexivity|].
  destruct (update_never_moves_static (fun _ _ => 1) 980 (1 / 30)
              [platform; upperCrate]) as (_ & H);
    [vm_compute; reflexivity|].
  destruct (H 0%nat platform eq_refl eq_refl)
    as (body' & E & _ & Ex & Ey & Evx & Evy).
  exists body'. split; [exact E|].
  rewrite Ex, Ey, Evx, Evy. repeat split.
Defined.

(** ** Queries by radius *)

(** X9.  [getBodiesInRadius]: a negative radius finds no body; a body
    found with one radius is found with every larger one; the empty string
    as [layer] filters nothing, like [null]; and with a layer given, only
    bodies of that layer are returned. *)
Theorem getBodiesInRadius_radius_and_layer (x y : Q) (bs : Bodies) :
  (forall radius layer,
     radius < 0 -> getBodiesInRadius x y radius layer bs = [])
  /\ (forall r1 r2 layer body,
        r1 <= r2 ->
        In body (getBodiesInRadius x y r1 layer bs) ->
        In body (getBodiesInRadius x y r2 layer bs))
  /\ (forall radius,
        getBodiesInRadius x y radius (Some ""%string) bs
        = getBodiesInRadius x y radius None bs)
  /\ (forall radius layer body,
        layer <> ""%string ->
        In body (getBodiesInRadius x y radius (Some layer) bs) ->
        Body.layer body = layer).
Proof.
  unfold getBodiesInRadius. repeat apply conj.
  - intros radius layer Hr.
    induction bs as [|b rest IH]; [reflexivity|]. simpl.
    replace (inRadius x y radius b) with false;
      [rewrite andb_false_r; exact IH|].
    symmetry. unfold inRadius, sqrt_leb. cbv zeta.
    replace (0 <=? radius) with false; [reflexivity|].
    symmetry. apply Qleb_false_iff. exact Hr.
  - intros r1 r2 layer body Hr Hin.
    apply filter_In in Hin. destruct Hin as [Hin Hok].
    apply filter_In. split; [exact Hin|].
    apply andb_true_iff in Hok. destruct Hok as [Hl Hd].
    rewrite Hl. cbn [andb].
    unfold inRadius, sqrt_leb in *. cbv zeta in *.
    apply andb_true_iff in Hd. destruct Hd as [H0 Hd].
    apply Qleb_true_iff in H0, Hd.
    apply andb_true_iff. split; apply Qleb_true_iff; [lra|].
    assert (r1 * r1 <= r2 * r2) by nra. lra.
  - intros radius. reflexivity.
  - intros radius layer body Hne Hin.
    apply filter_In in Hin. destruct Hin as [_ Hok].
    apply andb_true_iff in Hok. destruct Hok as [Hl _].
    unfold layerExcludes in Hl.
    replace (String.eqb layer "") with false in Hl
      by (symmetry; apply String.eqb_neq; exact Hne).
    cbn [negb andb] in Hl. apply negb_true_iff, negb_false_iff in Hl.
    apply String.eqb_eq. exact Hl.
Qed.

(** ** Ended contacts *)

Lemma checkCollision_collidingWith la lb (a b : Body.t) :
  checkCollision (Body.set_collidingWith la a) (Body.set_collidingWith lb b)
  = checkCollision a b.
Proof. reflexivity. Qed.

Lemma getBody_map_collidingWith (g : Body.t -> list string) id
  (bs : Bodies) :
  getBody id (map (fun b => Body.set_collidingWith (g b) b) bs)
  = option_map (fun b => Body.set_collidingWith (g b) b) (getBody id bs).
Proof.
  unfold getBody.
  induction bs as [|b rest IH]; [reflexivity|]. simpl.
  destruct (String.eqb (Body.id b) id); [reflexivity | exact IH].
Qed.

Lemma stillColliding_map (g : Body.t -> list string) (bs : Bodies)
  (body : Body.t) (l : list string) :
  stillColliding (map (fun b => Body.set_collidingWith (g b) b) bs)
    (Body.set_collidingWith l body)
  = filter
      (fun otherId =>
         match getBody otherId bs with
         | Some otherBody => checkCollision body otherBody
         | None => false
         end)
      l.
Proof.
  unfold stillColliding. cbn [Body.collidingWith Body.set_collidingWith].
  apply filter_ext. intros o. rewrite getBody_map_collidingWith.
  destruct (getBody o bs); reflexivity.
Qed.

Lemma filter_twice {A : Type} (f : A -> bool) (l : list A) :
  filter f (filter f l) = filter f l.
Proof.
  induction l as [|a l IH]; [reflexivity|]. simpl.
  destruct (f a) eqn:E; [|exact IH]. simpl. rewrite E, IH. reflexivity.
Qed.

Lemma stillColliding_again (bs : Bodies) (body : Body.t) :
  stillColliding
    (map (fun b => Body.set_collidingWith (stillColliding bs b) b) bs)
    (Body.set_collidingWith (stillColliding bs body) body)
  = stillColliding bs body.
Proof.
  rewrite stillColliding_map. unfold stillColliding. apply filter_twice.
Qed.

Lemma filter_not_has (l : list string) :
  filter (fun o => negb (has o l)) l = [].
Proof.
  assert (H : forall l0, incl l0 l ->
                         filter (fun o => negb (has o l)) l0 = []).
  { induction l0 as [|o l0 IH]; intros Hi; [reflexivity|]. simpl.
    replace (has o l) with true.
    - apply IH. intros a Ha. apply Hi. right. exact Ha.
    - symmetry. unfold has. apply existsb_exists. exists o.
      split; [apply Hi; left; reflexivity | apply String.eqb_refl]. }
  apply H. apply incl_refl.
Qed.

(** X10.  [cleanupCollisions] writes nothing but [collidingWith], keeps of
    each set only ids that were in it, and is done in one pass: a second
    call right after the first changes no body and calls no
    [onCollisionExit]. *)
Theorem cleanupCollisions_settles (bs : Bodies) :
  let once := cleanupCollisions bs in
  let twice := cleanupCollisions (fst once) in
  map withoutContacts (fst once) = map withoutContacts bs
  /\ Forall2 (fun b b' => incl (Body.collidingWith b') (Body.collidingWith b))
       bs (fst once)
  /\ fst twice = fst once
  /\ snd twice = [].
Proof.
  cbv zeta. unfold cleanupCollisions. cbn [fst snd].
  repeat apply conj.
  - rewrite map_map. apply map_ext. intros b. reflexivity.
  - induction bs as [|b rest IH] at 1 3; [constructor|].
    simpl. constructor; [|exact IH].
    cbn [Body.collidingWith Body.set_collidingWith].
    unfold stillColliding. apply incl_filter.
  - rewrite map_map.
    apply map_ext. intros b. rewrite stillColliding_again. reflexivity.
  - rewrite flat_map_concat_map, map_map.
    apply concat_nil_Forall, Forall_map, Forall_forall. intros b _.
    unfold collisionExits. rewrite stillColliding_again.
    cbn [Body.onCollisionExit Body.collidingWith Body.set_collidingWith].
    rewrite filter_not_has. destruct (Body.onCollisionExit b); reflexivity.
Qed.

(** ** Ray casts *)

Lemma Qeq_bool_false (a b : Q) : Qeq_bool a b = false <-> ~ a == b.
Proof.
  split.
  - intros H E. apply Qeq_bool_iff in E. congruence.
  - intros H. destruct (Qeq_bool a b) eqn:E; [|reflexivity].
    apply Qeq_bool_iff in E. contradiction.
Qed.

Lemma lineIntersectsLine_sound (x1 y1 x2 y2 x3 y3 x4 y4 : Q) :
  lineIntersectsLine x1 y1 x2 y2 x3 y3 x4 y4 = true ->
  exists t u, meetAt x1 y1 x2 y2 x3 y3 x4 y4 t u.
Proof.
  unfold lineIntersectsLine. cbv zeta.
  destruct (Qeq_bool _ 0) eqn:Ed; [discriminate|].
  apply Qeq_bool_false in Ed. intros H.
  apply andb_true_iff in H. destruct H as [H Hu1].
  apply andb_true_iff in H. destruct H as [H Hu0].
  apply andb_true_iff in H. destruct H as [Ht0 Ht1].
  apply Qleb_true_iff in Ht0, Ht1, Hu0, Hu1.
  eexists. eexists. unfold meetAt.
  split; [exact Ht0|]. split; [exact Ht1|].
  split; [exact Hu0|]. split; [exact Hu1|].
  unfold along. split; field; exact Ed.
Qed.

Lemma lineIntersectsLine_complete (x1 y1 x2 y2 x3 y3 x4 y4 t u : Q) :
  ~ (x1 - x2) * (y3 - y4) - (y1 - y2) * (x3 - x4) == 0 ->
  meetAt x1 y1 x2 y2 x3 y3 x4 y4 t u ->
  lineIntersectsLine x1 y1 x2 y2 x3 y3 x4 y4 = true.
Proof.
  intros Hd (Ht0 & Ht1 & Hu0 & Hu1 & Hx & Hy).
  unfold along in Hx, Hy.
  unfold lineIntersectsLine. cbv zeta.
  set (den := (x1 - x2) * (y3 - y4) - (y1 - y2) * (x3 - x4)) in *.
  rewrite (proj2 (Qeq_bool_false den 0) Hd).
  assert (Et : ((x1 - x3) * (y3 - y4) - (y1 - y3) * (x3 - x4)) / den == t).
  { assert (E : (x1 - x3) * (y3 - y4) - (y1 - y3) * (x3 - x4) - t * den
                == (y3 - y4) * ((x1 + t * (x2 - x1)) - (x3 + u * (x4 - x3)))
                   - (x3 - x4)
                     * ((y1 + t * (y2 - y1)) - (y3 + u * (y4 - y3))))
      by (unfold den; ring).
    rewrite Hx, Hy in E.
    assert (E' : (x1 - x3) * (y3 - y4) - (y1 - y3) * (x3 - x4) == t * den)
      by (rewrite <- (Qplus_0_r (t * den)), <- (Qplus_comm 0);
          apply Qplus_inj_r with (z := - (t * den));
          rewrite E; ring).
    rewrite E'. field. exact Hd. }
  assert (Eu : (- ((x1 - x2) * (y1 - y3) - (y1 - y2) * (x1 - x3))) / den
               == u).
  { assert (E : - ((x1 - x2) * (y1 - y3) - (y1 - y2) * (x1 - x3)) - u * den
                == (y1 - y2) * ((x1 + t * (x2 - x1)) - (x3 + u * (x4 - x3)))
                   - (x1 - x2)
                     * ((y1 + t * (y2 - y1)) - (y3 + u * (y4 - y3))))
      by (unfold den; ring).
    rewrite Hx, Hy in E.
    assert (E' : - ((x1 - x2) * (y1 - y3) - (y1 - y2) * (x1 - x3))
                 == u * den)
      by (rewrite <- (Qplus_0_r (u * den)), <- (Qplus_comm 0);
          apply Qplus_inj_r with (z := - (u * den));
          rewrite E; ring).
    rewrite E'. field. exact Hd. }
  rewrite (Qleb_compat 0 0 _ t (Qeq_refl 0) Et).
  rewrite (Qleb_compat _ t 1 1 Et (Qeq_refl 1)).
  rewrite (Qleb_compat 0 0 _ u (Qeq_refl 0) Eu).
  rewrite (Qleb_compat _ u 1 1 Eu (Qeq_refl 1)).
  rewrite (proj2 (Qleb_true_iff 0 t) Ht0), (proj2 (Qleb_true_iff t 1) Ht1),
    (proj2 (Qleb_true_iff 0 u) Hu0), (proj2 (Qleb_true_iff u 1) Hu1).
  reflexivity.
Qed.

(** X11.  [lineIntersectsLine] is exact on segments that are not parallel:
    it returns true exactly when the denominator
    [(x1 - x2)(y3 - y4) - (y1 - y2)(x3 - x4)] is not zero and the two
    segments share a point.  Parallel segments, also those lying on one
    line and overlapping, are reported as not intersecting. *)
Theorem lineIntersectsLine_exact (x1 y1 x2 y2 x3 y3 x4 y4 : Q) :
  lineIntersectsLine x1 y1 x2 y2 x3 y3 x4 y4 = true
  <-> ~ (x1 - x2) * (y3 - y4) - (y1 - y2) * (x3 - x4) == 0
      /\ exists t u, meetAt x1 y1 x2 y2 x3 y3 x4 y4 t u.
Proof.
  split.
  - intros H. split; [|apply lineIntersectsLine_sound; exact H].
    unfold lineIntersectsLine in H. cbv zeta in H.
    destruct (Qeq_bool _ 0) eqn:Ed; [discriminate|].
    apply Qeq_bool_false in Ed. exact Ed.
  - intros (Hd & t & u & H).
    apply (lineIntersectsLine_complete _ _ _ _ _ _ _ _ t u Hd H).
Qed.

Lemma along_between (a b u : Q) :
  0 <= u -> u <= 1 -> a <= b -> a <= along a b u /\ along a b u <= b.
Proof. unfold along. intros. split; nra. Qed.

Lemma along_between_rev (a b u : Q) :
  0 <= u -> u <= 1 -> b <= a -> b <= along a b u /\ along a b u <= a.
Proof. unfold along. intros. split; nra. Qed.

Lemma along_same (a u : Q) : along a a u == a.
Proof. unfold along. ring. Qed.

Lemma lineIntersectsRect_sound (x1 y1 x2 y2 : Q) (rect : Body.t) :
  0 <= Body.width rect -> 0 <= Body.height rect ->
  lineIntersectsRect x1 y1 x2 y2 rect = true ->
  exists t, 0 <= t /\ t <= 1
            /\ inBox rect (along x1 x2 t) (along y1 y2 t).
Proof.
  intros Hw Hh. unfold lineIntersectsRect. cbv zeta.
  destruct (_ || _ || _ || _); [discriminate|].
  destruct (_ && _ && _ && _ || _) eqn:E.
  { intros _. apply orb_true_iff in E. destruct E as [E | E];
      apply andb_true_iff in E; destruct E as [E E4];
      apply andb_true_iff in E; destruct E as [E E3];
      apply andb_true_iff in E; destruct E as [E1 E2];
      apply Qleb_true_iff in E1, E2, E3, E4;
      [exists 0 | exists 1]; unfold inBox, along; repeat split; lra. }
  intros H.
  assert (Hx : Body.x rect <= Body.x rect + Body.width rect) by lra.
  assert (Hy : Body.y rect <= Body.y rect + Body.height rect) by lra.
  apply orb_true_iff in H. destruct H as [H | H];
    [apply orb_true_iff in H; destruct H as [H | H];
     [apply orb_true_iff in H; destruct H as [H | H]|]|];
    apply lineIntersectsLine_sound in H;
    destruct H as (t & u & Ht0 & Ht1 & Hu0 & Hu1 & Ex & Ey);
    exists t; (split; [exact Ht0|]); (split; [exact Ht1|]);
    unfold inBox; rewrite Ex, Ey.
  - rewrite along_same.
    destruct (along_between _ _ u Hu0 Hu1 Hx). repeat split; lra.
  - rewrite along_same.
    destruct (along_between _ _ u Hu0 Hu1 Hy). repeat split; lra.
  - rewrite along_same.
    destruct (along_between_rev _ _ u Hu0 Hu1 Hx). repeat split; lra.
  - rewrite along_same.
    destruct (along_between_rev _ _ u Hu0 Hu1 Hy). repeat split; lra.
Qed.

Lemma Qdiv_eqn (n d : Q) : ~ d == 0 -> (n / d) * d == n.
Proof. intros. field. assumption. Qed.

(** A segment that starts below [lo] on one axis and reaches the box
    [[lo, hi] x [qlo, qhi]] crosses its boundary: the side [lo] of the
    first axis, or one of the two sides of the second. *)
Lemma crossing (p1 p2 q1 q2 lo hi qlo qhi t0 : Q) :
  0 <= t0 -> t0 <= 1 ->
  p1 < lo -> lo <= along p1 p2 t0 -> along p1 p2 t0 <= hi ->
  qlo <= along q1 q2 t0 -> along q1 q2 t0 <= qhi ->
  exists t,
    0 <= t /\ t <= 1
    /\ ((~ p1 == p2 /\ along p1 p2 t == lo
         /\ qlo <= along q1 q2 t /\ along q1 q2 t <= qhi)
        \/ (~ q1 == q2 /\ along q1 q2 t == qlo
            /\ lo <= along p1 p2 t /\ along p1 p2 t <= hi)
        \/ (~ q1 == q2 /\ along q1 q2 t == qhi
            /\ lo <= along p1 p2 t /\ along p1 p2 t <= hi)).
Proof.
  unfold along. intros H0 H1 Hp Hlo Hhi Hqlo Hqhi.
  assert (Hdp : 0 < p2 - p1) by nra.
  set (tL := (lo - p1) / (p2 - p1)).
  assert (EL : tL * (p2 - p1) == lo - p1) by (apply Qdiv_eqn; lra).
  assert (HL0 : 0 < tL) by nra.
  assert (HLt : tL <= t0) by nra.
  destruct (Qlt_le_dec (q1 + tL * (q2 - q1)) qlo) as [Hb | Hb].
  - (* under the box where it crosses [lo] *)
    assert (Hdq : 0 < q2 - q1) by nra.
    set (tQ := (qlo - q1) / (q2 - q1)).
    assert (EQ : tQ * (q2 - q1) == qlo - q1) by (apply Qdiv_eqn; lra).
    assert (tL < tQ) by nra.
    assert (tQ <= t0) by nra.
    exists tQ. split; [lra|]. split; [lra|]. right. left.
    split; [lra|]. split; [lra|]. split; nra.
  - destruct (Qlt_le_dec qhi (q1 + tL * (q2 - q1))) as [Ha | Ha].
    + assert (Hdq : q2 - q1 < 0) by nra.
      set (tQ := (qhi - q1) / (q2 - q1)).
      assert (EQ : tQ * (q2 - q1) == qhi - q1) by (apply Qdiv_eqn; lra).
      assert (tL < tQ) by nra.
      assert (tQ <= t0) by nra.
      exists tQ. split; [lra|]. split; [lra|]. right. right.
      split; [lra|]. split; [lra|]. split; nra.
    + exists tL. split; [lra|]. split; [lra|]. left.
      split; [lra|]. split; [lra|]. split; lra.
Qed.

(** The same for a segment that starts above [hi]. *)
Lemma crossing_from_above (p1 p2 q1 q2 lo hi qlo qhi t0 : Q) :
  0 <= t0 -> t0 <= 1 ->
  hi < p1 -> lo <= along p1 p2 t0 -> along p1 p2 t0 <= hi ->
  qlo <= along q1 q2 t0 -> along q1 q2 t0 <= qhi ->
  exists t,
    0 <= t /\ t <= 1
    /\ ((~ p1 == p2 /\ along p1 p2 t == hi
         /\ qlo <= along q1 q2 t /\ along q1 q2 t <= qhi)
        \/ (~ q1 == q2 /\ along q1 q2 t == qlo
            /\ lo <= along p1 p2 t /\ along p1 p2 t <= hi)
        \/ (~ q1 == q2 /\ along q1 q2 t == qhi
            /\ lo <= along p1 p2 t /\ along p1 p2 t <= hi)).
Proof.
  intros H0 H1 Hp Hlo Hhi Hqlo Hqhi.
  assert (N : forall t, along (- p1) (- p2) t == - along p1 p2 t)
    by (intros t; unfold along; ring).
  destruct (crossing (- p1) (- p2) q1 q2 (- hi) (- lo) qlo qhi t0)
    as (t & Ht0 & Ht1 & H); try assumption; rewrite ?N; try lra.
  exists t. split; [exact Ht0|]. split; [exact Ht1|].
  rewrite !N in H.
  destruct H as [(A & B & C & D) | [(A & B & C & D) | (A & B & C & D)]].
  - left. repeat split; lra.
  - right. left. repeat split; lra.
  - right. right. repeat split; lra.
Qed.

(** A segment that is not vertical and passes through a point of a
    vertical edge meets that edge, whichever way the edge is listed. *)
Lemma meets_vertical_edge (x1 y1 x2 y2 e ya yb t : Q) :
  ~ x1 == x2 -> ~ ya == yb -> 0 <= t -> t <= 1 ->
  along x1 x2 t == e ->
  (ya <= along y1 y2 t /\ along y1 y2 t <= yb)
  \/ (yb <= along y1 y2 t /\ along y1 y2 t <= ya) ->
  lineIntersectsLine x1 y1 x2 y2 e ya e yb = true.
Proof.
  intros Hx Hy Ht0 Ht1 Ex Hb.
  apply (lineIntersectsLine_complete _ _ _ _ _ _ _ _ t
           ((along y1 y2 t - ya) / (yb - ya))).
  - intros E.
    assert (E' : (x1 - x2) * (ya - yb) == 0) by (rewrite <- E; ring).
    apply Qmult_integral in E'. destruct E' as [E' | E'];
      [apply Hx | apply Hy]; lra.
  - assert (Eu : (along y1 y2 t - ya) / (yb - ya) * (yb - ya)
                 == along y1 y2 t - ya) by (apply Qdiv_eqn; lra).
    set (u := (along y1 y2 t - ya) / (yb - ya)) in *.
    unfold meetAt. split; [exact Ht0|]. split; [exact Ht1|].
    assert (Hne : ya < yb \/ yb < ya)
      by (destruct (Q_dec ya yb) as [[?|?]|?]; [auto | auto | contradiction]).
    split; [destruct Hne, Hb; nra|]. split; [destruct Hne, Hb; nra|].
    split; [rewrite Ex; unfold along; ring|].
    unfold along at 2. lra.
Qed.

Lemma meets_horizontal_edge (x1 y1 x2 y2 e xa xb t : Q) :
  ~ y1 == y2 -> ~ xa == xb -> 0 <= t -> t <= 1 ->
  along y1 y2 t == e ->
  (xa <= along x1 x2 t /\ along x1 x2 t <= xb)
  \/ (xb <= along x1 x2 t /\ along x1 x2 t <= xa) ->
  lineIntersectsLine x1 y1 x2 y2 xa e xb e = true.
Proof.
  intros Hy Hx Ht0 Ht1 Ey Hb.
  apply (lineIntersectsLine_complete _ _ _ _ _ _ _ _ t
           ((along x1 x2 t - xa) / (xb - xa))).
  - intros E.
    assert (E' : (y1 - y2) * (xa - xb) == 0)
      by (rewrite <- (Qopp_involutive ((y1 - y2) * (xa - xb)));
          setoid_replace (- ((y1 - y2) * (xa - xb)))
            with ((x1 - x2) * (e - e) - (y1 - y2) * (xa - xb)) by ring;
          rewrite E; reflexivity).
    apply Qmult_integral in E'. destruct E' as [E' | E'];
      [apply Hy | apply Hx]; lra.
  - assert (Eu : (along x1 x2 t - xa) / (xb - xa) * (xb - xa)
                 == along x1 x2 t - xa) by (apply Qdiv_eqn; lra).
    set (u := (along x1 x2 t - xa) / (xb - xa)) in *.
    unfold meetAt. split; [exact Ht0|]. split; [exact Ht1|].
    assert (Hne : xa < xb \/ xb < xa)
      by (destruct (Q_dec xa xb) as [[?|?]|?]; [auto | auto | contradiction]).
    split; [destruct Hne, Hb; nra|]. split; [destruct Hne, Hb; nra|].
    split; [unfold along at 2; lra|].
    rewrite Ey. unfold along. ring.
Qed.

Lemma along_below (a b t lo : Q) :
  0 <= t -> t <= 1 -> a < lo -> b < lo -> along a b t < lo.
Proof.
  unfold along. intros H0 H1 Ha Hb.
  destruct (Qlt_le_dec a b); nra.
Qed.

Lemma along_above (a b t hi : Q) :
  0 <= t -> t <= 1 -> hi < a -> hi < b -> hi < along a b t.
Proof.
  unfold along. intros H0 H1 Ha Hb.
  destruct (Qlt_le_dec a b); nra.
Qed.

Lemma lineIntersectsRect_complete (x1 y1 x2 y2 : Q) (rect : Body.t) :
  0 < Body.width rect -> 0 < Body.height rect ->
  (exists t, 0 <= t /\ t <= 1
             /\ inBox rect (along x1 x2 t) (along y1 y2 t)) ->
  lineIntersectsRect x1 y1 x2 y2 rect = true.
Proof.
  intros Hw Hh (t0 & H0 & H1 & HL & HR & HT & HB).
  unfold lineIntersectsRect. cbv zeta.
  set (L := Body.x rect) in *. set (T := Body.y rect) in *.
  set (R := L + Body.width rect) in *. set (B := T + Body.height rect) in *.
  assert (HLR : ~ L == R) by (unfold R; lra).
  assert (HRL : ~ R == L) by (unfold R; lra).
  assert (HTB : ~ T == B) by (unfold B; lra).
  assert (HBT : ~ B == T) by (unfold B; lra).
  (* the segment is not wholly on one side of the box *)
  replace ((x1 <? L) && (x2 <? L)) with false
    by (symmetry; apply not_true_is_false; intros E;
        apply andb_true_iff in E; destruct E as [Ea Eb];
        apply Qltb_true_iff in Ea, Eb;
        pose proof (along_below x1 x2 t0 L H0 H1 Ea Eb); lra).
  replace ((R <? x1) && (R <? x2)) with false
    by (symmetry; apply not_true_is_false; intros E;
        apply andb_true_iff in E; destruct E as [Ea Eb];
        apply Qltb_true_iff in Ea, Eb;
        pose proof (along_above x1 x2 t0 R H0 H1 Ea Eb); lra).
  replace ((y1 <? T) && (y2 <? T)) with false
    by (symmetry; apply not_true_is_false; intros E;
        apply andb_true_iff in E; destruct E as [Ea Eb];
        apply Qltb_true_iff in Ea, Eb;
        pose proof (along_below y1 y2 t0 T H0 H1 Ea Eb); lra).
  replace ((B <? y1) && (B <? y2)) with false
    by (symmetry; apply not_true_is_false; intros E;
        apply andb_true_iff in E; destruct E as [Ea Eb];
        apply Qltb_true_iff in Ea, Eb;
        pose proof (along_above y1 y2 t0 B H0 H1 Ea Eb); lra).
  cbv beta iota delta [orb].
  destruct ((L <=? x1) && (x1 <=? R) && (T <=? y1) && (y1 <=? B)) eqn:E1;
    [reflexivity|].
  destruct ((L <=? x2) && (x2 <=? R) && (T <=? y2) && (y2 <=? B));
    [reflexivity|].
  change (lineIntersectsLine x1 y1 x2 y2 L T R T
          || lineIntersectsLine x1 y1 x2 y2 R T R B
          || lineIntersectsLine x1 y1 x2 y2 R B L B
          || lineIntersectsLine x1 y1 x2 y2 L B L T = true).
  (* the first end point is outside: on which side? *)
  assert (Hout : x1 < L \/ R < x1 \/ y1 < T \/ B < y1).
  { destruct (Qlt_le_dec x1 L); [auto|].
    destruct (Qlt_le_dec R x1); [auto|].
    destruct (Qlt_le_dec y1 T); [auto|].
    destruct (Qlt_le_dec B y1); [auto|].
    exfalso. revert E1.
    rewrite (proj2 (Qleb_true_iff L x1)), (proj2 (Qleb_true_iff x1 R)),
      (proj2 (Qleb_true_iff T y1)), (proj2 (Qleb_true_iff y1 B));
      [discriminate | assumption..]. }
  destruct Hout as [Ho | [Ho | [Ho | Ho]]].
  - destruct (crossing x1 x2 y1 y2 L R T B t0)
      as (t & Ht0 & Ht1 & [(A & E & C & D) | [(A & E & C & D) | (A & E & C & D)]]);
      try assumption.
    + rewrite (meets_vertical_edge x1 y1 x2 y2 L B T t); auto.
      rewrite !orb_true_r. reflexivity.
    + rewrite (meets_horizontal_edge x1 y1 x2 y2 T L R t); auto.
    + rewrite (meets_horizontal_edge x1 y1 x2 y2 B R L t); auto.
      rewrite !orb_true_r. reflexivity.
  - destruct (crossing_from_above x1 x2 y1 y2 L R T B t0)
      as (t & Ht0 & Ht1 & [(A & E & C & D) | [(A & E & C & D) | (A & E & C & D)]]);
      try assumption.
    + rewrite (meets_vertical_edge x1 y1 x2 y2 R T B t); auto.
      rewrite !orb_true_r. reflexivity.
    + rewrite (meets_horizontal_edge x1 y1 x2 y2 T L R t); auto.
    + rewrite (meets_horizontal_edge x1 y1 x2 y2 B R L t); auto.
      rewrite !orb_true_r. reflexivity.
  - destruct (crossing y1 y2 x1 x2 T B L R t0)
      as (t & Ht0 & Ht1 & [(A & E & C & D) | [(A & E & C & D) | (A & E & C & D)]]);
      try assumption.
    + rewrite (meets_horizontal_edge x1 y1 x2 y2 T L R t); auto.
    + rewrite (meets_vertical_edge x1 y1 x2 y2 L B T t); auto.
      rewrite !orb_true_r. reflexivity.
    + rewrite (meets_vertical_edge x1 y1 x2 y2 R T B t); auto.
      rewrite !orb_true_r. reflexivity.
  - destruct (crossing_from_above y1 y2 x1 x2 T B L R t0)
      as (t & Ht0 & Ht1 & [(A & E & C & D) | [(A & E & C & D) | (A & E & C & D)]]);
      try assumption.
    + rewrite (meets_horizontal_edge x1 y1 x2 y2 B R L t); auto.
      rewrite !orb_true_r. reflexivity.
    + rewrite (meets_vertical_edge x1 y1 x2 y2 L B T t); auto.
      rewrite !orb_true_r. reflexivity.
    + rewrite (meets_vertical_edge x1 y1 x2 y2 R T B t); auto.
      rewrite !orb_true_r. reflexivity.
Qed.

(** X12.  [lineIntersectsRect] is exact on a body of positive width and
    height: it returns true exactly when some point of the segment lies in
    the body's box (edges included). *)
Theorem lineIntersectsRect_exact (x1 y1 x2 y2 : Q) (rect : Body.t) :
  0 < Body.width rect -> 0 < Body.height rect ->
  (lineIntersectsRect x1 y1 x2 y2 rect = true
   <-> exists t, 0 <= t /\ t <= 1
                 /\ inBox rect (along x1 x2 t) (along y1 y2 t)).
Proof.
  intros Hw Hh. split.
  - apply lineIntersectsRect_sound; lra.
  - apply lineIntersectsRect_complete; assumption.
Qed.

Lemma lineIntersectsRect_exact_witness :
  lineIntersectsRect 0 0 100 0 wall = true
  /\ lineIntersectsRect 0 20 100 20 wall = false.
Proof.
  assert (Hw : 0 < Body.width wall) by (vm_compute; reflexivity).
  assert (Hh : 0 < Body.height wall) by (vm_compute; reflexivity).
  split.
  - apply (lineIntersectsRect_exact 0 0 100 0 wall Hw Hh).
    exists (17 # 20). unfold inBox, along. vm_compute.
    repeat split; discriminate.
  - apply not_true_is_false. intros H.
    apply (lineIntersectsRect_exact 0 20 100 20 wall Hw Hh) in H.
    destruct H as (t & _ & _ & _ & _ & _ & H).
    rewrite along_same in H. vm_compute in H. apply H. reflexivity.
Defined.

(** X13.  [raycast] returns [null] exactly when no body passes the layer
    filter and the box test.  Otherwise it returns the first such body in
    the Map's insertion order (not the one nearest to the start of the
    ray), and the point it reports is the middle of the ray, whichever body
    was hit. *)
Theorem raycast_first_in_order (startX startY endX endY : Q)
  (layer : option string) (bs : Bodies) :
  (raycast startX startY endX endY layer bs = None
   <-> forall body, In body bs ->
                    rayMeets startX startY endX endY layer body = false)
  /\ forall body point,
       raycast startX startY endX endY layer bs = Some (body, point) ->
       point = ((startX + endX) / 2, (startY + endY) / 2)
       /\ rayMeets startX startY endX endY layer body = true
       /\ exists before after,
            bs = before ++ body :: after
            /\ forall b, In b before ->
                         rayMeets startX startY endX endY layer b = false.
Proof.
  unfold raycast.
  change (fun body : Body.t =>
            negb (layerExcludes layer body)
            && lineIntersectsRect startX startY endX endY body)
    with (rayMeets startX startY endX endY layer).
  set (f := rayMeets startX startY endX endY layer).
  split.
  - destruct (find f bs) as [b|] eqn:E.
    + split; [discriminate|]. intros H.
      apply find_some in E. destruct E as [Hin Hf].
      rewrite (H b Hin) in Hf. discriminate.
    + split; [|reflexivity]. intros _ body Hin.
      apply (find_none f bs E body Hin).
  - intros body point H.
    destruct (find f bs) as [b|] eqn:E; [|discriminate].
    injection H as <- <-.
    split; [reflexivity|].
    split; [apply (find_some f bs E)|].
    clear -E. induction bs as [|b0 rest IH]; [discriminate|].
    simpl in E. destruct (f b0) eqn:E0.
    + injection E as ->. exists [], rest. split; [reflexivity|].
      intros b' [].
    + destruct (IH E) as (before & after & -> & Hb).
      exists (b0 :: before), after. split; [reflexivity|].
      intros b' [<- | Hin]; [exact E0 | apply Hb; exact Hin].
Qed.

Lemma raycast_first_in_order_witness :
  exists point,
    raycast 0 0 100 0 None [wall] = Some (wall, point)
    /\ point = ((0 + 100) / 2, (0 + 0) / 2)
    /\ ~ inBox wall (fst point) (snd point).
Proof.
  destruct (raycast 0 0 100 0 None [wall]) as [[body point]|] eqn:E;
    [|vm_compute in E; discriminate E].
  destruct (proj2 (raycast_first_in_order 0 0 100 0 None [wall])
              body point E) as (Hp & _).
  assert (Hb : body = wall).
  { unfold raycast in E. vm_compute in E. injection E as <- _.
    reflexivity. }
  exists point. subst body. split; [reflexivity|]. split; [exact Hp|].
  rewrite Hp. unfold inBox. cbn [fst snd]. intros (H & _).
  vm_compute in H. apply H. reflexivity.
Defined.

(** ** The combatants of a new match *)

Lemma player_of_battleWorld :
  getCharacter "player" battleWorld = Some battlePlayer.
Proof. vm_compute. reflexivity. Qed.

Lemma opponent_of_battleWorld :
  getCharacter "opponent" battleWorld = Some battleOpponent.
Proof. vm_compute. reflexivity. Qed.

(** ** The invulnerability window *)

Lemma setAnimation_fields name c :
  let c' := Character_setAnimation name c in
  Char.invulnerabilityTime c' = Char.invulnerabilityTime c
  /\ Char.isDead c' = Char.isDead c
  /\ Char.isStunned c' = Char.isStunned c
  /\ Char.isDashing c' = Char.isDashing c
  /\ Char.isBlocking c' = Char.isBlocking c
  /\ Char.attackCooldown c' = Char.attackCooldown c
  /\ Char.blockCooldown c' = Char.blockCooldown c
  /\ Char.dashCooldown c' = Char.dashCooldown c
  /\ Char.abilities c' = Char.abilities c
  /\ Char.id c' = Char.id c
  /\ Char.type c' = Char.type c
  /\ Char.rageActive c' = Char.rageActive c.
Proof.
  cbv zeta. unfold Character_setAnimation.
  destruct (negb _); repeat split.
Qed.

(** X15.  A hit opens a window of invulnerability: whatever [takeDamage]
    did, a second [takeDamage] right after it does nothing; and after a hit
    on a living combatant that was not invulnerable, [takeDamage] keeps
    doing nothing once a tick shorter than 0.2 s has run. *)
Theorem hit_opens_invulnerability {Arena : Type} (self : string)
  (amount : Q) (attacker : option string) (w : World.t Arena) :
  let hit := Character_takeDamage self amount attacker w in
  (forall amount' attacker',
     Character_takeDamage self amount' attacker' hit = hit)
  /\ (forall c dt amount' attacker',
        getCharacter self w = Some c ->
        Char.isDead c = false -> Char.invulnerabilityTime c <= 0 ->
        0 <= dt -> dt < 0.2 ->
        let later := Character_update self dt hit in
        Character_takeDamage self amount' attacker' later = later).
Proof.
  cbv zeta. split.
  - intros amount' attacker'.
    destruct (getCharacter self w) as [c|] eqn:Hc.
    + pose proof (takeDamage_character self amount attacker c w Hc) as H.
      unfold Character_takeDamage at 1. rewrite H.
      destruct ((0 <? Char.invulnerabilityTime c) || Char.isDead c) eqn:E;
        [rewrite E; reflexivity|].
      destruct (setAnimation_fields Animation.hurt
                  (Char.set_invulnerabilityTime 0.2
                     (Char.set_health (Qmax 0 (Char.health c - amount)) c)))
        as (-> & _).
      reflexivity.
    + unfold Character_takeDamage. rewrite Hc, Hc. reflexivity.
  - intros c dt amount' attacker' Hc Hd Hi H0 H1.
    pose proof (takeDamage_character self amount attacker c w Hc) as H.
    rewrite Hd, (proj2 (Qltb_false_iff _ _) Hi) in H. cbn [orb] in H.
    destruct (setAnimation_fields Animation.hurt
                (Char.set_invulnerabilityTime 0.2
                   (Char.set_health (Qmax 0 (Char.health c - amount)) c)))
      as (Ei & Ed & _).
    destruct (update_clamps_timers self dt _ _ H)
      as (c' & Hc' & _ & _ & _ & _ & Hinv);
      [rewrite Ed; exact Hd|].
    rewrite Ei in Hinv. cbn [Char.invulnerabilityTime
                               Char.set_invulnerabilityTime] in Hinv.
    unfold Character_takeDamage at 1. rewrite Hc', Hinv.
    replace (0 <? Qmax 0 (0.2 - dt)) with true; [reflexivity|].
    symmetry. apply Qltb_true_iff.
    rewrite (Q.max_r 0 (0.2 - dt)) by lra. lra.
Qed.

Lemma hit_opens_invulnerability_witness :
  Character_takeDamage "player" 50 None
    (Character_update "player" (1 / 30)
       (Character_takeDamage "player" 10 (Some "opponent"%string)
          battleWorld))
  = Character_update "player" (1 / 30)
      (Character_takeDamage "player" 10 (Some "opponent"%string)
         battleWorld).
Proof.
  apply (proj2 (hit_opens_invulnerability "player" 10
                  (Some "opponent"%string) battleWorld) battlePlayer).
  - exact player_of_battleWorld.
  - reflexivity.
  - vm_compute. discriminate.
  - vm_compute. discriminate.
  - vm_compute. reflexivity.
Defined.

(** ** The cooldown of an attack *)

Lemma isCharacter_getCharacter {Arena : Type} id (w : World.t Arena) :
  isCharacter id w = true -> exists c, getCharacter id w = Some c.
Proof.
  unfold isCharacter. destruct (getCharacter id w) as [c|]; [eauto|].
  discriminate.
Qed.

Lemma attack_isCharacter {Arena : Type} self ability id
  (w : World.t Arena) :
  isCharacter id (Character_attack self ability w) = isCharacter id w.
Proof.
  unfold Character_attack.
  destruct (getCharacter self w) as [c|] eqn:Hc; [|reflexivity].
  match goal with
  | |- isCharacter id (setTimeout ?a ?d ?w1) = _ =>
      rewrite (isCharacter_ext id w1 (setTimeout a d w1) eq_refl)
  end.
  rewrite <- (isCharacter_setCharacter self c
                (Character_setAnimation Animation.attack
                   (Char.set_isAttacking true c)) id w Hc).
  generalize (setCharacter self
                (Character_setAnimation Animation.attack
                   (Char.set_isAttacking true c)) w) as w1.
  intros w1.
  generalize (attackTargets
                (Character_setAnimation Animation.attack
                   (Char.set_isAttacking true c)) ability
                (World.bodies w1)) as targets.
  intros targets. revert w1.
  induction targets as [|target targets IH]; intros w1; [reflexivity|].
  cbn [fold_left]. rewrite IH.
  destruct (getCharacter (Body.id target) w1); [|reflexivity].
  destruct (negb _); [|reflexivity].
  apply dealDamage_isCharacter.
Qed.

Lemma getCharacter_call {Arena : Type} self f c (w : World.t Arena) :
  getCharacter self w = Some c ->
  getCharacter self (call self f w) = Some (f c).
Proof.
  intros Hc. unfold call. rewrite Hc.
  apply (getCharacter_setCharacter self c). exact Hc.
Qed.

(** The world after an attack that was accepted: the attacker is still
    registered, with the cooldown the attack set. *)
Lemma attack_sets_cooldown {Arena : Type} self ability cooldown c
  (w : World.t Arena) :
  getCharacter self w = Some c ->
  exists c',
    getCharacter self
      (call self (Char.set_attackCooldown cooldown)
         (Character_attack self ability w))
    = Some (Char.set_attackCooldown cooldown c').
Proof.
  intros Hc.
  assert (H : isCharacter self (Character_attack self ability w) = true)
    by (rewrite attack_isCharacter; unfold isCharacter; rewrite Hc;
        reflexivity).
  destruct (isCharacter_getCharacter _ _ H) as (c' & Hc').
  exists c'. apply getCharacter_call. exact Hc'.
Qed.

Lemma cooling_attacksRefused {Arena : Type} self c (w : World.t Arena) :
  getCharacter self w = Some c -> 0 < Char.attackCooldown c ->
  attacksRefused self w.
Proof.
  intros Hc Hcd. apply Qltb_true_iff in Hcd.
  unfold attacksRefused, Character_lightAttack, Character_heavyAttack,
    Character_shadowStrike, Character_shieldBash, Character_fireball.
  rewrite Hc, Hcd. cbn [orb].
  repeat split; try intros now;
    match goal with
    | |- match ?a with _ => _ end = _ => destruct a; reflexivity
    end.
Qed.

(** X16.  An accepted [lightAttack] or [heavyAttack] starts the attack
    cooldown (the ability's cooldown, twice that for a heavy attack), and
    while any of it is left [lightAttack], [heavyAttack], [shadowStrike],
    [shieldBash] and [fireball] are refused and change nothing. *)
Theorem attack_starts_cooldown {Arena : Type} (self : string) (c : Char.t)
  (w : World.t Arena) :
  getCharacter self w = Some c ->
  Char.attackCooldown c <= 0 ->
  Char.isStunned c = false -> Char.isDead c = false ->
  let light := Abilities.lightAttack (Char.abilities c) in
  let heavy :=
    match Abilities.heavyAttack (Char.abilities c) with
    | Some a => a
    | None => light
    end in
  0 < Ability.cooldown light -> 0 < Ability.cooldown heavy ->
  (fst (Character_lightAttack self w) = true
   /\ attacksRefused self (snd (Character_lightAttack self w))
   /\ exists c', getCharacter self (snd (Character_lightAttack self w))
                 = Some c'
                 /\ Char.attackCooldown c' = Ability.cooldown light)
  /\ (fst (Character_heavyAttack self w) = true
      /\ attacksRefused self (snd (Character_heavyAttack self w))
      /\ exists c', getCharacter self (snd (Character_heavyAttack self w))
                    = Some c'
                    /\ Char.attackCooldown c' = Ability.cooldown heavy * 2).
Proof.
  intros Hc Hcd Hs Hd light heavy Hlight Hheavy.
  unfold Character_lightAttack, Character_heavyAttack.
  rewrite Hc, Hs, Hd, (proj2 (Qltb_false_iff _ _) Hcd).
  cbn [orb fst snd]. fold light. fold heavy.
  split.
  - destruct (attack_sets_cooldown self light (Ability.cooldown light)
                c w Hc) as (c' & Hc').
    split; [reflexivity|]. split.
    + eapply cooling_attacksRefused; [exact Hc' | exact Hlight].
    + eexists. split; [exact Hc' | reflexivity].
  - match goal with
    | |- context [Character_attack self ?ab w] =>
        destruct (attack_sets_cooldown self ab
                    (Ability.cooldown heavy * 2) c w Hc) as (c' & Hc')
    end.
    split; [reflexivity|]. split.
    + eapply cooling_attacksRefused; [exact Hc'|].
      cbn [Char.attackCooldown Char.set_attackCooldown]. lra.
    + eexists. split; [exact Hc' | reflexivity].
Qed.

Lemma attack_starts_cooldown_witness :
  fst (Character_lightAttack "player" battleWorld) = true
  /\ attacksRefused "player"
       (snd (Character_lightAttack "player" battleWorld)).
Proof.
  assert (H0 : Char.attackCooldown battlePlayer <= 0)
    by (vm_compute; discriminate).
  assert (Hl : 0 < Ability.cooldown
                     (Abilities.lightAttack (Char.abilities battlePlayer)))
    by reflexivity.
  destruct (attack_starts_cooldown "player" battlePlayer battleWorld
              player_of_battleWorld H0 eq_refl eq_refl Hl Hl)
    as ((H1 & H2 & _) & _).
  split; assumption.
Defined.

(** ** Blocking again *)

(** X17.  After [stopBlock] a block cannot be started again before the
    block cooldown has run out: [startBlock] is refused right away and
    after a tick shorter than the cooldown, and it is accepted after a tick
    at least as long, by a combatant that is neither dead nor stunned. *)
Theorem block_waits_for_cooldown (dt : Q) (c : Char.t) :
  0 < Block.cooldown (Abilities.block (Char.abilities c)) ->
  let cooldown := Block.cooldown (Abilities.block (Char.abilities c)) in
  let released := Character_stopBlock c in
  let later := Character_updateTimers dt released in
  Character_startBlock released = (false, released)
  /\ (dt < cooldown -> Character_startBlock later = (false, later))
  /\ (cooldown <= dt -> Char.isDead c = false -> Char.isStunned c = false ->
      fst (Character_startBlock later) = true
      /\ Char.isBlocking (snd (Character_startBlock later)) = true).
Proof.
  intros Hcd. cbv zeta.
  destruct (updateTimers_timers dt (Character_stopBlock c))
    as (_ & Hb & _).
  destruct (updateTimers_frame dt (Character_stopBlock c))
    as (_ & _ & Hd & _).
  assert (Hs : Char.isStunned c = false ->
               Char.isStunned (Character_updateTimers dt (Character_stopBlock c))
               = false).
  { intros H. unfold Character_updateTimers. cbv zeta.
    destruct (_ <=? 0); [reflexivity | exact H]. }
  cbn [Char.blockCooldown Character_stopBlock Char.set_blockCooldown
       Char.set_isBlocking Char.isDead] in Hb, Hd.
  split; [|split].
  - unfold Character_startBlock.
    cbn [Char.blockCooldown Character_stopBlock Char.set_blockCooldown].
    rewrite (proj2 (Qltb_true_iff _ _) Hcd). reflexivity.
  - intros Hlt. unfold Character_startBlock. rewrite Hb.
    replace (0 <? Qmax 0 _) with true; [reflexivity|].
    symmetry. apply Qltb_true_iff.
    rewrite Q.max_r by lra. lra.
  - intros Hge Hdead Hstun. unfold Character_startBlock.
    rewrite Hb, Hd, Hdead, (Hs Hstun).
    replace (0 <? Qmax 0 _) with false.
    + cbn [orb fst snd]. split; [reflexivity|].
      destruct (setAnimation_fields Animation.block
                  (Char.set_isBlocking true
                     (Character_updateTimers dt (Character_stopBlock c))))
        as (_ & _ & _ & _ & -> & _).
      reflexivity.
    + symmetry. apply Qltb_false_iff. rewrite Q.max_l by lra. lra.
Qed.

Lemma block_waits_for_cooldown_witness :
  Character_startBlock (Character_stopBlock freshNinja)
  = (false, Character_stopBlock freshNinja)
  /\ fst (Character_startBlock
            (Character_updateTimers 1 (Character_stopBlock freshNinja)))
     = true.
Proof.
  destruct (block_waits_for_cooldown 1 freshNinja) as (H1 & _ & H3).
  - reflexivity.
  - split; [exact H1|].
    apply H3; [vm_compute; discriminate | reflexivity | reflexivity].
Defined.

(** ** What a tick leaves of the state flags *)

Lemma ticked_flags {Arena : Type} dt c (w : World.t Arena) :
  flagsOf (ticked dt c w) = flagsOf c
  /\ Char.isStunned (ticked dt c w)
     = Char.isStunned (Character_updateTimers dt c).
Proof.
  unfold ticked.
  destruct (updateAnimation_only dt (Character_updateTimers dt c)) as [a Ha].
  rewrite Ha.
  assert (F : flagsOf (Character_updateTimers dt c) = flagsOf c)
    by (unfold Character_updateTimers; cbv zeta; destruct (_ <=? 0);
        reflexivity).
  set (c1 := Character_updateTimers dt c) in *.
  unfold Character_updateAbilities, Character_updateRage,
    Character_updatePosition.
  rewrite <- F.
  repeat break_if; split; reflexivity.
Qed.

Lemma die_flags c :
  let c' := Character_setAnimation Animation.death
              (Char.set_health 0 (Char.set_isDead true c)) in
  flagsOf c' = flagsOf c /\ Char.isStunned c' = Char.isStunned c.
Proof.
  cbv zeta. unfold Character_setAnimation.
  destruct (negb _); split; reflexivity.
Qed.

(** The flags of a living combatant after a tick. *)
Lemma update_flags {Arena : Type} self dt c (w : World.t Arena) :
  getCharacter self w = Some c ->
  Char.isDead c = false ->
  exists c',
    getCharacter self (Character_update self dt w) = Some c'
    /\ flagsOf c' = flagsOf c
    /\ Char.isStunned c' = Char.isStunned (Character_updateTimers dt c).
Proof.
  intros Hc Hd.
  destruct (Character_update_alive self dt c w Hc Hd) as (c' & Hget & Hc').
  exists c'. split; [exact Hget|].
  destruct (ticked_flags dt c w) as [F S].
  destruct Hc' as [-> | [_ ->]]; [split; assumption|].
  destruct (die_flags (ticked dt c w)) as [F' S'].
  rewrite F', S'. split; assumption.
Qed.

(** ** Stuns *)

(** X18.  [stun(duration)] on a living combatant damps the horizontal
    velocity of its body to a tenth and locks the combatant: [move], the
    three attacks, [dash] and [startBlock] are refused and change nothing.
    A block or dash in progress is not interrupted.  The lock lasts until
    a tick has used up the duration: after a tick of [dt] seconds the
    combatant is still stunned exactly when [dt < duration]. *)
Theorem stun_locks_until_elapsed {Arena : Type} (self : string)
  (duration : Q) (c : Char.t) (w : World.t Arena) :
  getCharacter self w = Some c ->
  Char.isDead c = false ->
  let w' := Character_stun self duration w in
  exists c',
    getCharacter self w' = Some c'
    /\ actionsRefused self c' w'
    /\ flagsOf c' = flagsOf c
    /\ World.bodies w'
       = modBody (Char.id c) (fun b => Body.set_vx (Body.vx b * 0.1) b)
           (World.bodies w)
    /\ forall dt,
         exists c'',
           getCharacter self (Character_update self dt w') = Some c''
           /\ (Char.isStunned c'' = true <-> dt < duration).
Proof.
  intros Hc Hd. cbv zeta.
  pose proof (stun_character self duration c w Hc) as Hc'.
  eexists. split; [exact Hc'|].
  split; [|split; [reflexivity|split; [apply stun_bodies; exact Hc|]]].
  - unfold actionsRefused, Character_move, Character_lightAttack,
      Character_heavyAttack, Character_specialAttack, Character_dash,
      Character_startBlock.
    rewrite Hc'.
    cbn [Char.isStunned Char.set_stunDuration Char.set_isStunned].
    rewrite !orb_true_r. cbn [orb]. repeat split.
  - intros dt.
    destruct (update_flags self dt _ _ Hc') as (c'' & Hget & _ & Hs);
      [exact Hd|].
    exists c''. split; [exact Hget|]. rewrite Hs.
    unfold Character_updateTimers. cbv zeta.
    cbn [Char.stunDuration Char.isStunned Char.set_stunDuration
         Char.set_isStunned Char.set_invulnerabilityTime
         Char.set_dashCooldown Char.set_blockCooldown
         Char.set_attackCooldown].
    destruct (Qmax 0 (duration - dt) <=? 0) eqn:E;
      [apply Qleb_true_iff in E | apply Qleb_false_iff in E];
      cbn [Char.isStunned Char.set_isStunned].
    + split; [discriminate|]. intros H.
      rewrite Q.max_r in E by lra. lra.
    + split; [|reflexivity]. intros _.
      destruct (Qlt_le_dec dt duration); [assumption|].
      rewrite Q.max_l in E by lra. lra.
Qed.

Lemma stun_locks_until_elapsed_witness :
  exists c',
    getCharacter "opponent" (Character_stun "opponent" 1 battleWorld)
    = Some c'
    /\ actionsRefused "opponent" c' (Character_stun "opponent" 1 battleWorld).
Proof.
  destruct (stun_locks_until_elapsed "opponent" 1 battleOpponent battleWorld
              opponent_of_battleWorld eq_refl) as (c' & H1 & H2 & _).
  exists c'. split; assumption.
Defined.

(** ** Dashes *)

(** X19.  An accepted [dash] sets the velocity of the combatant's body to
    [(directionX, directionY / 2)] times the dash speed (times the speed
    multiplier), starts the dash cooldown and schedules the end of the dash
    after [duration] seconds.  Until that timeout runs [move] is refused;
    when it has run, the combatant is no longer dashing. *)
Theorem dash_locks_movement {Arena : Type} (self : string)
  (directionX directionY : Q) (c : Char.t) (w : World.t Arena) :
  getCharacter self w = Some c ->
  Char.dashCooldown c <= 0 ->
  Char.isStunned c = false -> Char.isDead c = false ->
  let ability := Abilities.dash (Char.abilities c) in
  let dashSpeed := Dash.speed ability * Character_getSpeedMultiplier c in
  let r := Character_dash self directionX directionY w in
  fst r = true
  /\ World.bodies (snd r)
     = setVelocity (Char.id c) (directionX * dashSpeed)
         (directionY * dashSpeed * 0.5) (World.bodies w)
  /\ World.timeouts (snd r)
     = World.timeouts w ++ [(Dash.duration ability * 1000, EndDash self)]
  /\ (exists c',
        getCharacter self (snd r) = Some c'
        /\ Char.isDashing c' = true
        /\ Char.dashCooldown c' = Dash.cooldown ability)
  /\ (forall dx dy, Character_move self dx dy (snd r) = snd r)
  /\ (exists c',
        getCharacter self (runTimeout (EndDash self) (snd r)) = Some c'
        /\ Char.isDashing c' = false).
Proof.
  intros Hc Hcd Hs Hd. cbv zeta.
  unfold Character_dash.
  rewrite Hc, Hs, Hd, (proj2 (Qltb_false_iff _ _) Hcd). cbn [orb fst snd].
  set (c1 := Character_setAnimation Animation.dash
               (Char.set_isDashing true c)).
  destruct (setAnimation_fields Animation.dash (Char.set_isDashing true c))
    as (_ & _ & _ & Edash & _ & _ & _ & _ & Eab & Eid & Ety & Erage).
  fold c1 in Edash, Eab, Eid, Ety, Erage.
  cbn [Char.isDashing Char.abilities Char.id Char.type Char.rageActive
       Char.set_isDashing] in Edash, Eab, Eid, Ety, Erage.
  assert (Emul : Character_getSpeedMultiplier c1
                 = Character_getSpeedMultiplier c)
    by (unfold Character_getSpeedMultiplier; rewrite Eab, Ety, Erage;
        reflexivity).
  rewrite Eab, Eid, Emul.
  set (w1 := World.set_bodies _ (setCharacter self c1 w)).
  assert (H1 : getCharacter self w1 = Some c1)
    by (apply (getCharacter_setCharacter self c c1 w Hc)).
  pose proof (getCharacter_call self
                (Char.set_dashCooldown
                   (Dash.cooldown (Abilities.dash (Char.abilities c))))
                c1 w1 H1) as H2.
  set (w2 := call self _ w1) in *.
  assert (Hb : World.bodies w2 = World.bodies w1)
    by (unfold w2, call; rewrite H1; reflexivity).
  assert (Ht : World.timeouts w2 = World.timeouts w)
    by (unfold w2, call; rewrite H1; reflexivity).
  split; [reflexivity|].
  split; [cbn [World.bodies setTimeout World.set_timeouts]; rewrite Hb;
          reflexivity|].
  split; [cbn [World.timeouts setTimeout World.set_timeouts]; rewrite Ht;
          reflexivity|].
  assert (H3 : getCharacter self
                 (setTimeout (EndDash self)
                    (Dash.duration (Abilities.dash (Char.abilities c)) * 1000)
                    w2)
               = Some (Char.set_dashCooldown
                         (Dash.cooldown (Abilities.dash (Char.abilities c)))
                         c1))
    by exact H2.
  split.
  { eexists. split; [exact H3|].
    cbn [Char.isDashing Char.dashCooldown Char.set_dashCooldown].
    split; [exact Edash | reflexivity]. }
  split.
  { intros dx dy. unfold Character_move. rewrite H3.
    cbn [Char.isDashing Char.isStunned Char.set_dashCooldown].
    rewrite Edash, orb_true_r. reflexivity. }
  eexists. split.
  - unfold runTimeout. apply getCharacter_call. exact H3.
  - reflexivity.
Qed.

Lemma dash_locks_movement_witness :
  fst (Character_dash "player" 1 0 battleWorld) = true
  /\ forall dx dy,
       Character_move "player" dx dy
         (snd (Character_dash "player" 1 0 battleWorld))
       = snd (Character_dash "player" 1 0 battleWorld).
Proof.
  assert (H0 : Char.dashCooldown battlePlayer <= 0)
    by (vm_compute; discriminate).
  destruct (dash_locks_movement "player" 1 0 battlePlayer battleWorld
              player_of_battleWorld H0 eq_refl eq_refl)
    as (H1 & _ & _ & _ & H2 & _).
  split; assumption.
Defined.

(** ** Rage *)

Lemma player_of_berserkerWorld :
  getCharacter "player" berserkerWorld = Some berserkerPlayer.
Proof. vm_compute. reflexivity. Qed.

(** X20.  An accepted [rage] of a berserker multiplies its damage and its
    speed by the multipliers of the ability and schedules the end of the
    rage after [duration] seconds; a second [rage] is refused while the
    first is active.  When the timeout has run the multipliers are back to
    1, and [rage] stays refused as long as the rage cooldown is positive. *)
Theorem rage_multiplies_until_timeout {Arena : Type} (self : string)
  (c : Char.t) (ability : Rage.t) (w : World.t Arena) :
  getCharacter self w = Some c ->
  Char.type c = berserker ->
  Abilities.rage (Char.abilities c) = Some ability ->
  Char.rageActive c = false -> Char.rageCooldown c <= 0 ->
  let r := Character_rage self w in
  let ended := runTimeout (EndRage self) (snd r) in
  fst r = true
  /\ World.timeouts (snd r)
     = World.timeouts w ++ [(Rage.duration ability * 1000, EndRage self)]
  /\ Character_rage self (snd r) = (false, snd r)
  /\ (exists c',
        getCharacter self (snd r) = Some c'
        /\ Character_getDamageMultiplier c'
           == Rage.damageMultiplier ability
        /\ Character_getSpeedMultiplier c' == Rage.speedMultiplier ability
        /\ Char.rageCooldown c' = Rage.cooldown ability)
  /\ (exists c',
        getCharacter self ended = Some c'
        /\ Character_getDamageMultiplier c' = 1
        /\ Character_getSpeedMultiplier c' = 1)
  /\ (0 < Rage.cooldown ability -> Character_rage self ended = (false, ended)).
Proof.
  intros Hc Hty Hab Hact Hcd. cbv zeta.
  set (c1 := Char.set_rageCooldown (Rage.cooldown ability)
               (Char.set_rageDuration (Rage.duration ability)
                  (Char.set_rageActive true c))).
  set (w1 := setTimeout (EndRage self) (Rage.duration ability * 1000)
               (setCharacter self c1 w)).
  assert (Hr : Character_rage self w = (true, w1)).
  { unfold Character_rage.
    rewrite Hc, Hab, Hact, (proj2 (Qltb_false_iff _ _) Hcd). reflexivity. }
  rewrite Hr. cbn [fst snd].
  assert (H1 : getCharacter self w1 = Some c1)
    by (apply (getCharacter_setCharacter self c c1 w Hc)).
  pose proof (getCharacter_call self (Char.set_rageActive false) c1 w1 H1)
    as H2.
  split; [reflexivity|]. split; [reflexivity|].
  split.
  { unfold Character_rage. rewrite H1. unfold c1 at 1.
    cbn [Char.abilities Char.set_rageCooldown Char.set_rageDuration
         Char.set_rageActive Char.rageActive].
    rewrite Hab. reflexivity. }
  split.
  { exists c1. split; [exact H1|].
    unfold Character_getDamageMultiplier, Character_getSpeedMultiplier, c1.
    cbn [Char.abilities Char.type Char.rageActive Char.rageCooldown
         Char.set_rageCooldown Char.set_rageDuration Char.set_rageActive].
    rewrite Hty, Hab. repeat split; ring. }
  split.
  { eexists. split; [exact H2|].
    unfold Character_getDamageMultiplier, Character_getSpeedMultiplier, c1.
    cbn [Char.abilities Char.type Char.rageActive
         Char.set_rageCooldown Char.set_rageDuration Char.set_rageActive].
    rewrite Hty. split; reflexivity. }
  intros Hpos. cbn [runTimeout] in *.
  unfold Character_rage. rewrite H2. unfold c1.
  cbn [Char.abilities Char.rageActive Char.rageCooldown
       Char.set_rageCooldown Char.set_rageDuration Char.set_rageActive].
  rewrite Hab, (proj2 (Qltb_true_iff _ _) Hpos). reflexivity.
Qed.

Lemma rage_multiplies_until_timeout_witness :
  fst (Character_rage "player" berserkerWorld) = true
  /\ exists c',
       getCharacter "player" (snd (Character_rage "player" berserkerWorld))
       = Some c'
       /\ Character_getDamageMultiplier c' == 1.5.
Proof.
  assert (H0 : Char.rageCooldown berserkerPlayer <= 0)
    by (vm_compute; discriminate).
  destruct (rage_multiplies_until_timeout "player" berserkerPlayer
              (Rage.mk 5 15 1.5 1.3) berserkerWorld
              player_of_berserkerWorld eq_refl eq_refl eq_refl H0)
    as (H1 & _ & _ & (c' & Hc' & Hm & _) & _).
  split; [exact H1|]. exists c'. split; [exact Hc' | exact Hm].
Defined.

(** ** The engine's table of objects *)

Section Objects.

Context {Arena : Type}.

Variable Arena_destroy : Arena -> World.t Arena -> World.t Arena.

Implicit Types w : World.t Arena.

Lemma set_gameObjects_eta w : World.set_gameObjects (World.gameObjects w) w = w.
Proof. destruct w; reflexivity. Qed.

Lemma getGameObject_addGameObject_other id other obj w :
  other <> id ->
  getGameObject other (addGameObject id obj w) = getGameObject other w.
Proof.
  intros Hne.
  assert (Hb : String.eqb id other = false)
    by (apply String.eqb_neq; congruence).
  unfold getGameObject, addGameObject. cbn [World.gameObjects
                                            World.set_gameObjects].
  induction (World.gameObjects w) as [|kv rest IH]; simpl.
  - rewrite Hb. reflexivity.
  - destruct (String.eqb (fst kv) id) eqn:E; simpl.
    + apply String.eqb_eq in E. rewrite E, Hb. reflexivity.
    + destruct (String.eqb (fst kv) other); [reflexivity | exact IH].
Qed.

Lemma filter_absent (id : string) (objs : list (string * GameObject Arena)) :
  find (fun kv => String.eqb (fst kv) id) objs = None ->
  filter (fun kv => negb (String.eqb (fst kv) id)) objs = objs.
Proof.
  induction objs as [|kv rest IH]; [reflexivity|]. simpl.
  destruct (String.eqb (fst kv) id); [discriminate|].
  intros H. simpl. rewrite IH; [reflexivity | exact H].
Qed.

(** A removal of a key that is not registered changes nothing. *)
Lemma removeGameObject_absent id w :
  getGameObject id w = None -> removeGameObject Arena_destroy id w = w.
Proof.
  intros H. unfold removeGameObject. rewrite H.
  unfold getGameObject in H.
  rewrite filter_absent; [apply set_gameObjects_eta|].
  destruct (find _ _); [discriminate | reflexivity].
Qed.

(** X21.  The object table of the engine.  [addGameObject(id, obj)]
    makes [getGameObject(id)] return [obj] and leaves every other id as it
    was.  [removeGameObject(id)] of a registered character unregisters it
    and, through its [destroy], removes its physics body; the other ids
    stay.  [reset] empties the table without calling any [destroy]: the
    physics bodies of the objects it drops stay in the physics engine. *)
Theorem gameObjects_add_get_remove (id : string) (obj : GameObject Arena)
  (w : World.t Arena) :
  getGameObject id (addGameObject id obj w) = Some obj
  /\ (forall other, other <> id ->
        getGameObject other (addGameObject id obj w) = getGameObject other w)
  /\ (forall c,
        getGameObject id w = Some (GCharacter c) ->
        let w' := removeGameObject Arena_destroy id w in
        getGameObject id w' = None
        /\ getBody (Char.id c) (World.bodies w') = None
        /\ forall other, other <> id ->
                         getGameObject other w' = getGameObject other w)
  /\ World.gameObjects (GameEngine_reset w) = []
  /\ World.bodies (GameEngine_reset w) = World.bodies w.
Proof.
  split; [apply getGameObject_addGameObject|].
  split; [intros other; apply getGameObject_addGameObject_other|].
  split; [|split; reflexivity].
  intros c Hc. cbv zeta. unfold removeGameObject. rewrite Hc.
  unfold Character_destroy, getGameObject.
  cbn [World.gameObjects World.bodies World.set_gameObjects
       World.set_bodies].
  split; [|split].
  - rewrite find_filter_out, String.eqb_refl. reflexivity.
  - apply getBody_removeBody.
  - intros other Hne. rewrite find_filter_out.
    replace (String.eqb other id) with false; [reflexivity|].
    symmetry. apply String.eqb_neq. exact Hne.
Qed.

(** ** Projectiles *)

Lemma projectileKey_inj (t t' : Z) :
  projectileKey t = projectileKey t' -> t = t'.
Proof.
  unfold projectileKey. intros H. simpl in H.
  injection H as H.
  apply to_int_inj.
  assert (N : forall z, Z.to_int z <> Decimal.Pos Decimal.Nil
                        /\ Z.to_int z <> Decimal.Neg Decimal.Nil).
  { intros [|p|p]; simpl; split; try discriminate;
      intros E; injection E as E;
      apply (Unsigned.to_uint_nonnil p E). }
  destruct (N t) as [N1 N2]. destruct (N t') as [N1' N2'].
  pose proof (NilZero.isi _ N1 N2) as I.
  pose proof (NilZero.isi _ N1' N2') as I'.
  rewrite H in I. rewrite I in I'. injection I' as I'. exact I'.
Qed.

Lemma setCharacter_keys self c w :
  map fst (World.gameObjects (setCharacter self c w))
  = map fst (World.gameObjects w).
Proof.
  unfold setCharacter. cbn [World.gameObjects World.set_gameObjects].
  rewrite map_map. apply map_ext. intros kv.
  destruct (String.eqb (fst kv) self); reflexivity.
Qed.

Lemma takeDamage_keys self amount attacker w :
  map fst (World.gameObjects (Character_takeDamage self amount attacker w))
  = map fst (World.gameObjects w).
Proof.
  unfold Character_takeDamage.
  destruct (getCharacter self w); [|reflexivity].
  destruct (_ || _); [reflexivity|].
  rewrite handleCharacterDamaged_gameObjects. apply setCharacter_keys.
Qed.

End Objects.

(** X22.  A projectile is not removed by its own [update]: the removal
    names the key [projectile_<now>] of the current clock reading, not the
    key the projectile was registered under.  When nothing is registered
    under the current key, the projectile is still registered after the
    update, advanced by the tick, whether its life has run out or it has
    just hit a target, and no other object has been removed either.  Keys
    of different clock readings differ, so this is the case whenever the
    update does not run in the millisecond another projectile was created
    in. *)
Theorem projectile_is_never_removed {Arena : Type}
  (Arena_destroy : Arena -> World.t Arena -> World.t Arena)
  (key : string) (p : Projectile.t) (dt : Q) (now : Z) (w : World.t Arena) :
  getGameObject key w = Some (GProjectile p) ->
  getGameObject (projectileKey now) w = None ->
  let w' := Projectile_update Arena_destroy key p dt now w in
  getGameObject key w' = Some (GProjectile (flown dt p))
  /\ map fst (World.gameObjects w') = map fst (World.gameObjects w)
  /\ forall created, created <> now ->
                     projectileKey created <> projectileKey now.
Proof.
  intros Hkey Hnow. cbv zeta.
  split; [|split];
    [| |intros created Hne E; apply Hne; apply projectileKey_inj; exact E].
  all: unfold Projectile_update; cbv zeta; fold (flown dt p).
  all: set (w1 := World.set_gameObjects _ w).
  all: assert (Hkeys : map fst (World.gameObjects w1)
                       = map fst (World.gameObjects w))
         by (unfold w1; cbn [World.gameObjects World.set_gameObjects];
             rewrite map_map; apply map_ext; intros kv;
             destruct (String.eqb (fst kv) key); reflexivity).
  all: assert (Hkey1 : getGameObject key w1 = Some (GProjectile (flown dt p))).
  1, 3: unfold w1, getGameObject in *;
        cbn [World.gameObjects World.set_gameObjects];
        clear Hkeys Hnow;
        induction (World.gameObjects w) as [|kv rest IH];
        [discriminate|]; simpl in *;
        destruct (String.eqb (fst kv) key) eqn:E; simpl;
        [rewrite E; reflexivity | rewrite E; apply IH; exact Hkey].
  all: assert (Hnow1 : getGameObject (projectileKey now) w1 = None)
         by (unfold w1, getGameObject in *;
             cbn [World.gameObjects World.set_gameObjects];
             rewrite getGameObject_map_other;
             [exact Hnow
             |intros kv; destruct (String.eqb (fst kv) key); reflexivity
             |intros kv E; destruct (String.eqb (fst kv) key) eqn:E';
              [|reflexivity];
              apply String.eqb_eq in E, E'; exfalso;
              rewrite <- E, E', Hkey in Hnow; discriminate Hnow]).
  all: replace (if Projectile.life (flown dt p) <=? 0
                then removeGameObject Arena_destroy (projectileKey now) w1
                else w1) with w1
         by (destruct (_ <=? 0);
             [rewrite removeGameObject_absent; [reflexivity | exact Hnow1]
             |reflexivity]).
  all: destruct (find _ _) as [target|] eqn:Ef;
    [|first [exact Hkey1 | exact Hkeys]].
  all: apply find_some in Ef; destruct Ef as [_ Ef].
  all: destruct (getCharacter (Body.id target) w1) as [tc|] eqn:Ht;
    [|discriminate].
  all: assert (Hne1 : key <> Body.id target)
         by (intros E; unfold getCharacter in Ht; rewrite <- E, Hkey1 in Ht;
             discriminate Ht).
  all: assert (Hne2 : projectileKey now <> Body.id target)
         by (intros E; unfold getCharacter in Ht; rewrite <- E, Hnow1 in Ht;
             discriminate Ht).
  all: rewrite removeGameObject_absent
         by (rewrite takeDamage_other_object; [exact Hnow1 | exact Hne2]).
  - rewrite takeDamage_other_object; [exact Hkey1 | exact Hne1].
  - rewrite takeDamage_keys. exact Hkeys.
Qed.

Lemma projectile_is_never_removed_witness :
  exists p',
    getGameObject (projectileKey 1000)
      (Projectile_update noArena_destroy (projectileKey 1000)
         firedProjectile 3 1016 firedWorld)
    = Some (GProjectile p')
    /\ Projectile.life p' < 0.
Proof.
  destruct (projectile_is_never_removed noArena_destroy (projectileKey 1000)
              firedProjectile 3 1016 firedWorld) as (H & _).
  - vm_compute. reflexivity.
  - vm_compute. reflexivity.
  - exists (flown 3 firedProjectile). split; [exact H|].
    vm_compute. reflexivity.
Defined.

(** ** The end of a match *)

Lemma set_lastTime_twice {Arena : Type} t t' (w : World.t Arena) :
  World.set_lastTime t' (World.set_lastTime t w) = World.set_lastTime t' w.
Proof. reflexivity. Qed.

(** What the end of a battle leaves of the engine's state. *)
Lemma endBattle_gameState {Arena : Type} result (w : World.t Arena) :
  let gs := World.gameState w in
  World.gameState (BattleSystem_endBattle result w)
  = if Battle.isActive (World.battle w)
    then GameState.mk false (GameState.isPaused gs)
           (GameState.timeRemaining gs) (GameState.winner gs)
    else gs.
Proof.
  cbv zeta. unfold BattleSystem_endBattle.
  destruct (Battle.isActive (World.battle w)); reflexivity.
Qed.

(** X23.  [BattleSystem.endBattle] on an active battle records the
    result, stops the engine, schedules the victory screen one second
    later and dispatches one ['battleComplete'] event.  From then on the
    first result stands: a further [endBattle], a death, the end of the
    countdown, [quitBattle], a damage report, the player's attack, block
    and dash input, [pauseBattle] and the iterations of the game loop all
    leave the world as it is. *)
Theorem first_result_is_final {Arena : Type}
  (Arena_update : Q -> Arena -> World.t Arena -> World.t Arena)
  (Arena_destroy : Arena -> World.t Arena -> World.t Arena)
  (result : BattleResult) (w : World.t Arena) :
  Battle.isActive (World.battle w) = true ->
  let w' := BattleSystem_endBattle result w in
  Battle.isActive (World.battle w') = false
  /\ Battle.battleResult (World.battle w') = Some result
  /\ Battle.completed (World.battle w')
     = Battle.completed (World.battle w) ++ [result]
  /\ World.isRunning w' = false
  /\ GameState.isPlaying (World.gameState w') = false
  /\ World.timeouts w'
     = World.timeouts w ++ [(1000, ShowVictoryScreen result)]
  /\ battleIsOver Arena_update Arena_destroy w'.
Proof.
  intros Ha. cbv zeta.
  assert (Hi : Battle.isActive (World.battle (BattleSystem_endBattle result w))
               = false)
    by (unfold BattleSystem_endBattle; rewrite Ha; reflexivity).
  assert (Hr : World.isRunning (BattleSystem_endBattle result w) = false)
    by (unfold BattleSystem_endBattle; rewrite Ha; reflexivity).
  split; [exact Hi|].
  split; [unfold BattleSystem_endBattle; rewrite Ha; reflexivity|].
  split; [unfold BattleSystem_endBattle; rewrite Ha; reflexivity|].
  split; [exact Hr|].
  split; [rewrite endBattle_gameState, Ha; reflexivity|].
  split; [unfold BattleSystem_endBattle; rewrite Ha; reflexivity|].
  generalize dependent (BattleSystem_endBattle result w). intros w' Hi Hr.
  unfold battleIsOver, BattleSystem_endBattle,
    BattleSystem_handleCharacterDeath, BattleSystem_handleBattleEnd,
    BattleSystem_handleCharacterDamaged, BattleSystem_quitBattle,
    BattleSystem_handlePlayerAttack, BattleSystem_handlePlayerBlock,
    BattleSystem_handlePlayerDash, BattleSystem_pauseBattle,
    GameEngine_gameLoop.
  rewrite Hi, Hr. cbn [negb]. repeat split.
Qed.

Lemma first_result_is_final_witness :
  Battle.battleResult
    (World.battle (BattleSystem_endBattle victory battleWorld))
  = Some victory
  /\ BattleSystem_endBattle defeat (BattleSystem_endBattle victory battleWorld)
     = BattleSystem_endBattle victory battleWorld.
Proof.
  destruct (first_result_is_final noArena_update noArena_destroy victory
              battleWorld eq_refl) as (_ & H1 & _ & _ & _ & _ & H2 & _).
  split; [exact H1 | apply H2].
Defined.

(** ** The countdown over several ticks *)

Lemma handleBattleEnd_gameState {Arena : Type} winner (w : World.t Arena) :
  let gs := World.gameState w in
  GameState.timeRemaining
    (World.gameState (BattleSystem_handleBattleEnd winner w))
  = GameState.timeRemaining gs
  /\ (GameState.isPlaying gs = false ->
      GameState.isPlaying
        (World.gameState (BattleSystem_handleBattleEnd winner w)) = false).
Proof.
  cbv zeta. unfold BattleSystem_handleBattleEnd.
  destruct (Battle.isActive (World.battle w)) eqn:Ha; cbn [negb];
    [|split; [reflexivity | intros H; exact H]].
  destruct winner as [[| |]|]; rewrite endBattle_gameState, Ha;
    split; reflexivity.
Qed.

(** X24.  The countdown of [GameEngine.update].  For a tick of
    non-negative length the time remaining never increases and never goes
    below zero.  While more than the tick is left, the tick is taken off;
    when the tick uses up what is left, the time remaining is set to
    exactly 0 and the match stops playing, after which no later tick
    changes anything: the countdown ends the battle once.  A match that is
    not playing, or has no time left, is not counted down at all. *)
Theorem countdown_stops_at_zero {Arena : Type} (dt : Q)
  (w : World.t Arena) :
  0 <= dt ->
  0 <= GameState.timeRemaining (World.gameState w) ->
  let left := GameState.timeRemaining (World.gameState w) in
  let playing := GameState.isPlaying (World.gameState w) in
  let w' := updateGameTimer dt w in
  let left' := GameState.timeRemaining (World.gameState w') in
  0 <= left' /\ left' <= left
  /\ (playing = false \/ left <= 0 -> w' = w)
  /\ (playing = true -> dt < left ->
      left' = left - dt
      /\ GameState.isPlaying (World.gameState w') = true)
  /\ (playing = true -> 0 < left -> left <= dt ->
      left' = 0
      /\ GameState.isPlaying (World.gameState w') = false
      /\ forall dt', updateGameTimer dt' w' = w').
Proof.
  intros Hdt Hleft. cbv zeta.
  assert (Hstop : forall w0 : World.t Arena,
             GameState.isPlaying (World.gameState w0) = false ->
             forall dt', updateGameTimer dt' w0 = w0)
    by (intros w0 H dt'; unfold updateGameTimer; rewrite H; reflexivity).
  assert (Hend : forall w0 : World.t Arena,
             GameState.timeRemaining
               (World.gameState (GameEngine_endBattle w0))
             = GameState.timeRemaining (World.gameState w0)
             /\ GameState.isPlaying
                  (World.gameState (GameEngine_endBattle w0)) = false).
  { intros w0. unfold GameEngine_endBattle. cbv zeta.
    match goal with
    | |- context [BattleSystem_handleBattleEnd ?win ?w1] =>
        destruct (handleBattleEnd_gameState win w1) as [E1 E2];
        cbv zeta in E1, E2; rewrite E1, (E2 eq_refl)
    end.
    split; reflexivity. }
  destruct (GameState.isPlaying (World.gameState w)) eqn:Hp.
  2: { rewrite (Hstop w Hp dt). split; [exact Hleft|]. split; [lra|].
       split; [reflexivity|]. split; intros; discriminate. }
  destruct (Qlt_le_dec 0 (GameState.timeRemaining (World.gameState w)))
    as [H0 | H0].
  2: { assert (Hw : updateGameTimer dt w = w)
         by (unfold updateGameTimer;
             rewrite (proj2 (Qltb_false_iff _ _) H0), andb_false_r;
             reflexivity).
       rewrite Hw. split; [exact Hleft|]. split; [lra|].
       split; [reflexivity|]. split; intros; lra. }
  set (gs := World.gameState w) in *.
  destruct (Qlt_le_dec dt (GameState.timeRemaining gs)) as [He | He].
  - assert (Hw : updateGameTimer dt w
                 = World.set_gameState
                     (GameState.mk (GameState.isPlaying gs)
                        (GameState.isPaused gs)
                        (GameState.timeRemaining gs - dt)
                        (GameState.winner gs)) w).
    { unfold updateGameTimer. cbv zeta. fold gs.
      rewrite Hp, (proj2 (Qltb_true_iff _ _) H0). cbn [andb].
      replace (GameState.timeRemaining gs - dt <=? 0) with false;
        [reflexivity|].
      symmetry. apply Qleb_false_iff. lra. }
    rewrite Hw.
    cbn [World.gameState World.set_gameState GameState.timeRemaining
         GameState.isPlaying].
    split; [lra|]. split; [lra|].
    split; [intros [H | H]; [discriminate | lra]|].
    split; [intros _ _; split; [reflexivity | exact Hp]|].
    intros _ _ H. lra.
  - assert (Hw : updateGameTimer dt w
                 = GameEngine_endBattle
                     (World.set_gameState
                        (GameState.mk (GameState.isPlaying gs)
                           (GameState.isPaused gs) 0
                           (GameState.winner gs)) w)).
    { unfold updateGameTimer. cbv zeta. fold gs.
      rewrite Hp, (proj2 (Qltb_true_iff _ _) H0). cbn [andb].
      replace (GameState.timeRemaining gs - dt <=? 0) with true;
        [reflexivity|].
      symmetry. apply Qleb_true_iff. lra. }
    rewrite Hw.
    match goal with
    | |- context [GameEngine_endBattle ?w1] =>
        destruct (Hend w1) as [E1 E2]; rewrite E1, E2
    end.
    cbn [World.gameState World.set_gameState GameState.timeRemaining].
    split; [lra|]. split; [lra|].
    split; [intros [H | H]; [discriminate | lra]|].
    split; [intros _ H; lra|].
    intros _ _ _. split; [reflexivity|]. split; [reflexivity|].
    apply Hstop. exact E2.
Qed.

Lemma countdown_stops_at_zero_witness :
  GameState.timeRemaining
    (World.gameState (updateGameTimer (1 / 30) lateWorld)) = 0
  /\ updateGameTimer (1 / 30) (updateGameTimer (1 / 30) lateWorld)
     = updateGameTimer (1 / 30) lateWorld.
Proof.
  assert (H0 : 0 <= 1 / 30) by (vm_compute; discriminate).
  assert (H1 : 0 <= GameState.timeRemaining (World.gameState lateWorld))
    by (vm_compute; discriminate).
  destruct (countdown_stops_at_zero (1 / 30) lateWorld H0 H1)
    as (_ & _ & _ & _ & H).
  destruct H as (E1 & _ & E2);
    [reflexivity | reflexivity | vm_compute; discriminate |].
  split; [exact E1 | apply E2].
Defined.

(** ** Pausing *)

Lemma last_cons_default {A : Type} (a : A) (l : list A) (d d' : A) :
  last (a :: l) d = last (a :: l) d'.
Proof.
  revert a. induction l as [|b l IH]; intros a; [reflexivity|].
  change (last (b :: l) d = last (b :: l) d'). apply IH.
Qed.

(** X25.  Pausing freezes the game.  While the engine is paused the
    iterations of the game loop change nothing but [lastTime], however
    many run and whatever the clock reads; an engine that is not running
    does not even change that.  [togglePause] flips [isPaused];
    toggling twice restores the game state, with [lastTime] set to the
    clock reading of the toggle that resumed the game. *)
Theorem paused_loop_is_frozen {Arena : Type}
  (Arena_update : Q -> Arena -> World.t Arena -> World.t Arena)
  (Arena_destroy : Arena -> World.t Arena -> World.t Arena)
  (now : Z) (w : World.t Arena) :
  let loop := fun w t =>
                GameEngine_gameLoop Arena_update Arena_destroy t now w in
  (World.isRunning w = false -> forall ts, fold_left loop ts w = w)
  /\ (World.isRunning w = true ->
      GameState.isPaused (World.gameState w) = true ->
      forall ts, fold_left loop ts w
                 = World.set_lastTime (last ts (World.lastTime w)) w)
  /\ (forall t,
        GameState.isPaused (World.gameState (GameEngine_togglePause t w))
        = negb (GameState.isPaused (World.gameState w)))
  /\ (forall t1 t2,
        GameEngine_togglePause t2 (GameEngine_togglePause t1 w)
        = World.set_lastTime
            (if GameState.isPaused (World.gameState w) then t1 else t2) w).
Proof.
  cbv zeta. split; [|split; [|split]].
  - intros Hr ts. induction ts as [|t ts IH]; [reflexivity|].
    cbn [fold_left]. unfold GameEngine_gameLoop at 2. rewrite Hr.
    exact IH.
  - intros Hr Hp ts. revert w Hr Hp.
    induction ts as [|t ts IH]; intros w Hr Hp.
    + destruct w; reflexivity.
    + cbn [fold_left]. unfold GameEngine_gameLoop at 2. rewrite Hr.
      cbn [negb World.gameState World.set_lastTime].
      rewrite Hp. cbn [negb].
      rewrite IH; [|exact Hr | exact Hp].
      cbn [World.lastTime World.set_lastTime].
      destruct ts as [|t' ts]; [reflexivity|].
      rewrite (last_cons_default t' ts t (World.lastTime w)). reflexivity.
  - intros t. unfold GameEngine_togglePause. cbv zeta.
    cbn [World.gameState World.set_gameState GameState.isPaused].
    destruct (GameState.isPaused (World.gameState w)); reflexivity.
  - intros t1 t2. unfold GameEngine_togglePause. cbv zeta.
    destruct w as [g bs objs run lt [playing paused left win] b tos].
    destruct paused; reflexivity.
Qed.

(** X26.  Losing and regaining the window's focus during an active
    battle always leaves the game running: [handleWindowBlur] pauses it if
    it was not paused, [handleWindowFocus] then resumes it, also when the
    pause was the player's own, made before the focus was lost.  Outside
    an active battle neither handler does anything. *)
Theorem focus_resumes_any_pause {Arena : Type} (t1 t2 : Q)
  (w : World.t Arena) :
  let back :=
    Application_handleWindowFocus t2 (Application_handleWindowBlur t1 w) in
  (Battle.isActive (World.battle w) = true ->
   GameState.isPaused (World.gameState back) = false
   /\ World.lastTime back = t2
   /\ (GameState.isPaused (World.gameState w) = true ->
       Application_handleWindowBlur t1 w = w))
  /\ (Battle.isActive (World.battle w) = false ->
      Application_handleWindowBlur t1 w = w
      /\ Application_handleWindowFocus t2 w = w).
Proof.
  cbv zeta.
  unfold Application_handleWindowFocus, Application_handleWindowBlur,
    GameEngine_togglePause.
  destruct w as [g bs objs run lt [playing paused left win]
                   [active res d1 h1 d2 h2 done] tos].
  cbn [World.battle World.gameState Battle.isActive GameState.isPaused].
  split.
  - intros ->. destruct paused; repeat split; intros H;
      first [discriminate H | reflexivity].
  - intros ->. split; reflexivity.
Qed.

(** ** Deaths in the same tick *)

Lemma handleCharacterDeath_matchState {Arena : Type} character
  (w w0 : World.t Arena) :
  matchState w = matchState w0 ->
  matchState (BattleSystem_handleCharacterDeath character w)
  = matchState (BattleSystem_handleCharacterDeath character w0).
Proof.
  unfold matchState. intros H. injection H as Hb Hg Hr Ht.
  unfold BattleSystem_handleCharacterDeath, BattleSystem_endBattle,
    GameEngine_stop, setTimeout.
  rewrite Hb.
  repeat match goal with
         | |- context [if ?b then _ else _] => destruct b
         end;
    cbn [World.battle World.gameState World.isRunning World.timeouts
         World.set_battle World.set_gameState World.set_isRunning
         World.set_timeouts];
    rewrite ?Hb, ?Hg, ?Hr, ?Ht; reflexivity.
Qed.

Lemma setCharacter_twice {Arena : Type} self c c' (w : World.t Arena) :
  World.gameObjects (setCharacter self c' (setCharacter self c w))
  = World.gameObjects (setCharacter self c' w).
Proof.
  unfold setCharacter. cbn [World.gameObjects World.set_gameObjects].
  rewrite map_map. apply map_ext. intros kv.
  destruct (String.eqb (fst kv) self) eqn:E; cbn [fst]; rewrite E;
    reflexivity.
Qed.

(** The tick of a living combatant whose health is used up: it dies, and
    the battle system hears of it. *)
Lemma fatal_tick {Arena : Type} self dt c (w : World.t Arena) :
  getCharacter self w = Some c ->
  Char.isDead c = false -> Char.health c <= 0 ->
  let w' := Character_update self dt w in
  exists c',
    Char.isDead c' = true
    /\ World.gameObjects w' = World.gameObjects (setCharacter self c' w)
    /\ matchState w' = matchState (BattleSystem_handleCharacterDeath self w).
Proof.
  intros Hc Hd Hh. cbv zeta. unfold Character_update. rewrite Hc, Hd.
  fold (ticked dt c w).
  destruct (ticked_frame dt c w) as (Eh & _ & Ed & _).
  rewrite Eh, Ed, Hd, (proj2 (Qleb_true_iff _ _) Hh). cbn [andb negb].
  unfold Character_die.
  rewrite (getCharacter_setCharacter self c _ w Hc).
  eexists. split; [|split].
  2: { rewrite handleCharacterDeath_gameObjects. unfold writePhysicsBody.
       cbn [World.gameObjects World.set_bodies].
       apply setCharacter_twice. }
  - destruct (setAnimation_fields Animation.death
                (Char.set_health 0 (Char.set_isDead true (ticked dt c w))))
      as (_ & -> & _).
    reflexivity.
  - apply handleCharacterDeath_matchState. reflexivity.
Qed.

Lemma updateObject_character {Arena : Type}
  (Arena_update : Q -> Arena -> World.t Arena -> World.t Arena)
  (Arena_destroy : Arena -> World.t Arena -> World.t Arena)
  dt now key c (w : World.t Arena) :
  getGameObject key w = Some (GCharacter c) ->
  updateObject Arena_update Arena_destroy dt now w key
  = Character_update key dt w.
Proof. intros H. unfold updateObject. rewrite H. reflexivity. Qed.

(** X27.  When both combatants are found with no health left in the same
    iteration of [GameEngine.update], the match is a defeat: the player,
    registered first, is updated first, its death ends the battle, and the
    opponent's death in the same pass is not counted.  One
    ['battleComplete'] event is dispatched, and both end dead. *)
Theorem double_knockout_is_a_defeat {Arena : Type}
  (Arena_update : Q -> Arena -> World.t Arena -> World.t Arena)
  (Arena_destroy : Arena -> World.t Arena -> World.t Arena)
  (dt : Q) (now : Z) (w : World.t Arena) (p o : Char.t) :
  World.gameObjects w
  = [("player"%string, GCharacter p); ("opponent"%string, GCharacter o)] ->
  Battle.isActive (World.battle w) = true ->
  Char.isDead p = false -> Char.isDead o = false ->
  Char.health p <= 0 -> Char.health o <= 0 ->
  let w' := GameEngine_update Arena_update Arena_destroy dt now w in
  Battle.battleResult (World.battle w') = Some defeat
  /\ Battle.completed (World.battle w')
     = Battle.completed (World.battle w) ++ [defeat]
  /\ exists p' o',
       World.gameObjects w'
       = [("player"%string, GCharacter p');
          ("opponent"%string, GCharacter o')]
       /\ Char.isDead p' = true /\ Char.isDead o' = true.
Proof.
  intros Hobjs Ha Hdp Hdo Hhp Hho. cbv zeta.
  unfold GameEngine_update, updateGameObjects. rewrite Hobjs.
  cbn [map fst fold_left].
  (* the player's update *)
  assert (Hp : getCharacter "player" w = Some p)
    by (unfold getCharacter, getGameObject; rewrite Hobjs; reflexivity).
  rewrite (updateObject_character _ _ dt now "player" p w)
    by (unfold getGameObject; rewrite Hobjs; reflexivity).
  destruct (fatal_tick "player" dt p w Hp Hdp Hhp) as (p' & Hp' & O1 & M1).
  set (w1 := Character_update "player" dt w) in *.
  assert (Hobjs1 : World.gameObjects w1
                   = [("player"%string, GCharacter p');
                      ("opponent"%string, GCharacter o)])
    by (rewrite O1; unfold setCharacter;
        cbn [World.gameObjects World.set_gameObjects];
        rewrite Hobjs; reflexivity).
  assert (M1' : matchState w1
                = matchState (BattleSystem_endBattle defeat w))
    by (rewrite M1; unfold BattleSystem_handleCharacterDeath;
        rewrite Ha; reflexivity).
  (* the opponent's update *)
  assert (Ho : getCharacter "opponent" w1 = Some o)
    by (unfold getCharacter, getGameObject; rewrite Hobjs1; reflexivity).
  rewrite (updateObject_character _ _ dt now "opponent" o w1)
    by (unfold getGameObject; rewrite Hobjs1; reflexivity).
  destruct (fatal_tick "opponent" dt o w1 Ho Hdo Hho) as (o' & Ho' & O2 & M2).
  set (w2 := Character_update "opponent" dt w1) in *.
  assert (Hobjs2 : World.gameObjects w2
                   = [("player"%string, GCharacter p');
                      ("opponent"%string, GCharacter o')])
    by (rewrite O2; unfold setCharacter;
        cbn [World.gameObjects World.set_gameObjects];
        rewrite Hobjs1; reflexivity).
  assert (Hover : Battle.isActive (World.battle w1) = false).
  { unfold matchState in M1'. injection M1' as Hb _ _ _. rewrite Hb.
    unfold BattleSystem_endBattle. rewrite Ha. reflexivity. }
  assert (M2' : matchState w2 = matchState (BattleSystem_endBattle defeat w))
    by (rewrite M2; unfold BattleSystem_handleCharacterDeath;
        rewrite Hover; exact M1').
  unfold matchState in M2'. injection M2' as Hb Hg _ _.
  (* the countdown *)
  assert (Hw : updateGameTimer dt w2 = w2).
  { unfold updateGameTimer. rewrite Hg, endBattle_gameState, Ha.
    reflexivity. }
  rewrite Hw, Hb. unfold BattleSystem_endBattle. rewrite Ha.
  cbn [negb World.battle World.set_battle setTimeout World.set_timeouts
       GameEngine_stop World.set_gameState World.set_isRunning
       Battle.battleResult Battle.completed].
  split; [reflexivity|]. split; [reflexivity|].
  exists p', o'. split; [exact Hobjs2|]. split; assumption.
Qed.

Lemma double_knockout_is_a_defeat_witness :
  Battle.battleResult
    (World.battle
       (GameEngine_update noArena_update noArena_destroy (1 / 30) 0
          bothDown))
  = Some defeat.
Proof.
  assert (H : World.gameObjects bothDown
              = [("player"%string, GCharacter downPlayer);
                 ("opponent"%string, GCharacter downOpponent)])
    by (vm_compute; reflexivity).
  assert (Hp : Char.health downPlayer <= 0) by (vm_compute; discriminate).
  assert (Ho : Char.health downOpponent <= 0) by (vm_compute; discriminate).
  apply (proj1 (double_knockout_is_a_defeat noArena_update noArena_destroy
                  (1 / 30) 0 bothDown downPlayer downOpponent H eq_refl
                  eq_refl eq_refl Hp Ho)).
Defined.

(** ** Particles *)

Lemma splice_last {A : Type} (l : list A) (a : A) (rest : list A) :
  splice (List.length l) (l ++ a :: rest) = l ++ rest.
Proof. induction l as [|b l IH]; simpl; [reflexivity | rewrite IH; reflexivity]. Qed.

Lemma set_nth_last {A : Type} (l : list A) (a v : A) (rest : list A) :
  set_nth (List.length l) v (l ++ a :: rest) = l ++ v :: rest.
Proof. induction l as [|b l IH]; simpl; [reflexivity | rewrite IH; reflexivity]. Qed.

Lemma nth_error_last {A : Type} (l : list A) (a : A) (rest : list A) :
  nth_error (l ++ a :: rest) (List.length l) = Some a.
Proof. induction l as [|b l IH]; simpl; [reflexivity | exact IH]. Qed.

Lemma updateParticles_from_prefix (dt : Q) (l done : list Particle.t) :
  updateParticles_from dt (List.length l) (l ++ done)
  = filter alive (map (advanceParticle dt) l) ++ done.
Proof.
  revert done. induction l as [|p l IH] using rev_ind; intros done.
  - reflexivity.
  - rewrite length_app, Nat.add_comm. cbn [List.length Nat.add].
    cbn [updateParticles_from].
    rewrite <- app_assoc. cbn [app].
    rewrite nth_error_last.
    rewrite map_app, filter_app. cbn [map filter]. unfold alive at 2.
    destruct (Particle.life (advanceParticle dt p) <=? 0); cbn [negb].
    + rewrite splice_last, IH, app_nil_r. reflexivity.
    + rewrite set_nth_last, IH, <- app_assoc. reflexivity.
Qed.

(** X28.  The backward loop of [updateParticles], which removes particles
    from the array it is walking, visits every particle exactly once: the
    result is every particle advanced by the tick, in the same order,
    without those whose life the tick has used up.  So the list never
    grows, and every particle left has life left. *)
Theorem updateParticles_advances_each_once (deltaTime : Q)
  (particles : list Particle.t) :
  updateParticles deltaTime particles
  = filter alive (map (advanceParticle deltaTime) particles)
  /\ (List.length (updateParticles deltaTime particles)
      <= List.length particles)%nat
  /\ Forall (fun p => 0 < Particle.life p)
       (updateParticles deltaTime particles).
Proof.
  assert (E : updateParticles deltaTime particles
              = filter alive (map (advanceParticle deltaTime) particles)).
  { unfold updateParticles.
    rewrite <- (app_nil_r particles) at 2.
    rewrite updateParticles_from_prefix. apply app_nil_r. }
  split; [exact E|]. rewrite E. split.
  - rewrite <- (length_map (advanceParticle deltaTime) particles).
    apply filter_length_le.
  - apply Forall_forall. intros p Hin. apply filter_In in Hin.
    destruct Hin as [_ Hp]. unfold alive in Hp.
    apply negb_true_iff, Qleb_false_iff in Hp. exact Hp.
Qed.

(** ** Rewards *)

Lemma Qfloor_lt (a b : Q) : a + 1 <= b -> (Qfloor a < Qfloor b)%Z.
Proof.
  intros H. rewrite Zlt_Qlt.
  pose proof (Qfloor_le a) as Ha. pose proof (Qlt_floor b) as Hb.
  rewrite inject_Z_plus in Hb. change (inject_Z 1) with 1 in Hb. lra.
Qed.

Lemma hits_as_Q (n : nat) :
  inject_Z (Z.of_nat n) == 0 \/ 1 <= inject_Z (Z.of_nat n).
Proof.
  destruct n as [|n]; [left; reflexivity | right].
  change 1 with (inject_Z 1). rewrite <- Zle_Qle. lia.
Qed.

Lemma accuracyBonus_range (n : nat) :
  0.1 <= accuracyBonus n /\ accuracyBonus n <= 1.5.
Proof.
  unfold accuracyBonus. destruct (0 <? n)%nat eqn:E; [|split; lra].
  apply Nat.ltb_lt in E.
  assert (H : 1 <= inject_Z (Z.of_nat n))
    by (change 1 with (inject_Z 1); rewrite <- Zle_Qle; lia).
  destruct (Q.min_spec 1.5 (inject_Z (Z.of_nat n) / 10)) as [[H1 ->]|[H1 ->]];
    unfold Qdiv in *; change (/ 10) with (1 # 10) in *; split; lra.
Qed.

Lemma calculateRewards_factors {Arena : Type} (result : BattleResult)
  (duration : Q) (w : World.t Arena) :
  BattleSystem_calculateRewards result duration w
  = let accuracy := accuracyBonus (Battle.playerHitsLanded (World.battle w)) in
    let speed := if duration <? 20 then 1.2 else 1 in
    let health :=
      match getCharacter "player" w with
      | Some player => if 50 <? Char.health player then 1.1 else 1
      | None => 1
      end in
    Rewards.mk (Qfloor (15 * xpMultiplier result * accuracy * speed))
      (Qfloor (10 * coinMultiplier result * health))
      (1 <? accuracy) (1 <? speed) (1 <? health).
Proof. destruct result; reflexivity. Qed.

Lemma Qfloor_above (z : Z) (q : Q) : inject_Z z <= q -> (z <= Qfloor q)%Z.
Proof.
  intros H. rewrite <- (Qfloor_Z z). apply Qfloor_resp_le. exact H.
Qed.

Lemma Qfloor_below (z : Z) (q : Q) : q <= inject_Z z -> (Qfloor q <= z)%Z.
Proof.
  intros H. rewrite <- (Qfloor_Z z). apply Qfloor_resp_le. exact H.
Qed.

(** X29.  The rewards of a match.  The experience awarded is between 1
    and 54 and the coins between 10 and 33, whatever the result, the
    duration and the state of the battle.  A victory never pays less
    experience than a draw, nor a draw less than a defeat.  The accuracy
    factor is [hits / 10] as soon as one hit has landed: a player who
    landed between 1 and 9 hits is awarded strictly less experience than
    one who landed none, and the accuracy bonus is reported only from the
    eleventh hit on. *)
Theorem rewards_range_and_accuracy {Arena : Type} (result : BattleResult)
  (duration : Q) (w : World.t Arena) :
  let r := BattleSystem_calculateRewards result duration w in
  let xp := fun res n =>
              Rewards.xp
                (BattleSystem_calculateRewards res duration (withHits n w)) in
  (1 <= Rewards.xp r <= 54)%Z
  /\ (10 <= Rewards.coins r <= 33)%Z
  /\ (forall n, (xp defeat n <= xp draw n <= xp victory n)%Z)
  /\ (forall n, (1 <= n <= 9)%nat -> (xp result n < xp result 0%nat)%Z)
  /\ (Rewards.accuracy r = true
      <-> (10 < Battle.playerHitsLanded (World.battle w))%nat).
Proof.
  cbv zeta. rewrite !calculateRewards_factors. cbv zeta.
  cbn [Rewards.xp Rewards.coins Rewards.accuracy withHits World.battle
       World.set_battle Battle.playerHitsLanded].
  pose proof (accuracyBonus_range (Battle.playerHitsLanded (World.battle w)))
    as [A1 A2].
  set (hits := Battle.playerHitsLanded (World.battle w)) in *.
  split; [|split; [|split; [|split]]].
  - (* experience *)
    split; [apply Qfloor_above | apply Qfloor_below];
      destruct result, (duration <? 20); cbn [xpMultiplier];
      unfold inject_Z; lra.
  - (* coins *)
    split; [apply Qfloor_above | apply Qfloor_below];
      destruct result, (getCharacter "player" w) as [player|];
      cbn [coinMultiplier]; try destruct (50 <? Char.health player);
      unfold inject_Z; lra.
  - intros n. rewrite !calculateRewards_factors. cbv zeta.
    cbn [Rewards.xp withHits World.battle World.set_battle
         Battle.playerHitsLanded xpMultiplier].
    pose proof (accuracyBonus_range n) as [B1 B2].
    split; apply Qfloor_resp_le; destruct (duration <? 20); nra.
  - intros n Hn. rewrite !calculateRewards_factors. cbv zeta.
    cbn [Rewards.xp withHits World.battle World.set_battle
         Battle.playerHitsLanded].
    assert (Hacc : accuracyBonus n <= 0.9).
    { unfold accuracyBonus.
      replace (0 <? n)%nat with true by (symmetry; apply Nat.ltb_lt; lia).
      assert (H : inject_Z (Z.of_nat n) <= 9)
        by (change 9 with (inject_Z 9); rewrite <- Zle_Qle; lia).
      eapply Qle_trans; [apply Q.le_min_r|].
      unfold Qdiv; change (/ 10) with (1 # 10); lra. }
    change (accuracyBonus 0) with 1.
    apply Qfloor_lt.
    destruct result, (duration <? 20); cbn [xpMultiplier]; lra.
  - (* the reported bonus *)
    unfold accuracyBonus.
    destruct (0 <? hits)%nat eqn:E.
    + split.
      * intros H. apply Qltb_true_iff in H.
        assert (H' : 1 < inject_Z (Z.of_nat hits) / 10)
          by (eapply Qlt_le_trans; [exact H | apply Q.le_min_r]).
        assert (H'' : inject_Z 10 < inject_Z (Z.of_nat hits))
          by (change (inject_Z 10) with 10; unfold Qdiv in H';
              change (/ 10) with (1 # 10) in H'; lra).
        rewrite <- Zlt_Qlt in H''. lia.
      * intros H. apply Qltb_true_iff.
        assert (H'' : inject_Z 11 <= inject_Z (Z.of_nat hits))
          by (rewrite <- Zle_Qle; lia).
        change (inject_Z 11) with 11 in H''.
        apply Q.min_glb_lt;
          unfold Qdiv; change (/ 10) with (1 # 10); lra.
    + apply Nat.ltb_ge in E. split; [discriminate | lia].
Qed.
